(** * Currency converter agent: query extraction, rate client, batch engine
      and orchestrator

    A shallow embedding of the backend of the currency converter agent
    ([backend/app/services/currency_service.py],
    [backend/app/services/llm_service.py],
    [backend/app/services/conversation_service.py],
    [backend/app/utils/validators.py] and the chat endpoint of
    [backend/app/main.py]) together with the properties of its
    specification.

    Conventions of the embedding.

    - Python [str] values are [string]s; the regular-expression engine works
      on the list of their characters.  Texts are ASCII: the character
      classes and the case mappings below are the ones Python applies to
      ASCII characters, and a property that depends on them is stated for
      ASCII text.
    - A Python [float] is represented by the decimal number it was read
      from, an exact rational ([Q]); binary rounding is outside the
      model.
    - Exceptions are values of [exn]; a computation that may raise and that
      talks to the network is a function from the log of the network calls
      issued so far to an outcome and the extended log.
    - The two HTTP services (rate service, LLM service) are oracles: functions
      from the request to the reply. *)

From Stdlib Require Import List String Ascii Bool Arith Lia ZArith QArith.
From Stdlib Require Import Sorted Permutation.
Import ListNotations.

Local Open Scope string_scope.
Local Open Scope list_scope.
Local Open Scope nat_scope.

(** ** Characters and texts *)

Definition text := list ascii.

Definition code_of (c : ascii) : nat := nat_of_ascii c.

Definition in_range (lo hi : nat) (c : ascii) : bool :=
  (lo <=? code_of c) && (code_of c <=? hi).

(** An ASCII character.  On a text of ASCII characters the character
    classes of the code ([str.isalpha], [str.upper], [str.lower],
    [str.strip] and the classes [\d], [\s], [\w] and [[a-zA-Z]] of [re],
    also under [re.IGNORECASE]) are the ones of this file. *)
Definition is_ascii (c : ascii) : bool := code_of c <? 128.

(** [\d] on ASCII text. *)
Definition is_digit (c : ascii) : bool := in_range 48 57 c.

(** [[a-zA-Z]]. *)
Definition is_alpha (c : ascii) : bool := in_range 65 90 c || in_range 97 122 c.

(** [\s] of a [str] pattern, on ASCII text: tab, newline, vertical tab, form
    feed, carriage return, the four separators 0x1c-0x1f and the space. *)
Definition is_space (c : ascii) : bool :=
  in_range 9 13 c || in_range 28 32 c.

(** [\w] on ASCII text: letters, digits and the underscore. *)
Definition is_word (c : ascii) : bool :=
  is_alpha c || is_digit c || (code_of c =? 95).

Definition upper_char (c : ascii) : ascii :=
  if in_range 97 122 c then ascii_of_nat (code_of c - 32) else c.

Definition lower_char (c : ascii) : ascii :=
  if in_range 65 90 c then ascii_of_nat (code_of c + 32) else c.

(** [str.upper] and [str.lower], on ASCII text. *)
Definition upper (s : text) : text := map upper_char s.
Definition lower (s : text) : text := map lower_char s.

(** A literal character of a pattern compiled with [re.IGNORECASE]. *)
Definition is_char_ci (a : ascii) (c : ascii) : bool :=
  code_of (lower_char c) =? code_of (lower_char a).

(** ** Backtracking regular expressions

    The fragment of Python's [re] the patterns of the program use: one
    character of a class, sequence, ordered alternation, greedy repetition of
    a one-character class, greedy option and numbered capturing groups.  The
    matcher is the usual backtracking one, in continuation-passing style: the
    first alternative (the longest repetition) is tried first and the next
    one only when the rest of the pattern fails. *)

Inductive regex : Type :=
| REmpty
| RClass (c : ascii -> bool)
| RSeq (r1 r2 : regex)
| RAlt (r1 r2 : regex)
| RStar (c : ascii -> bool)
| ROpt (r : regex)
| RGroup (i : nat) (r : regex).

(** Capture slots; a group that took no part in the match reads as the empty
    string, as in the tuples of [re.findall]. *)
Definition captures := nat -> text.

Definition no_captures : captures := fun _ => [].

Definition set_capture (i : nat) (v : text) (caps : captures) : captures :=
  fun j => if Nat.eqb j i then v else caps j.

Fixpoint star_greedy {A : Type} (c : ascii -> bool) (k : text -> option A)
  (s : text) : option A :=
  match s with
  | x :: s' =>
      if c x then
        match star_greedy c k s' with
        | Some a => Some a
        | None => k s
        end
      else k s
  | [] => k s
  end.

Fixpoint rmatch {A : Type} (r : regex) (s : text) (caps : captures)
  (k : text -> captures -> option A) : option A :=
  match r with
  | REmpty => k s caps
  | RClass c =>
      match s with
      | x :: s' => if c x then k s' caps else None
      | [] => None
      end
  | RSeq r1 r2 => rmatch r1 s caps (fun s1 caps1 => rmatch r2 s1 caps1 k)
  | RAlt r1 r2 =>
      match rmatch r1 s caps k with
      | Some a => Some a
      | None => rmatch r2 s caps k
      end
  | RStar c => star_greedy c (fun s' => k s' caps) s
  | ROpt r1 =>
      match rmatch r1 s caps k with
      | Some a => Some a
      | None => k s caps
      end
  | RGroup i r1 =>
      rmatch r1 s caps
        (fun s' caps' =>
           k s' (set_capture i (firstn (List.length s - List.length s') s) caps'))
  end.

(** [re.match] at the head of [s]: the number of characters consumed and the
    captures. *)
Definition match_at (r : regex) (s : text) : option (nat * captures) :=
  rmatch r s no_captures (fun s' caps => Some (List.length s - List.length s', caps)).

(** The scan of [re.findall]: the leftmost match, then the next one from
    where it ended; a position that starts no match is stepped over.
    [skip] counts the characters of the current match still to pass. *)
Fixpoint scan (r : regex) (skip : nat) (s : text) : list captures :=
  match skip with
  | S n =>
      match s with
      | [] => []
      | _ :: t => scan r n t
      end
  | O =>
      match match_at r s with
      | Some (n, caps) =>
          caps :: match s with
                  | [] => []
                  | _ :: t => scan r (pred n) t
                  end
      | None =>
          match s with
          | [] => []
          | _ :: t => scan r 0 t
          end
      end
  end.

(** [re.findall] for a pattern with three groups: the list of the tuples of
    the groups. *)
Definition findall3 (r : regex) (s : text) : list (text * text * text) :=
  map (fun caps => (caps 1%nat, caps 2%nat, caps 3%nat)) (scan r 0 s).

(** Pattern combinators. *)

Fixpoint lit_ci (s : text) : regex :=
  match s with
  | [] => REmpty
  | a :: s' => RSeq (RClass (is_char_ci a)) (lit_ci s')
  end.

Definition lit (s : string) : regex := lit_ci (list_ascii_of_string s).

Definition plus (c : ascii -> bool) : regex := RSeq (RClass c) (RStar c).

Definition rep3 (c : ascii -> bool) : regex :=
  RSeq (RClass c) (RSeq (RClass c) (RClass c)).

(** [\d+(?:\.\d+)?] *)
Definition number_re : regex :=
  RSeq (plus is_digit) (ROpt (RSeq (lit ".") (plus is_digit))).

(** ** Numbers

    [float(s)] on the literals the patterns capture (digits, optionally a
    point and digits), [round(x, n)] (half to even) and [str(x)].  A
    [float] stands for the decimal number it was read from: the functions
    below are exact on decimals, where Python rounds to the nearest binary
    number first.  The two agree on the digits they print as long as a
    number has no more than 15 significant digits and is not a tie of the
    rounding. *)

Definition digit_val (c : ascii) : Z := Z.of_nat (code_of c - 48).

Definition digits_val (s : text) : Z :=
  fold_left (fun acc c => (acc * 10 + digit_val c)%Z) s 0%Z.

Fixpoint take_while (p : ascii -> bool) (s : text) : text :=
  match s with
  | x :: s' => if p x then x :: take_while p s' else []
  | [] => []
  end.

Fixpoint drop_while (p : ascii -> bool) (s : text) : text :=
  match s with
  | x :: s' => if p x then drop_while p s' else s
  | [] => []
  end.

Definition pow10 (n : nat) : positive := Z.to_pos (10 ^ Z.of_nat n).

Definition decimal_value (ip fp : text) : Q :=
  Qred (digits_val (ip ++ fp) # pow10 (List.length fp)).

(** [float(s)]; [None] stands for the [ValueError] of a malformed literal. *)
Definition py_float (s : text) : option Q :=
  let ip := take_while is_digit s in
  match ip, drop_while is_digit s with
  | [], _ => None
  | _, [] => Some (decimal_value ip [])
  | _, dot :: fp =>
      if (code_of dot =? 46) && negb (List.length fp =? 0) && forallb is_digit fp
      then Some (decimal_value ip fp)
      else None
  end.

(** [round(x, n)]: to [n] decimals, ties to the even neighbour. *)
Definition py_round (x : Q) (n : nat) : Q :=
  let scaled := (x * (Zpos (pow10 n) # 1))%Q in
  let num := Qnum scaled in
  let den := Zpos (Qden scaled) in
  let fl := (num / den)%Z in
  let twice_rem := (2 * (num - fl * den))%Z in
  let r :=
    if (twice_rem <? den)%Z then fl
    else if (den <? twice_rem)%Z then (fl + 1)%Z
    else if Z.even fl then fl else (fl + 1)%Z in
  Qred (r # pow10 n).

Definition digit_char (d : Z) : ascii := ascii_of_nat (48 + Z.to_nat d).

(** The decimal digits of a natural number, most significant first. *)
Fixpoint nat_digits_fuel (fuel : nat) (n : Z) (acc : text) : text :=
  match fuel with
  | O => acc
  | S fuel' =>
      let acc' := digit_char (n mod 10)%Z :: acc in
      if (n <? 10)%Z then acc' else nat_digits_fuel fuel' (n / 10)%Z acc'
  end.

Definition str_int (n : Z) : text :=
  let body := nat_digits_fuel (S (Z.to_nat (Z.log2 (Z.abs n)))) (Z.abs n) [] in
  if (n <? 0)%Z then "-"%char :: body else body.

(** The digits after the point of [r / d], for [0 <= r < d]; at most [fuel]
    of them. *)
Fixpoint frac_digits (fuel : nat) (r d : Z) : text :=
  match fuel with
  | O => []
  | S fuel' =>
      if (r =? 0)%Z then []
      else digit_char ((r * 10) / d)%Z :: frac_digits fuel' ((r * 10) mod d)%Z d
  end.

(** For [0 < n < d]: the number of zeros between the point and the first
    digit of [n / d] that is not zero. *)
Fixpoint leading_zeros (fuel : nat) (n d : Z) : nat :=
  match fuel with
  | O => O
  | S fuel' =>
      if (d <=? n * 10)%Z then O else S (leading_zeros fuel' (n * 10)%Z d)
  end.

(** [str(x)] of a float.  From [1e-4] up to [1e16], and for zero: the fixed
    notation, with at least one digit after the point.  Otherwise the
    exponent notation: one digit, the other digits after a point, and the
    exponent with its sign and at least two digits. *)
Definition str_float (x : Q) : text :=
  let n := Z.abs (Qnum x) in
  let d := Zpos (Qden x) in
  let sign := if (Qnum x <? 0)%Z then ["-"%char] else [] in
  if (n =? 0)%Z || ((d <=? n * 10000)%Z && (n <? d * 10 ^ 16)%Z) then
    let fd := frac_digits 17 (n mod d)%Z d in
    sign ++ str_int (n / d)%Z ++ "."%char ::
      match fd with
      | [] => ["0"%char]
      | _ => fd
      end
  else
    let e :=
      if (d <=? n)%Z then (Z.of_nat (List.length (str_int (n / d)%Z)) - 1)%Z
      else (- Z.of_nat (S (leading_zeros (S (Z.to_nat (Z.log2 d))) n d)))%Z in
    let mn := if (0 <=? e)%Z then n else (n * 10 ^ (- e))%Z in
    let md := if (0 <=? e)%Z then (d * 10 ^ e)%Z else d in
    let fd := frac_digits 16 (mn mod md)%Z md in
    sign ++ str_int (mn / md)%Z
      ++ match fd with
         | [] => []
         | _ => "."%char :: fd
         end
      ++ "e"%char :: (if (e <? 0)%Z then "-"%char else "+"%char)
         :: (if (Z.abs e <? 10)%Z then ["0"%char] else []) ++ str_int (Z.abs e).

(** [x == 0], [x <= y], [x > y] on floats. *)
Definition q_is_zero (x : Q) : bool := Qeq_bool x 0.
Definition q_le (x y : Q) : bool := Qle_bool x y.
Definition q_lt (x y : Q) : bool := negb (Qle_bool y x).

(** ** Exceptions and outcomes *)

Inductive exn : Type :=
| ValueError (msg : string)
| JSONDecodeError (msg : string)        (* a subclass of ValueError *)
| ValidationError (msg : string)        (* app.utils.validators *)
| NameError (msg : string)
| UnboundLocalError (msg : string)
| KeyError (key : string)
| TypeError (msg : string)
| ZeroDivisionError (msg : string)
| OverflowError (msg : string)
| HTTPStatusError (status : nat) (body : string) (msg : string)
| RequestError (msg : string)           (* httpx transport failures *)
| HTTPException (status : nat) (detail : string)   (* fastapi *)
| PlainException (msg : string).        (* raise Exception(...) *)

(** [str(e)]. *)
Definition str_exn (e : exn) : string :=
  match e with
  | ValueError m | JSONDecodeError m | ValidationError m | NameError m
  | UnboundLocalError m | TypeError m | ZeroDivisionError m | OverflowError m
  | HTTPStatusError _ _ m | RequestError m | PlainException m => m
  | HTTPException _ detail => detail
  | KeyError k => "'" ++ k ++ "'"
  end.

(** [isinstance(e, ValueError)]. *)
Definition is_ValueError (e : exn) : bool :=
  match e with
  | ValueError _ | JSONDecodeError _ => true
  | _ => false
  end.

Inductive outcome (A : Type) : Type :=
| Ok (a : A)
| Raise (e : exn).

Arguments Ok {A} a.
Arguments Raise {A} e.

Definition obind {A B : Type} (o : outcome A) (f : A -> outcome B) : outcome B :=
  match o with
  | Ok a => f a
  | Raise e => Raise e
  end.

(** ** Conversion requests and the orchestrator's extractor *)

(** A [str] as the list of its characters, and back. *)
Definition chars (s : string) : text := list_ascii_of_string s.
Definition to_str (s : text) : string := string_of_list_ascii s.

(** A [str] of ASCII characters only. *)
Definition ascii_only (s : string) : bool := forallb is_ascii (chars s).

(** A Python number: an [int] (a JSON integer, an integer literal of a
    caller) or a [float]. *)
Inductive num : Type :=
| PyInt (z : Z)
| PyFloat (x : Q).

Definition num_value (n : num) : Q :=
  match n with
  | PyInt z => z # 1
  | PyFloat x => x
  end.

(** [str(n)]. *)
Definition str_num (n : num) : string :=
  match n with
  | PyInt z => to_str (str_int z)
  | PyFloat x => to_str (str_float x)
  end.

(** [round(n, k)]: an [int] stays as it is for [k >= 0]. *)
Definition round_num (n : num) (k : nat) : num :=
  match n with
  | PyInt z => PyInt z
  | PyFloat x => PyFloat (py_round x k)
  end.

Record conversion : Type := Conversion {
  amount : num;
  from_currency : string;
  to_currency : string
}.

(** [LLMService.conversion_pattern]:
    [(\d+(?:\.\d+)?)\s*([a-zA-Z]{3})\s*(?:to|in)\s*([a-zA-Z]{3})]. *)
Definition conversion_pattern : regex :=
  RSeq (RGroup 1 number_re)
  (RSeq (RStar is_space)
  (RSeq (RGroup 2 (rep3 is_alpha))
  (RSeq (RStar is_space)
  (RSeq (RAlt (lit "to") (lit "in"))
  (RSeq (RStar is_space)
        (RGroup 3 (rep3 is_alpha))))))).

(** The body of the loop of the extractors: [float] of the first group (a
    malformed literal raises [ValueError]) and [upper] of the two codes. *)
Definition conversion_of_match (m : text * text * text) : outcome conversion :=
  let '(amount, from_currency, to_currency) := m in
  match py_float amount with
  | Some a =>
      Ok (Conversion (PyFloat a) (to_str (upper from_currency)) (to_str (upper to_currency)))
  | None =>
      Raise (ValueError ("could not convert string to float: '" ++ to_str amount ++ "'"))
  end.

Fixpoint collect {A B : Type} (f : A -> outcome B) (l : list A) : outcome (list B) :=
  match l with
  | [] => Ok []
  | x :: l' =>
      obind (f x) (fun y => obind (collect f l') (fun ys => Ok (y :: ys)))
  end.

(** [LLMService._extract_conversions]. *)
Definition _extract_conversions (query : string) : outcome (list conversion) :=
  let matches := findall3 conversion_pattern (chars query) in
  collect conversion_of_match matches.

(** ** The network: calls, replies and the monad of the services *)

Record message : Type := Message {
  role : string;
  content : string
}.

(** The calls the program issues: the three [client.get] of
    [currency_service.py], named after their call sites and carrying the
    values the code puts into the URL and the parameters (see
    [rate_request]), and the [client.post] of [llm_service.py]. *)
Inductive net_call : Type :=
| GetLatest (amount : num) (source target : string)
| GetCurrencies
| GetDated (date source target : string)
| PostChat (messages : list message).

(** An HTTP response: its status, its text and what [response.json()]
    gives (the decoded body, or the decoder's exception). *)
Record response (B : Type) : Type := Response {
  status_code : nat;
  resp_text : string;
  json : outcome B
}.

Arguments Response {B} _ _ _.
Arguments status_code {B} _.
Arguments resp_text {B} _.
Arguments json {B} _.

Inductive http_reply (B : Type) : Type :=
| Unreachable (msg : string)      (* no response: timeout, connection refused *)
| Replied (r : response B).

Arguments Unreachable {B} msg.
Arguments Replied {B} r.

(** The JSON object of [/latest] and of [/{date}]: its [rates] and [date]
    members, when present. *)
Record rates_data : Type := RatesData {
  rates : option (list (string * num));
  date : option string
}.

Record rate_service : Type := RateService {
  latest : num -> string -> string -> http_reply rates_data;
  currencies : http_reply (list (string * string));
  dated : string -> string -> string -> http_reply rates_data
}.

Definition M (A : Type) : Type := list net_call -> outcome A * list net_call.

Definition ret {A : Type} (a : A) : M A := fun log => (Ok a, log).

Definition raise {A : Type} (e : exn) : M A := fun log => (Raise e, log).

Definition bind {A B : Type} (m : M A) (f : A -> M B) : M B :=
  fun log =>
    match m log with
    | (Ok a, log') => f a log'
    | (Raise e, log') => (Raise e, log')
    end.

Definition lift {A : Type} (o : outcome A) : M A := fun log => (o, log).

Notation "x <- m ;; k" := (bind m (fun x => k))
  (at level 61, m at next level, right associativity).
Notation "m ;;; k" := (bind m (fun _ => k))
  (at level 61, right associativity).

(** [response.raise_for_status()]: the exception carries the status and the
    text of the response; its message stands for the one httpx writes. *)
Definition status_error {B : Type} (r : response B) : exn :=
  HTTPStatusError (status_code r) (resp_text r)
    ("HTTP status " ++ to_str (str_int (Z.of_nat (status_code r)))).

Definition raise_for_status {B : Type} (r : response B) : M unit :=
  if (200 <=? status_code r) && (status_code r <? 300) then ret tt
  else raise (status_error r).

(** [await client.get(...)]: the call is logged, and a service that cannot be
    reached raises. *)
Definition http_get {B : Type} (c : net_call) (reply : http_reply B) : M (response B) :=
  fun log =>
    match reply with
    | Unreachable msg => (Raise (RequestError msg), log ++ [c])
    | Replied r => (Ok r, log ++ [c])
    end.

(** [except Exception]. *)
Definition any_exception (_ : exn) : bool := true.

(** [d[k]] on a decoded JSON object. *)
Fixpoint lookup {V : Type} (k : string) (d : list (string * V)) : option V :=
  match d with
  | [] => None
  | (k', v) :: d' => if String.eqb k k' then Some v else lookup k d'
  end.

Definition subscript {V : Type} (d : option (list (string * V))) (container k : string)
  : M V :=
  match d with
  | None => raise (KeyError container)
  | Some l =>
      match lookup k l with
      | Some v => ret v
      | None => raise (KeyError k)
      end
  end.

(** ** Calendar dates

    [datetime.strptime(s, "%Y-%m-%d")], with the regular expression the
    library builds for the format ([%Y]: four digits; [%m]:
    [1[0-2]|0[1-9]|[1-9]]; [%d]: [3[01]|[12]\d|0[1-9]|[1-9]| [1-9]]), the
    check that all of [s] is consumed and the check of the day against the
    month. *)

Definition ymd : Type := (nat * nat * nat)%type.

Definition chr (a : ascii) : regex := RClass (fun c => code_of c =? code_of a).

Definition range (lo hi : ascii) : regex :=
  RClass (in_range (code_of lo) (code_of hi)).

Definition month_re : regex :=
  RAlt (RSeq (chr "1") (range "0" "2"))
  (RAlt (RSeq (chr "0") (range "1" "9"))
        (range "1" "9")).

Definition day_re : regex :=
  RAlt (RSeq (chr "3") (range "0" "1"))
  (RAlt (RSeq (range "1" "2") (RClass is_digit))
  (RAlt (RSeq (chr "0") (range "1" "9"))
  (RAlt (range "1" "9")
        (RSeq (chr " ") (range "1" "9"))))).

Definition date_format_re : regex :=
  RSeq (RGroup 1 (RSeq (RClass is_digit) (rep3 is_digit)))
  (RSeq (chr "-")
  (RSeq (RGroup 2 month_re)
  (RSeq (chr "-")
        (RGroup 3 day_re)))).

Definition is_leap (y : nat) : bool :=
  ((y mod 4 =? 0) && negb (y mod 100 =? 0)) || (y mod 400 =? 0).

Definition days_in_month (y m : nat) : nat :=
  match m with
  | 2 => if is_leap y then 29 else 28
  | 4 | 6 | 9 | 11 => 30
  | _ => 31
  end.

Definition nat_of_digits (s : text) : nat :=
  Z.to_nat (digits_val (filter is_digit s)).

Definition strptime (s : string) : outcome ymd :=
  match match_at date_format_re (chars s) with
  | None =>
      Raise (ValueError ("time data '" ++ s ++ "' does not match format '%Y-%m-%d'"))
  | Some (n, caps) =>
      if n <? List.length (chars s) then
        Raise (ValueError ("unconverted data remains: " ++ to_str (skipn n (chars s))))
      else
        let y := nat_of_digits (caps 1) in
        let m := nat_of_digits (caps 2) in
        let d := nat_of_digits (caps 3) in
        if y =? 0 then Raise (ValueError "year 0 is out of range")
        else if days_in_month y m <? d
        then Raise (ValueError "day is out of range for month")
        else Ok (y, m, d)
  end.

(** [d1 > d2] on dates. *)
Definition date_gt (a b : ymd) : bool :=
  let '(y1, m1, d1) := a in
  let '(y2, m2, d2) := b in
  (y2 <? y1) || ((y1 =? y2) && ((m2 <? m1) || ((m1 =? m2) && (d2 <? d1)))).

Definition date_lt (d1 d2 : ymd) : bool := date_gt d2 d1.

Definition pad (width : nat) (s : text) : text :=
  repeat "0"%char (width - List.length s) ++ s.

(** [strftime("%Y-%m-%d")]. *)
Definition strftime (d : ymd) : string :=
  let '(y, m, d') := d in
  to_str (pad 4 (str_int (Z.of_nat y))) ++ "-" ++ to_str (pad 2 (str_int (Z.of_nat m)))
    ++ "-" ++ to_str (pad 2 (str_int (Z.of_nat d'))).


(** [sub in s]. *)
Definition contains (sub s : string) : bool :=
  match index 0 sub s with
  | Some _ => true
  | None => false
  end.

(** [try: m except c1: h1 except c2: h2 ...]: the first clause that names
    the exception handles it; what a handler raises is not handled by its
    sibling clauses. *)
Fixpoint select_handler {A : Type} (clauses : list ((exn -> bool) * (exn -> M A)))
  (e : exn) : M A :=
  match clauses with
  | [] => raise e
  | (handled, h) :: rest => if handled e then h e else select_handler rest e
  end.

Definition try_clauses {A : Type} (m : M A)
  (clauses : list ((exn -> bool) * (exn -> M A))) : M A :=
  fun log =>
    match m log with
    | (Ok a, log') => (Ok a, log')
    | (Raise e, log') => select_handler clauses e log'
    end.

Definition is_HTTPStatusError (e : exn) : bool :=
  match e with
  | HTTPStatusError _ _ _ => true
  | _ => false
  end.

(** ** The LLM service *)

(** The decoded [arguments] of a tool call: [json.loads] fails with the
    message [msg]; or gives a value that is not an object, whose subscript
    by a string raises a [TypeError] with the message [msg] (the wording
    depends on the type of the value); or gives an object.  The members of
    an object have the types the declared schema gives them (a number for
    [amount], strings for the others). *)
Inductive json_args : Type :=
| ArgsUndecodable (msg : string)
| ArgsNotObject (msg : string)
| ArgsObject (numbers : list (string * num)) (strings : list (string * string)).

(** A tool call of the reply.  [function_name] is what the subscripts
    [tool_call["function"]["name"]] give: the name, or the exception they
    raise when a member is missing. *)
Record tool_call : Type := ToolCall {
  function_name : outcome string;
  arguments : json_args
}.

(** A member of a JSON object that may be absent, [null] or a string. *)
Inductive json_text : Type :=
| Absent
| Null
| Text (s : string).

(** [data["choices"][0]["message"]]: its [content] and its [tool_calls]
    (absent, or a list). *)
Record llm_message : Type := LLMMessage {
  msg_content : json_text;
  tool_calls : option (list tool_call)
}.

(** The decoded body of a chat completion: the subscripts
    [["choices"][0]["message"]] raise, or give a message. *)
Definition chat_data : Type := outcome llm_message.

(** ** The world a request runs in: the two services and the calendar. *)
Record world : Type := World {
  rate_api : rate_service;
  chat_api : list message -> http_reply chat_data;
  today : ymd
}.

(** ** [CurrencyService] *)

Definition supported_currencies : list string :=
  ["USD"; "EUR"; "GBP"; "JPY"; "AUD"; "CAD"; "CHF"; "CNY"; "INR";
   "NZD"; "SGD"; "HKD"; "SEK"; "KRW"; "NOK"; "MXN"; "BRL"; "PLN"].

Definition mem (x : string) (l : list string) : bool := existsb (String.eqb x) l.

(** The dictionary a successful conversion returns. *)
Record conversion_result : Type := ConversionResult {
  res_amount : num;
  res_from_currency : string;
  res_to_currency : string;
  converted_amount : num;
  exchange_rate : num;
  res_date : string
}.

(** The magnitude from which an [int] no longer converts to a [float]: the
    midpoint of the largest [float] and [2^1024]. *)
Definition float_limit : Z := (2 ^ 1024 - 2 ^ 970)%Z.

(** [float(z)] raises [OverflowError]. *)
Definition int_overflows (n : num) : bool :=
  match n with
  | PyInt z => (float_limit <=? Z.abs z)%Z
  | PyFloat _ => false
  end.

(** What [a / b] raises, when it raises.  Two [int]s are divided as
    integers: the divisor is tested first, then the size of the quotient.
    Otherwise both operands are converted to [float] first, and the divisor
    is tested afterwards. *)
Definition division_error (a b : num) : option exn :=
  match a, b with
  | PyInt x, PyInt y =>
      if (y =? 0)%Z then Some (ZeroDivisionError "division by zero")
      else if (float_limit * Z.abs y <=? Z.abs x)%Z
           then Some (OverflowError "integer division result too large for a float")
           else None
  | _, _ =>
      if int_overflows a || int_overflows b
      then Some (OverflowError "int too large to convert to float")
      else if q_is_zero (num_value b)
           then Some (ZeroDivisionError "float division by zero")
           else None
  end.

(** [a / b]. *)
Definition divide (a b : num) : M num :=
  match division_error a b with
  | Some e => raise e
  | None => ret (PyFloat (Qred (num_value a / num_value b)))
  end.

Definition when (b : bool) (e : exn) : M unit :=
  if b then raise e else ret tt.

(** [CurrencyService.convert_currency]. *)
Definition convert_currency (w : world) (amount : num)
  (from_currency to_currency : string) : M conversion_result :=
  try_clauses
    (when (negb (mem from_currency supported_currencies))
       (ValueError ("Unsupported source currency: " ++ from_currency)) ;;;
     when (negb (mem to_currency supported_currencies))
       (ValueError ("Unsupported target currency: " ++ to_currency)) ;;;
     response <- http_get (GetLatest amount from_currency to_currency)
                   (latest (rate_api w) amount from_currency to_currency) ;;
     raise_for_status response ;;;
     data <- lift (json response) ;;
     rate <- subscript (rates data) "rates" to_currency ;;
     unit_rate <- divide rate amount ;;
     ret {| res_amount := amount;
            res_from_currency := from_currency;
            res_to_currency := to_currency;
            converted_amount := round_num rate 2;
            exchange_rate := round_num unit_rate 6;
            res_date := match date data with
                        | Some d => d
                        | None => strftime (today w)
                        end |})
    [ (is_ValueError, fun e => raise e);
      (any_exception,
       fun _ => raise (ValueError ("Error converting " ++ from_currency
                                     ++ " to " ++ to_currency))) ].

(** [CurrencyService.get_supported_currencies]. *)
Definition get_supported_currencies (w : world) : M (list (string * string)) :=
  try_clauses
    (response <- http_get GetCurrencies (currencies (rate_api w)) ;;
     raise_for_status response ;;;
     lift (json response))
    [ (any_exception,
       fun e => raise (PlainException
                         ("Failed to fetch supported currencies: " ++ str_exn e))) ].

(** The dictionary [get_historical_rate] returns. *)
Record historical_rate : Type := HistoricalRate {
  hist_date : string;
  hist_from_currency : string;
  hist_to_currency : string;
  hist_exchange_rate : num
}.

(** [CurrencyService.get_historical_rate]. *)
Definition get_historical_rate (w : world) (date_str from_currency to_currency : string)
  : M historical_rate :=
  let from_currency := to_str (upper (chars from_currency)) in
  let to_currency := to_str (upper (chars to_currency)) in
  try_clauses
    (try_clauses
       (parsed_date <- lift (strptime date_str) ;;
        when (date_gt parsed_date (today w))
          (ValueError "Cannot get exchange rates for future dates"))
       [ (is_ValueError,
          fun ve =>
            if contains "time data" (str_exn ve)
            then raise (ValueError "Invalid date format. Use YYYY-MM-DD")
            else raise ve) ] ;;;
     response <- http_get (GetDated date_str from_currency to_currency)
                   (dated (rate_api w) date_str from_currency to_currency) ;;
     raise_for_status response ;;;
     data <- lift (json response) ;;
     rates_obj <- match rates data with
                  | Some l => ret l
                  | None => raise (KeyError "rates")
                  end ;;
     exchange_rate <-
       match lookup to_currency rates_obj with
       | None => raise (ValueError
                          ("Exchange rate not available for " ++ from_currency
                             ++ " to " ++ to_currency ++ " on " ++ date_str))
       | Some v => ret v
       end ;;
     d <- match date data with
          | Some d => ret d
          | None => raise (KeyError "date")
          end ;;
     ret {| hist_date := d;
            hist_from_currency := from_currency;
            hist_to_currency := to_currency;
            hist_exchange_rate := exchange_rate |})
    [ (is_HTTPStatusError,
       fun e =>
         match e with
         | HTTPStatusError status body _ =>
             if status =? 400
             then raise (ValueError ("Invalid request: " ++ body))
             else raise (PlainException ("Historical rate service error: " ++ str_exn e))
         | _ => raise (PlainException ("Historical rate service error: " ++ str_exn e))
         end);
      (any_exception,
       fun e => raise (PlainException
                         ("Failed to fetch historical rate: " ++ str_exn e))) ].

(** The entries of the result lists: a conversion's dictionary, or one of
    the three dictionaries with an ["error"] member. *)
Inductive entry : Type :=
| Success (r : conversion_result)
| GatherError (error : string) (c : conversion)
| BatchError (error : string) (amount : num) (from_currency to_currency : string)
| ToolError (error : string) (function : string).

(** ["error" in result]. *)
Definition has_error (e : entry) : bool :=
  match e with
  | Success _ => false
  | _ => true
  end.

(** The names bound at the top of [currency_service.py]: its imports, its
    logger and its class. *)
Definition currency_service_globals : list string :=
  ["httpx"; "re"; "Dict"; "List"; "Tuple"; "logging"; "datetime"; "settings";
   "logger"; "CurrencyService"].

(** Reading a global name of a module. *)
Definition global_name (globals : list string) (name : string) : M unit :=
  if mem name globals then ret tt
  else raise (NameError ("name '" ++ name ++ "' is not defined")).

(** [asyncio.gather] of the tasks with [return_exceptions=True]: every task runs to its
    end, and the list holds, in the order of the tasks, the result or the
    exception of each. *)
Fixpoint gather {A : Type} (tasks : list (M A)) : M (list (outcome A)) :=
  match tasks with
  | [] => ret []
  | task :: rest =>
      fun log =>
        let '(o, log') := task log in
        (r <- gather rest ;; ret (o :: r)) log'
  end.

(** [CurrencyService.convert_multiple_currencies], in a module whose
    global names are [globals]. *)
Definition convert_multiple_currencies_in (globals : list string) (w : world)
  (conversions : list conversion) : M (list entry) :=
  try_clauses
    (let tasks :=
       map (fun c => convert_currency w (amount c) (from_currency c) (to_currency c))
         conversions in
     global_name globals "asyncio" ;;;
     results <- gather tasks ;;
     ret (map (fun '(result, c) =>
                 match result with
                 | Raise e => GatherError (str_exn e) c
                 | Ok r => Success r
                 end)
            (combine results conversions)))
    [ (any_exception,
       fun e => raise (PlainException
                         ("Multiple currency conversion failed: " ++ str_exn e))) ].

Definition convert_multiple_currencies : world -> list conversion -> M (list entry) :=
  convert_multiple_currencies_in currency_service_globals.

(** [str.split(sep)] and [str.strip()]. *)
Fixpoint is_prefix (p s : text) : bool :=
  match p, s with
  | [], _ => true
  | a :: p', b :: s' => (code_of a =? code_of b) && is_prefix p' s'
  | _ :: _, [] => false
  end.

Fixpoint split_go (sep : text) (skip : nat) (cur : text) (s : text) : list text :=
  match s with
  | [] => [rev cur]
  | c :: s' =>
      match skip with
      | S n => split_go sep n cur s'
      | O =>
          if is_prefix sep s
          then rev cur :: split_go sep (List.length sep - 1) [] s'
          else split_go sep 0 (c :: cur) s'
      end
  end.

Definition split (sep s : text) : list text := split_go sep 0 [] s.

Definition strip (s : text) : text :=
  rev (drop_while is_space (rev (drop_while is_space s))).

(** The pattern of [parse_conversion_query]:
    [(?:convert\s+)?(\d+(?:\.\d+)?)\s+(\w{3})\s+to\s+(\w{3})]. *)
Definition parse_pattern : regex :=
  RSeq (ROpt (RSeq (lit "convert") (plus is_space)))
  (RSeq (RGroup 1 number_re)
  (RSeq (plus is_space)
  (RSeq (RGroup 2 (rep3 is_word))
  (RSeq (plus is_space)
  (RSeq (lit "to")
  (RSeq (plus is_space)
        (RGroup 3 (rep3 is_word)))))))).

Definition parse_request (request : text) : outcome conversion :=
  match match_at parse_pattern (strip request) with
  | Some (_, caps) => conversion_of_match (caps 1, caps 2, caps 3)
  | None =>
      Raise (ValueError
               ("Invalid conversion format: '" ++ to_str request ++ "'. "
                  ++ "Use format: '100 USD to EUR' or '100 USD to EUR and 50 GBP to JPY'"))
  end.

(** [CurrencyService.parse_conversion_query]. *)
Definition parse_conversion_query (query : string) : outcome (list conversion) :=
  let conversion_requests := map strip (split (chars " and ") (chars query)) in
  obind (collect parse_request conversion_requests)
    (fun conversions =>
       match conversions with
       | [] => Raise (ValueError "No valid currency conversions found in query")
       | _ => Ok conversions
       end).

(** [CurrencyService.batch_convert_currencies]. *)
Fixpoint batch_convert_currencies (w : world) (conversions : list conversion)
  : M (list entry) :=
  match conversions with
  | [] => ret []
  | c :: rest =>
      item <- try_clauses
                (result <- convert_currency w (amount c) (from_currency c)
                             (to_currency c) ;;
                 ret (Success result))
                [ (any_exception,
                   fun e => ret (BatchError (str_exn e) (amount c) (from_currency c)
                                   (to_currency c))) ] ;;
      results <- batch_convert_currencies w rest ;;
      ret (item :: results)
  end.

(** ** [LLMService] *)

Definition nl : string := String (ascii_of_nat 10) EmptyString.

Fixpoint join (sep : string) (parts : list string) : string :=
  match parts with
  | [] => ""
  | [p] => p
  | p :: rest => p ++ sep ++ join sep rest
  end.

Definition str_nat (n : nat) : string := to_str (str_int (Z.of_nat n)).

Definition format_entry (i : nat) (result : entry) : string :=
  match result with
  | Success r =>
      "**Conversion " ++ str_nat i ++ ":**" ++ nl
      ++ "💰 " ++ str_num (res_amount r) ++ " " ++ res_from_currency r ++ " = "
      ++ "**" ++ str_num (converted_amount r) ++ " " ++ res_to_currency r ++ "**" ++ nl
      ++ "📊 Exchange Rate: 1 " ++ res_from_currency r ++ " = "
      ++ str_num (exchange_rate r) ++ " " ++ res_to_currency r ++ nl
      ++ "📅 Rate Date: " ++ res_date r ++ nl
  | GatherError error _ | BatchError error _ _ _ | ToolError error _ =>
      "**Conversion " ++ str_nat i ++ ":**" ++ nl
      ++ "❌ Error: " ++ error ++ nl
  end.

Fixpoint format_from (i : nat) (results : list entry) : list string :=
  match results with
  | [] => []
  | result :: rest => format_entry i result :: format_from (S i) rest
  end.

(** [LLMService._format_multiple_conversions_response]. *)
Definition _format_multiple_conversions_response (results : list entry) : string :=
  match results with
  | [] => "I couldn't process any conversions from your request."
  | _ => join nl (format_from 1 results)
  end.

Fixpoint insert_sorted (x : string * string) (l : list (string * string))
  : list (string * string) :=
  match l with
  | [] => [x]
  | y :: l' =>
      if String.ltb (fst y) (fst x)
         || (String.eqb (fst y) (fst x) && String.leb (snd y) (snd x))
      then y :: insert_sorted x l'
      else x :: l
  end.

(** [sorted(currencies.items())]. *)
Definition sorted_items (currencies : list (string * string)) : list (string * string) :=
  fold_right insert_sorted [] currencies.

(** [LLMService._format_supported_currencies]. *)
Definition _format_supported_currencies (currencies : list (string * string)) : string :=
  "Here are the supported currencies:" ++ nl ++ nl
  ++ join nl (map (fun item : string * string =>
                   ("• **" ++ fst item ++ "** - " ++ snd item)%string)
                (sorted_items currencies)).

(** [LLMService._format_historical_rate]. *)
Definition _format_historical_rate (rate_data : historical_rate) : string :=
  "**Historical Exchange Rate**" ++ nl
  ++ "📅 Date: " ++ hist_date rate_data ++ nl
  ++ "💱 1 " ++ hist_from_currency rate_data ++ " = "
  ++ str_num (hist_exchange_rate rate_data) ++ " " ++ hist_to_currency rate_data ++ nl.

(** [arguments[key]] on what [json.loads] gave. *)
Definition arg_number (a : json_args) (key : string) : M num :=
  match a with
  | ArgsUndecodable msg => raise (JSONDecodeError msg)
  | ArgsNotObject msg => raise (TypeError msg)
  | ArgsObject numbers _ =>
      match lookup key numbers with
      | Some v => ret v
      | None => raise (KeyError key)
      end
  end.

Definition arg_string (a : json_args) (key : string) : M string :=
  match a with
  | ArgsUndecodable msg => raise (JSONDecodeError msg)
  | ArgsNotObject msg => raise (TypeError msg)
  | ArgsObject _ strings =>
      match lookup key strings with
      | Some v => ret v
      | None => raise (KeyError key)
      end
  end.

(** [json.loads(tool_call["function"]["arguments"])]. *)
Definition json_loads (a : json_args) : M json_args :=
  match a with
  | ArgsUndecodable msg => raise (JSONDecodeError msg)
  | _ => ret a
  end.

(** What one turn of the loop of [_handle_tool_calls] does: it appends an
    entry to [results], or leaves [results] as it is, or returns from the
    function. *)
Inductive turn : Type :=
| Append (e : entry)
| Pass
| Return (response : string).

(** The body of the [try] of one turn from the second statement on, with
    its [except] clause, once the first statement has bound
    [function_name]. *)
Definition dispatch (w : world) (function_name : string) (tc : tool_call) : M turn :=
  try_clauses
    (arguments <- json_loads (arguments tc) ;;
     if String.eqb function_name "convert_currency" then
       amount <- arg_number arguments "amount" ;;
       from_currency <- arg_string arguments "from_currency" ;;
       to_currency <- arg_string arguments "to_currency" ;;
       result <- convert_currency w amount from_currency to_currency ;;
       ret (Append (Success result))
     else if String.eqb function_name "get_supported_currencies" then
       currencies <- get_supported_currencies w ;;
       ret (Return (_format_supported_currencies currencies))
     else if String.eqb function_name "get_historical_rate" then
       date_str <- arg_string arguments "date" ;;
       from_currency <- arg_string arguments "from_currency" ;;
       to_currency <- arg_string arguments "to_currency" ;;
       rate_data <- get_historical_rate w date_str from_currency to_currency ;;
       ret (Return (_format_historical_rate rate_data))
     else ret Pass)
    [ (any_exception, fun e => ret (Append (ToolError (str_exn e) function_name))) ].

(** The message of the [UnboundLocalError] of Python 3.11 for the local
    variable [function_name]. *)
Definition unbound_function_name : string :=
  "cannot access local variable 'function_name' where it is not associated with a value".

(** One turn of the loop.  [bound] is the local variable [function_name] as
    the earlier turns left it ([None]: no turn has bound it yet); the turn
    gives what it does to [results] and the variable after it.  The
    assignment [function_name = tool_call["function"]["name"]] is the first
    statement of the [try]: when its subscripts raise, the [except] clause
    reads the variable of the earlier turns, and with no earlier binding
    that read raises [UnboundLocalError] out of the function. *)
Definition tool_call_turn (w : world) (bound : option string) (tc : tool_call)
  : M (turn * option string) :=
  match function_name tc with
  | Ok name =>
      step <- dispatch w name tc ;;
      ret (step, Some name)
  | Raise e =>
      match bound with
      | Some earlier => ret (Append (ToolError (str_exn e) earlier), bound)
      | None => raise (UnboundLocalError unbound_function_name)
      end
  end.

Fixpoint tool_calls_loop (w : world) (bound : option string) (calls : list tool_call)
  (results : list entry) : M string :=
  match calls with
  | [] =>
      match results with
      | [] => ret "I couldn't execute the requested function calls."
      | _ => ret (_format_multiple_conversions_response results)
      end
  | tc :: rest =>
      step <- tool_call_turn w bound tc ;;
      match fst step with
      | Append e => tool_calls_loop w (snd step) rest (results ++ [e])
      | Pass => tool_calls_loop w (snd step) rest results
      | Return response => ret response
      end
  end.

(** [LLMService._handle_tool_calls]. *)
Definition _handle_tool_calls (w : world) (calls : list tool_call) : M string :=
  tool_calls_loop w None calls [].

(** A value a method returns where a [str] is expected: a string, or
    [None]. *)
Inductive py_text : Type :=
| PyStr (s : string)
| PyNone.

(** [SYSTEM_PROMPT] of [app/utils/function_schemas.py]. *)
Definition SYSTEM_PROMPT : string :=
  "You are a helpful currency conversion assistant. You can:

1. Convert currencies using real-time exchange rates
2. Handle multiple currency conversions in a single request
3. Provide information about supported currencies
4. Get historical exchange rates for specific dates

Always provide clear, accurate information about currency conversions. When multiple conversions are requested, process all of them and present the results clearly.

If a user asks about something unrelated to currency conversion, politely redirect them to currency-related topics.

Format your responses in a clear, user-friendly manner with:
- The original amount and currency
- The converted amount and target currency
- The exchange rate used
- The date of the exchange rate

For multiple conversions, present each conversion in a separate, clearly marked section.".

(** [history[-10:]]. *)
Definition last10 {A : Type} (l : list A) : list A := skipn (List.length l - 10) l.

Definition http_post {B : Type} (c : net_call) (reply : http_reply B) : M (response B) :=
  http_get c reply.

(** The messages [_process_with_llm] sends: the system prompt, the last ten
    messages of the history when there is one, and the query. *)
Definition chat_messages (query : string) (conversation_history : option (list message))
  : list message :=
  [Message "system" SYSTEM_PROMPT]
  ++ match conversation_history with
     | Some (m :: h) => last10 (m :: h)
     | _ => []
     end
  ++ [Message "user" query].

(** [LLMService._process_with_llm]. *)
Definition _process_with_llm (w : world) (query : string)
  (conversation_history : option (list message)) : M py_text :=
  try_clauses
    (let messages := chat_messages query conversation_history in
     response <- http_post (PostChat messages) (chat_api w messages) ;;
     raise_for_status response ;;;
     data <- lift (json response) ;;
     message <- lift data ;;
     match tool_calls message with
     | Some (tc :: calls) =>
         response_text <- _handle_tool_calls w (tc :: calls) ;;
         ret (PyStr response_text)
     | _ =>
         ret match msg_content message with
             | Absent => PyStr "I couldn't process your request."
             | Null => PyNone
             | Text s => PyStr s
             end
     end)
    [ (is_HTTPStatusError,
       fun _ => ret (PyStr "I'm having trouble connecting to the AI service. Please try again."));
      (any_exception,
       fun _ => ret (PyStr "I encountered an error processing your request. Please try again.")) ].

(** [LLMService.process_query], with [currency_service.py] a module whose
    global names are [globals]. *)
Definition process_query_in (globals : list string) (w : world) (query : string)
  (conversation_history : option (list message)) : M py_text :=
  try_clauses
    (conversions <- lift (_extract_conversions query) ;;
     if 1 <=? List.length conversions then
       results <- convert_multiple_currencies_in globals w conversions ;;
       let response := _format_multiple_conversions_response results in
       ret (PyStr response)
     else _process_with_llm w query conversation_history)
    [ (any_exception,
       fun e => ret (PyStr ("I apologize, but I encountered an error processing your request: "
                              ++ str_exn e))) ].

(** [LLMService.process_query] of the program. *)
Definition process_query : world -> string -> option (list message) -> M py_text :=
  process_query_in currency_service_globals.

(** ** [app/utils/validators.py] *)

(** [str.isalpha()], on ASCII text. *)
Definition isalpha (s : text) : bool :=
  negb (List.length s =? 0) && forallb is_alpha s.

(** [CurrencyValidator.validate_currency_code]. *)
Definition validate_currency_code (currency_code : string) : outcome string :=
  if String.eqb currency_code "" then
    Raise (ValidationError "Currency code cannot be empty")
  else
    let code := upper (strip (chars currency_code)) in
    if negb (List.length code =? 3) then
      Raise (ValidationError
               ("Currency code must be 3 characters long: " ++ to_str code))
    else if negb (isalpha code) then
      Raise (ValidationError
               ("Currency code must contain only letters: " ++ to_str code))
    else Ok (to_str code).

(** [1e12]. *)
Definition trillion : Q := (10 ^ 12 # 1)%Q.

(** [CurrencyValidator.validate_amount], on a number. *)
Definition validate_amount (amount : num) : outcome num :=
  if q_le (num_value amount) 0 then
    Raise (ValidationError ("Amount must be positive: " ++ str_num amount))
  else if q_lt trillion (num_value amount) then
    Raise (ValidationError ("Amount is too large: " ++ str_num amount))
  else Ok (PyFloat (num_value amount)).

(** [CurrencyValidator.validate_conversion_request]. *)
Definition validate_conversion_request (amount : num) (from_currency to_currency : string)
  : outcome conversion :=
  obind (validate_amount amount) (fun validated_amount =>
  obind (validate_currency_code from_currency) (fun validated_from =>
  obind (validate_currency_code to_currency) (fun validated_to =>
  Ok (Conversion validated_amount validated_from validated_to)))).

(** The pattern [^\d{4}-\d{2}-\d{2}$] of [DateValidator]; [$] also matches
    before a final newline. *)
Definition date_pattern : regex :=
  RSeq (RSeq (RClass is_digit) (rep3 is_digit))
  (RSeq (chr "-")
  (RSeq (RSeq (RClass is_digit) (RClass is_digit))
  (RSeq (chr "-")
        (RSeq (RClass is_digit) (RClass is_digit))))).

Definition at_end (s : text) : bool :=
  match s with
  | [] => true
  | [c] => code_of c =? 10
  | _ => false
  end.

Definition matches_date_pattern (s : text) : bool :=
  match match_at date_pattern s with
  | Some (n, _) => at_end (skipn n s)
  | None => false
  end.

(** The first day the rate service has data for. *)
Definition min_date : ymd := (1999, 1, 4).

(** [DateValidator.validate_date_string], on the day [today_is]. *)
Definition validate_date_string (today_is : ymd) (date_str : string) : outcome string :=
  if String.eqb date_str "" then Raise (ValidationError "Date cannot be empty")
  else if negb (matches_date_pattern (chars date_str)) then
    Raise (ValidationError ("Date must be in YYYY-MM-DD format: " ++ date_str))
  else
    match strptime date_str with
    | Raise e =>
        if is_ValueError e then
          if contains "time data" (str_exn e)
          then Raise (ValidationError ("Invalid date: " ++ date_str))
          else Raise (ValidationError ("Date validation error: " ++ str_exn e))
        else Raise e
    | Ok parsed_date =>
        if date_gt parsed_date today_is then
          Raise (ValidationError ("Date cannot be in the future: " ++ date_str))
        else if date_lt parsed_date min_date then
          Raise (ValidationError ("Date cannot be earlier than 1999-01-04: " ++ date_str))
        else Ok date_str
    end.

(** [ConversionExtractor.CONVERSION_PATTERNS]. *)
Definition separator_re : regex := RAlt (lit "to") (RAlt (lit "in") (lit "into")).

Definition name_re : regex :=
  RAlt (RSeq (lit "dollar") (ROpt (lit "s")))
  (RAlt (RSeq (lit "euro") (ROpt (lit "s")))
  (RAlt (RSeq (lit "pound") (ROpt (lit "s")))
        (lit "yen"))).

Definition code_pattern : regex :=
  RSeq (RGroup 1 number_re)
  (RSeq (RStar is_space)
  (RSeq (RGroup 2 (rep3 is_alpha))
  (RSeq (plus is_space)
  (RSeq separator_re
  (RSeq (plus is_space)
        (RGroup 3 (rep3 is_alpha))))))).

Definition verb_pattern : regex :=
  RSeq (RAlt (lit "convert") (lit "change"))
  (RSeq (plus is_space) code_pattern).

Definition name_pattern : regex :=
  RSeq (RGroup 1 number_re)
  (RSeq (RStar is_space)
  (RSeq (RGroup 2 name_re)
  (RSeq (plus is_space)
  (RSeq separator_re
  (RSeq (plus is_space)
        (RGroup 3 name_re)))))).

Definition CONVERSION_PATTERNS : list regex :=
  [code_pattern; verb_pattern; name_pattern].

Definition CURRENCY_NAME_MAP : list (string * string) :=
  [("dollar", "USD"); ("dollars", "USD"); ("euro", "EUR"); ("euros", "EUR");
   ("pound", "GBP"); ("pounds", "GBP"); ("yen", "JPY")].

(** [CURRENCY_NAME_MAP.get(curr.lower(), curr.upper())]. *)
Definition name_or_code (curr : text) : string :=
  match lookup (to_str (lower curr)) CURRENCY_NAME_MAP with
  | Some code => code
  | None => to_str (upper curr)
  end.

(** The body of the loop over the matches: [None] when the match is
    skipped. *)
Definition validated_match (m : text * text * text) : option conversion :=
  let '(amount_str, from_curr, to_curr) := m in
  match py_float amount_str with
  | None => None
  | Some a =>
      match validate_conversion_request (PyFloat a) (name_or_code from_curr)
              (name_or_code to_curr) with
      | Ok validated => Some validated
      | Raise _ => None   (* a ValidationError, which the except clause names *)
      end
  end.

Fixpoint filter_map {A B : Type} (f : A -> option B) (l : list A) : list B :=
  match l with
  | [] => []
  | x :: l' =>
      match f x with
      | Some y => y :: filter_map f l'
      | None => filter_map f l'
      end
  end.

(** Equality of the tuples [(amount, from, to)]. *)
Definition conversion_eqb (a b : conversion) : bool :=
  Qeq_bool (num_value (amount a)) (num_value (amount b))
  && String.eqb (from_currency a) (from_currency b)
  && String.eqb (to_currency a) (to_currency b).

Fixpoint unique (seen : list conversion) (l : list conversion) : list conversion :=
  match l with
  | [] => []
  | conv :: l' =>
      if existsb (conversion_eqb conv) seen then unique seen l'
      else conv :: unique (conv :: seen) l'
  end.

(** [ConversionExtractor.extract_conversions]. *)
Definition extract_conversions (txt : string) : list conversion :=
  let text_lower := lower (chars txt) in
  let conversions :=
    flat_map (fun pattern => filter_map validated_match (findall3 pattern text_lower))
      CONVERSION_PATTERNS in
  unique [] conversions.


(** ** Scenarios: rate services and LLM services to run the program against *)

Definition ok200 {B : Type} (b : B) : http_reply B := Replied (Response 200 "" (Ok b)).

Definition pair_eqb (a b : string * string) : bool :=
  String.eqb (fst a) (fst b) && String.eqb (snd a) (snd b).

Fixpoint unit_rate_of (table : list (string * string * Q)) (source target : string)
  : option Q :=
  match table with
  | [] => None
  | (s, t, r) :: table' =>
      if pair_eqb (s, t) (source, target) then Some r
      else unit_rate_of table' source target
  end.

(** A rate service that quotes from a table of unit rates on the day
    [day]: [/latest] and [/{date}] answer 200 with the amount times the unit
    rate for a pair of the table, and 404 otherwise. *)
Definition quote (table : list (string * string * Q)) (day : string) (amount : Q)
  (source target : string) : http_reply rates_data :=
  match unit_rate_of table source target with
  | Some r => ok200 (RatesData (Some [(target, PyFloat (Qred (amount * r)))]) (Some day))
  | None => Replied (Response 404 "not found" (Ok (RatesData None None)))
  end.

Definition table_service (table : list (string * string * Q)) (day : string)
  : rate_service :=
  {| latest := fun amount source target =>
       quote table day (num_value amount) source target;
     currencies := ok200 [("USD", "United States Dollar"); ("EUR", "Euro")];
     dated := fun date_str source target => quote table date_str 1 source target |}.

Definition offline_service : rate_service :=
  {| latest := fun _ _ _ => Unreachable "connection refused";
     currencies := Unreachable "connection refused";
     dated := fun _ _ _ => Unreachable "connection refused" |}.

Definition sample_rates : list (string * string * Q) :=
  [("USD", "EUR", 85 # 100); ("GBP", "EUR", 117 # 100); ("USD", "JPY", 150 # 1)].

Definition no_llm (_ : list message) : http_reply chat_data :=
  Unreachable "connection refused".

(** The LLM answers every request with status [code]. *)
Definition failing_llm (code : nat) (_ : list message) : http_reply chat_data :=
  Replied (Response code "error" (Raise (JSONDecodeError "Expecting value"))).

(** The LLM answers every request with one message. *)
Definition replying_llm (m : llm_message) (_ : list message) : http_reply chat_data :=
  ok200 (Ok m).

(** Rates quoted from [sample_rates] on 2024-01-15; no LLM. *)
Definition market_world : world :=
  {| rate_api := table_service sample_rates "2024-01-15";
     chat_api := no_llm;
     today := (2024, 1, 15) |}.

(** Neither service can be reached. *)
Definition offline_world : world :=
  {| rate_api := offline_service; chat_api := no_llm; today := (2024, 1, 15) |}.

(** The LLM replies with a message whose content is [null] and that asks
    for no tool call. *)
Definition null_content_world : world :=
  {| rate_api := table_service sample_rates "2024-01-15";
     chat_api := replying_llm (LLMMessage Null None);
     today := (2024, 1, 15) |}.

(** The LLM service answers 503. *)
Definition llm_down_world : world :=
  {| rate_api := table_service sample_rates "2024-01-15";
     chat_api := failing_llm 503;
     today := (2024, 1, 15) |}.

(** * Vocabulary of the properties *)

(** ** The rate client and the batch engines *)

(** The message of the exception [convert_multiple_currencies] raises. *)
Definition asyncio_error : string :=
  "Multiple currency conversion failed: name 'asyncio' is not defined".

(** Both codes are in the allow-list. *)
Definition supported_pair (from_currency to_currency : string) : bool :=
  mem from_currency supported_currencies && mem to_currency supported_currencies.

(** The exception of the last clause of [convert_currency]. *)
Definition generic_failure (from_currency to_currency : string) : exn :=
  ValueError ("Error converting " ++ from_currency ++ " to " ++ to_currency).

(** A status [raise_for_status] lets through. *)
Definition status_ok {B : Type} (r : response B) : bool :=
  (200 <=? status_code r) && (status_code r <? 300).

(** What a conversion returns or raises, read off the reply of the rate
    service. *)
Definition conversion_outcome (w : world) (amount : num)
  (from_currency to_currency : string) : outcome conversion_result :=
  if negb (mem from_currency supported_currencies) then
    Raise (ValueError ("Unsupported source currency: " ++ from_currency))
  else if negb (mem to_currency supported_currencies) then
    Raise (ValueError ("Unsupported target currency: " ++ to_currency))
  else
    match latest (rate_api w) amount from_currency to_currency with
    | Unreachable _ => Raise (generic_failure from_currency to_currency)
    | Replied r =>
        if negb (status_ok r) then Raise (generic_failure from_currency to_currency)
        else
          match json r with
          | Raise e =>
              if is_ValueError e then Raise e
              else Raise (generic_failure from_currency to_currency)
          | Ok data =>
              match rates data with
              | None => Raise (generic_failure from_currency to_currency)
              | Some table =>
                  match lookup to_currency table with
                  | None => Raise (generic_failure from_currency to_currency)
                  | Some rate =>
                      match division_error rate amount with
                      | Some _ => Raise (generic_failure from_currency to_currency)
                      | None =>
                        Ok {| res_amount := amount;
                              res_from_currency := from_currency;
                              res_to_currency := to_currency;
                              converted_amount := round_num rate 2;
                              exchange_rate :=
                                round_num
                                  (PyFloat (Qred (num_value rate / num_value amount))) 6;
                              res_date := match date data with
                                          | Some d => d
                                          | None => strftime (today w)
                                          end |}
                      end
                  end
              end
          end
    end.

(** Tactics: unfold the monad, reduce without unfolding the library
    functions, and split on a test. *)
Ltac unfold_monad :=
  unfold try_clauses, bind, when, raise, ret, lift, http_get, http_post,
    raise_for_status, subscript, divide, status_ok, generic_failure in *.

Ltac reduce :=
  cbn -[mem Nat.leb Nat.ltb String.append lookup q_is_zero division_error round_num strftime
        is_ValueError str_exn strptime date_gt contains upper chars to_str
        _handle_tool_calls chat_messages].

Ltac step x := destruct x eqn:?; reduce; try reflexivity.

(** The entry of one request in the sequential batch. *)
Definition entry_of (w : world) (c : conversion) : entry :=
  match conversion_outcome w (amount c) (from_currency c) (to_currency c) with
  | Ok r => Success r
  | Raise e => BatchError (str_exn e) (amount c) (from_currency c) (to_currency c)
  end.

(** The network calls of one request. *)
Definition calls_of (c : conversion) : list net_call :=
  if supported_pair (from_currency c) (to_currency c)
  then [GetLatest (amount c) (from_currency c) (to_currency c)]
  else [].

(** A batch of three requests whose second names a currency outside the
    allow-list. *)
Definition mixed_batch : list conversion :=
  [Conversion (PyFloat 100) "USD" "EUR";
   Conversion (PyFloat 1) "XXX" "EUR";
   Conversion (PyFloat 2) "GBP" "EUR"].

(** The entry of one request in the concurrent batch. *)
Definition gathered_entry_of (w : world) (c : conversion) : entry :=
  match conversion_outcome w (amount c) (from_currency c) (to_currency c) with
  | Ok r => Success r
  | Raise e => GatherError (str_exn e) c
  end.

(** ** Historical rates and tool calls *)

Definition upper_str (s : string) : string := to_str (upper (chars s)).

(** The three functions [_handle_tool_calls] dispatches. *)
Definition recognized (function_name : string) : bool :=
  mem function_name ["convert_currency"; "get_supported_currencies"; "get_historical_rate"].

(** The [required] members of the declared schemas
    ([app/utils/function_schemas.py]): the numbers and the strings a
    function needs. *)
Definition required_numbers (function_name : string) : list string :=
  if String.eqb function_name "convert_currency" then ["amount"] else [].

Definition required_strings (function_name : string) : list string :=
  if String.eqb function_name "convert_currency" then ["from_currency"; "to_currency"]
  else if String.eqb function_name "get_supported_currencies" then []
  else if String.eqb function_name "get_historical_rate"
  then ["date"; "from_currency"; "to_currency"]
  else [].

(** [k in d]. *)
Definition has_key {V : Type} (d : list (string * V)) (k : string) : bool :=
  match lookup k d with
  | Some _ => true
  | None => false
  end.

(** The arguments of a call of the function [function_name] are malformed
    when they do not decode, or when the function needs a member they do
    not have. *)
Definition malformed (function_name : string) (a : json_args) : bool :=
  match a with
  | ArgsUndecodable _ => true
  | ArgsNotObject _ =>
      negb (List.length (required_numbers function_name
                         ++ required_strings function_name) =? 0)
  | ArgsObject numbers strings =>
      negb (forallb (has_key numbers) (required_numbers function_name)
            && forallb (has_key strings) (required_strings function_name))
  end.

(** The two functions whose call returns from the loop. *)
Definition ends_loop (function_name : string) : bool :=
  String.eqb function_name "get_supported_currencies"
  || String.eqb function_name "get_historical_rate".

(** A call that cannot leave the loop: it carries a function name, and it
    is not a call of one of the two returning functions with arguments
    that let the function be called. *)
Definition stays_in_loop (tc : tool_call) : bool :=
  match function_name tc with
  | Ok name => negb (ends_loop name) || malformed name (arguments tc)
  | Raise _ => false
  end.

(** The request a call of [convert_currency] carries. *)
Definition call_conversion (a : json_args) : option conversion :=
  match a with
  | ArgsObject numbers strings =>
      match lookup "amount" numbers, lookup "from_currency" strings,
            lookup "to_currency" strings with
      | Some x, Some f, Some t => Some (Conversion x f t)
      | _, _, _ => None
      end
  | _ => None
  end.

(** The entry of a conversion asked for by a tool call. *)
Definition tool_entry_of (w : world) (function_name : string) (c : conversion) : entry :=
  match conversion_outcome w (amount c) (from_currency c) (to_currency c) with
  | Ok r => Success r
  | Raise e => ToolError (str_exn e) function_name
  end.

(** What a call that stays in the loop leaves in the results: one error
    entry when its arguments are malformed; otherwise the entry of its
    conversion for a call of [convert_currency], and nothing for a call of
    an unrecognized function. *)
Definition contributes (w : world) (tc : tool_call) (entries : list entry) : Prop :=
  match function_name tc with
  | Raise _ => False
  | Ok name =>
      if malformed name (arguments tc) then
        exists msg, entries = [ToolError msg name]
      else if String.eqb name "convert_currency" then
        exists c, call_conversion (arguments tc) = Some c
                  /\ entries = [tool_entry_of w name c]
      else entries = []
  end.

(** The requests a call that stays in the loop sends to the rate service. *)
Definition tool_requests (tc : tool_call) : list net_call :=
  match function_name tc with
  | Ok name =>
      if String.eqb name "convert_currency" then
        match call_conversion (arguments tc) with
        | Some c => calls_of c
        | None => []
        end
      else []
  | Raise _ => []
  end.

(** The text [_handle_tool_calls] makes of the results at the end of the
    loop. *)
Definition aggregate (results : list entry) : string :=
  match results with
  | [] => "I couldn't execute the requested function calls."
  | _ => _format_multiple_conversions_response results
  end.

Ltac reduce_turn :=
  cbn -[mem String.append lookup convert_currency get_supported_currencies
        get_historical_rate _format_supported_currencies _format_historical_rate
        String.eqb].

(** Three tool calls: an unrecognized function, arguments that do not
    decode, and a conversion of 100 USD into EUR. *)
Definition weather_call : tool_call :=
  ToolCall (Ok "get_weather") (ArgsObject [] [("city", "Paris")]).

Definition undecodable_call : tool_call :=
  ToolCall (Ok "convert_currency") (ArgsUndecodable "Expecting value: line 1 column 1 (char 0)").

Definition usd_eur_call : tool_call :=
  ToolCall (Ok "convert_currency")
    (ArgsObject [("amount", PyInt 100)] [("from_currency", "USD"); ("to_currency", "EUR")]).

(** Two more: a call of [get_supported_currencies], and a call without the
    member [function]. *)
Definition listing_call : tool_call :=
  ToolCall (Ok "get_supported_currencies") (ArgsObject [] []).

Definition nameless_call : tool_call :=
  ToolCall (Raise (KeyError "function")) (ArgsObject [] []).

(** ** The orchestrator *)

(** The two fixed texts of [_process_with_llm]. *)
Definition connectivity_text : string :=
  "I'm having trouble connecting to the AI service. Please try again.".

Definition generic_text : string :=
  "I encountered an error processing your request. Please try again.".

(** The LLM call fails: no response, a status outside 2xx, a body that does
    not decode, or a body without [choices[0].message]. *)
Definition llm_call_fails (w : world) (messages : list message) : bool :=
  match chat_api w messages with
  | Unreachable _ => true
  | Replied r =>
      negb (status_ok r)
      || match json r with
         | Ok (Ok _) => false
         | _ => true
         end
  end.

(** ** First matches of the backtracking matcher

    [accepts r xs rest caps caps'] says that on the text [xs ++ rest] the
    first path the matcher finds for [r] consumes exactly [xs] and leaves
    the captures [caps'], provided the rest of the pattern then succeeds. *)
Definition accepts (r : regex) (xs rest : text) (caps caps' : captures) : Prop :=
  forall (A : Type) (k : text -> captures -> option A) (a : A),
    k rest caps' = Some a -> rmatch r (xs ++ rest) caps k = Some a.

(** [r] matches nowhere at the head of [s]. *)
Definition rejects (r : regex) (s : text) : Prop :=
  forall (A : Type) (caps : captures) (k : text -> captures -> option A),
    rmatch r s caps k = None.

(** [s] does not begin with a character of the class [c]. *)
Definition head_not (c : ascii -> bool) (s : text) : bool :=
  match s with
  | [] => true
  | x :: _ => negb (c x)
  end.

(** [s] holds no digit. *)
Definition no_digit (s : text) : bool := forallb (fun c => negb (is_digit c)) s.

(** ** Conversion phrases

    A phrase [<number> <code> <sep> <code>]: the digits of the amount before
    and after the point ([p_frac] is empty when there is no point), the two
    codes, the separator and the whitespace between the words. *)
Record phrase : Type := Phrase {
  p_int : text;
  p_frac : text;
  p_ws1 : text;
  p_source : text;
  p_ws2 : text;
  p_sep : text;
  p_ws3 : text;
  p_target : text
}.

(** The text of a phrase. *)
Definition number_text (p : phrase) : text :=
  p_int p ++ match p_frac p with
             | [] => []
             | _ => "."%char :: p_frac p
             end.

Definition render (p : phrase) : text :=
  number_text p ++ p_ws1 p ++ p_source p ++ p_ws2 p ++ p_sep p ++ p_ws3 p ++ p_target p.

(** Three letters. *)
Definition is_code (s : text) : bool := (List.length s =? 3) && forallb is_alpha s.

(** The separators [to] and [in], in any letter case. *)
Definition is_to (s : text) : bool :=
  match s with
  | [x; y] => is_char_ci "t" x && is_char_ci "o" y
  | _ => false
  end.

Definition is_in (s : text) : bool :=
  match s with
  | [x; y] => is_char_ci "i" x && is_char_ci "n" y
  | _ => false
  end.

(** The separator [into], in any letter case. *)
Definition is_into (s : text) : bool :=
  match s with
  | [x; y; z; u] =>
      is_char_ci "i" x && is_char_ci "n" y && is_char_ci "t" z && is_char_ci "o" u
  | _ => false
  end.

(** A phrase of the shape above whose separator is [to] or [in]. *)
Definition well_formed (p : phrase) : bool :=
  negb (List.length (p_int p) =? 0) && forallb is_digit (p_int p)
  && forallb is_digit (p_frac p)
  && forallb is_space (p_ws1 p) && forallb is_space (p_ws2 p)
  && forallb is_space (p_ws3 p)
  && is_code (p_source p) && is_code (p_target p)
  && (is_to (p_sep p) || is_in (p_sep p)).

(** The request a phrase denotes. *)
Definition request_of (p : phrase) : conversion :=
  Conversion (PyFloat (decimal_value (p_int p) (p_frac p)))
    (to_str (upper (p_source p))) (to_str (upper (p_target p))).

(** A text of phrases: each phrase after a filler, and a tail. *)
Fixpoint text_of (items : list (text * phrase)) (tail : text) : text :=
  match items with
  | [] => tail
  | (filler, p) :: items' => filler ++ render p ++ text_of items' tail
  end.

(** Tactic: decide a fact about one character by cases on its bits. *)
Ltac ascii_cases x :=
  destruct x as [[|] [|] [|] [|] [|] [|] [|] [|]]; vm_compute;
  intros; try reflexivity; try discriminate.

(** The captures of the match of a phrase. *)
Definition captures_of (p : phrase) : captures :=
  set_capture 3 (p_target p)
    (set_capture 2 (p_source p)
       (set_capture 1 (number_text p) no_captures)).

(** An ASCII filler without digits and a well-formed phrase. *)
Definition item_ok (item : text * phrase) : bool :=
  forallb is_ascii (fst item) && no_digit (fst item) && well_formed (snd item).

(** The phrases "100 USD into EUR", "100 USD to EUR" and
    "50.5 gbp IN jpy". *)
Definition usd_into_eur : phrase :=
  {| p_int := chars "100"; p_frac := [];
     p_ws1 := chars " "; p_source := chars "USD";
     p_ws2 := chars " "; p_sep := chars "into";
     p_ws3 := chars " "; p_target := chars "EUR" |}.

Definition usd_to_eur : phrase :=
  {| p_int := chars "100"; p_frac := [];
     p_ws1 := chars " "; p_source := chars "USD";
     p_ws2 := chars " "; p_sep := chars "to";
     p_ws3 := chars " "; p_target := chars "EUR" |}.

Definition gbp_in_jpy : phrase :=
  {| p_int := chars "50"; p_frac := chars "5";
     p_ws1 := chars " "; p_source := chars "gbp";
     p_ws2 := chars " "; p_sep := chars "IN";
     p_ws3 := chars " "; p_target := chars "jpy" |}.

(** The group [i] does not occur in [r]. *)
Fixpoint group_free (i : nat) (r : regex) : bool :=
  match r with
  | RGroup j r1 => negb (j =? i) && group_free i r1
  | RSeq r1 r2 | RAlt r1 r2 => group_free i r1 && group_free i r2
  | ROpt r1 => group_free i r1
  | _ => true
  end.

(** * The rest of the backend *)

(** ** [ConversationService] ([app/services/conversation_service.py]) *)

(** The dictionary [self.conversations]: session id to list of messages. *)
Definition conversations : Type := list (string * list message).

(** [d[k] = v]. *)
Fixpoint assign {V : Type} (k : string) (v : V) (d : list (string * V))
  : list (string * V) :=
  match d with
  | [] => [(k, v)]
  | (k', v') :: d' =>
      if String.eqb k k' then (k, v) :: d' else (k', v') :: assign k v d'
  end.

(** [ConversationService.get_conversation]: the list of the session, and
    the dictionary, in which an unseen session now has an empty list. *)
Definition get_conversation (self : conversations) (session_id : string)
  : list message * conversations :=
  match lookup session_id self with
  | Some l => (l, self)
  | None => ([], assign session_id [] self)
  end.

(** [ConversationService.add_message]. *)
Definition add_message (self : conversations) (session_id : string) (m : message)
  : conversations :=
  match lookup session_id self with
  | Some l => assign session_id (l ++ [m]) self
  | None => assign session_id ([] ++ [m]) (assign session_id [] self)
  end.

(** [ConversationService.clear_conversation]. *)
Definition clear_conversation (self : conversations) (session_id : string)
  : conversations :=
  assign session_id [] self.

(** ** The chat endpoint ([app/main.py]) *)

(** [f"{x:.nf}"]: [x] rounded to [n] decimals (ties to even), with exactly
    [n] digits after the point. *)
Definition format_fixed (n : nat) (x : num) : string :=
  let v := num_value x in
  let rounded := py_round (Z.abs (Qnum v) # Qden v) n in
  let scaled := (Qnum rounded * Zpos (pow10 n) / Zpos (Qden rounded))%Z in
  let ip := (scaled / Zpos (pow10 n))%Z in
  let fp := (scaled mod Zpos (pow10 n))%Z in
  to_str ((if (Qnum v <? 0)%Z then ["-"%char] else [])
          ++ str_int ip
          ++ match n with
             | O => []
             | S _ => "."%char :: pad n (str_int fp)
             end).

(** The two lists of lines the endpoint builds from the results. *)
Definition conversion_line (result : entry) : string :=
  match result with
  | Success r =>
      str_num (res_amount r) ++ " " ++ res_from_currency r ++ " = "
      ++ format_fixed 2 (converted_amount r) ++ " " ++ res_to_currency r
  | GatherError error _ | BatchError error _ _ _ | ToolError error _ =>
      "❌ " ++ error
  end.

Definition rate_lines (results : list entry) : list string :=
  flat_map (fun result =>
              match result with
              | Success r =>
                  ["1 " ++ res_from_currency r ++ " = "
                   ++ format_fixed 4 (exchange_rate r) ++ " " ++ res_to_currency r]%string
              | _ => []
              end) results.

Definition endpoint_text (timestamp : string) (results : list entry) : string :=
  join nl ["🕒 " ++ timestamp; "";
           join nl (map conversion_line results); "";
           "Exchange Rates:";
           join nl (rate_lines results)]%string.

(** The inner [try] of [chat_completion]: the text of the response for a
    message, at the time [timestamp] ([%H:%M:%S]). *)
Definition response_text_for (w : world) (timestamp : string) (message_text : string)
  : M string :=
  try_clauses
    (conversions <- lift (parse_conversion_query message_text) ;;
     results <- batch_convert_currencies w conversions ;;
     ret (endpoint_text timestamp results))
    [ (is_ValueError, fun e => ret ("❌ " ++ str_exn e)%string);
      (any_exception,
       fun _ => ret "❌ Sorry, I encountered an error processing your request.") ].

(** The response of the endpoint. *)
Record chat_response : Type := ChatResponse {
  response_text : string;
  response_session_id : string
}.

(** The text of the error pydantic raises when a [ChatResponse] is built
    with a [session_id] that is not a string; the wording is the library's,
    and this text stands for it. *)
Definition session_id_error : string :=
  "1 validation error for ChatResponse" ++ nl
  ++ "session_id" ++ nl
  ++ "  Input should be a valid string".

(** [ChatResponse(response=..., session_id=...)]: the model declares
    [session_id: str], while the request declares [Optional[str]]; the
    error of pydantic is a [ValueError]. *)
Definition new_ChatResponse (text : string) (session_id : option string)
  : outcome chat_response :=
  match session_id with
  | Some s => Ok (ChatResponse text s)
  | None => Raise (ValueError session_id_error)
  end.

(** [chat_completion], with the conversation store before the call: the
    response or the exception, the store after the call, and the log.  The
    two [add_message] come after the response is built and do not raise, so
    the store only changes when the outer [try] reaches them. *)
Definition chat_completion (w : world) (timestamp : string) (store : conversations)
  (message_text : string) (session_id : option string)
  : list net_call -> outcome chat_response * conversations * list net_call :=
  fun log =>
    let '(built, log') :=
      try_clauses
        (text <- response_text_for w timestamp message_text ;;
         response <- lift (new_ChatResponse text session_id) ;;
         ret response)
        [ (any_exception,
           fun e => raise (HTTPException 500 ("Internal server error: " ++ str_exn e))) ]
        log in
    match built with
    | Ok response =>
        let store1 :=
          add_message store (response_session_id response)
            (Message "user" message_text) in
        let store2 :=
          add_message store1 (response_session_id response)
            (Message "assistant" (response_text response)) in
        (Ok response, store2, log')
    | Raise e => (Raise e, store, log')
    end.

(** ** [QueryValidator] and [has_currency_context] ([app/utils/validators.py]) *)

(** [[a-zA-Z0-9\-_]]. *)
Definition is_session_char (c : ascii) : bool :=
  is_alpha c || is_digit c || (code_of c =? 45) || (code_of c =? 95).

(** [re.match(r'^[a-zA-Z0-9\-_]+$', s)]: the longest run of characters of
    the class is not empty and ends at the end of [s], or before a final
    newline. *)
Definition matches_session_pattern (s : text) : bool :=
  negb (List.length (take_while is_session_char s) =? 0)
  && at_end (drop_while is_session_char s).

(** [QueryValidator.validate_session_id]. *)
Definition validate_session_id (session_id : string) : outcome string :=
  if String.eqb session_id "" then Raise (ValidationError "Session ID cannot be empty")
  else
    let session_id := strip (chars session_id) in
    if (List.length session_id <? 10) || (100 <? List.length session_id) then
      Raise (ValidationError
               ("Session ID length must be between 10 and 100 characters: "
                ++ str_nat (List.length session_id)))
    else if negb (matches_session_pattern session_id) then
      Raise (ValidationError
               ("Session ID contains invalid characters: " ++ to_str session_id))
    else Ok (to_str session_id).

(** The patterns of [validate_user_message]; none has a character that is
    special in a regular expression, so [re.search] looks for the text
    itself. *)
Definition suspicious_patterns : list string :=
  ["<script"; "javascript:"; "data:text/html"; "vbscript:"].

Definition lower_str (s : string) : string := to_str (lower (chars s)).

(** [QueryValidator.validate_user_message]. *)
Definition validate_user_message (message_text : string) : outcome string :=
  if String.eqb message_text "" then Raise (ValidationError "Message cannot be empty")
  else
    let message_text := strip (chars message_text) in
    if List.length message_text =? 0 then
      Raise (ValidationError "Message cannot be only whitespace")
    else if 1000 <? List.length message_text then
      Raise (ValidationError
               ("Message is too long (max 1000 characters): "
                ++ str_nat (List.length message_text)))
    else
      let message_lower := to_str (lower message_text) in
      if existsb (fun pattern => contains pattern message_lower) suspicious_patterns
      then Raise (ValidationError "Message contains potentially malicious content")
      else Ok (to_str message_text).

Definition currency_keywords : list string :=
  ["convert"; "conversion"; "exchange"; "rate"; "currency"; "money";
   "dollar"; "euro"; "pound"; "yen"; "usd"; "eur"; "gbp"; "jpy"].

(** [ConversionExtractor.has_currency_context]. *)
Definition has_currency_context (txt : string) : bool :=
  let text_lower := lower_str txt in
  existsb (fun keyword => contains keyword text_lower) currency_keywords.

(** ** Further scenarios *)

(** A rate service that answers every dated request with 400. *)
Definition bad_request_world : world :=
  {| rate_api :=
       {| latest := fun _ _ _ => Unreachable "connection refused";
          currencies := Unreachable "connection refused";
          dated := fun _ _ _ =>
            Replied (Response 400 "invalid date" (Raise (JSONDecodeError "Expecting value"))) |};
     chat_api := no_llm;
     today := (2024, 1, 15) |}.

(** ** Vocabulary of the further properties *)

(** The separator of [parse_conversion_query]. *)
Definition and_sep : text := chars " and ".

(** No occurrence of the separator starts inside [p] when [follow] comes
    after it. *)
Fixpoint no_sep_in (p follow : text) : bool :=
  match p with
  | [] => true
  | c :: p' => negb (is_prefix and_sep (c :: p' ++ follow)) && no_sep_in p' follow
  end.

(** [sep.join(parts)]. *)
Fixpoint join_text (sep : text) (parts : list text) : text :=
  match parts with
  | [] => []
  | [p] => p
  | p :: rest => p ++ sep ++ join_text sep rest
  end.

(** [a] and [x] are the same text up to letter case. *)
Fixpoint matches_ci (a x : text) : bool :=
  match a, x with
  | [], [] => true
  | c :: a', y :: x' => is_char_ci c y && matches_ci a' x'
  | _, _ => false
  end.

(** One part of a query of the chat endpoint: whitespace, an optional verb
    [convert] with the whitespace after it, a phrase, whitespace. *)
Record request_text : Type := RequestText {
  rq_lead : text;
  rq_verb : text;
  rq_verb_ws : text;
  rq_phrase : phrase;
  rq_trail : text
}.

Definition request_core (r : request_text) : text :=
  rq_verb r ++ rq_verb_ws r ++ render (rq_phrase r).

Definition part_text (r : request_text) : text :=
  rq_lead r ++ request_core r ++ rq_trail r.

Definition spaces (s : text) : bool := forallb is_space s.

Definition some_spaces (s : text) : bool :=
  negb (List.length s =? 0) && forallb is_space s.

Definition is_word_code (s : text) : bool := (List.length s =? 3) && forallb is_word s.

(** A phrase the parser's pattern asks for: whitespace between all the
    words, the separator [to], codes of three word characters. *)
Definition strict_phrase (p : phrase) : bool :=
  negb (List.length (p_int p) =? 0) && forallb is_digit (p_int p)
  && forallb is_digit (p_frac p)
  && some_spaces (p_ws1 p) && some_spaces (p_ws2 p) && some_spaces (p_ws3 p)
  && is_word_code (p_source p) && is_word_code (p_target p)
  && is_to (p_sep p).

Definition verb_ok (r : request_text) : bool :=
  match rq_verb r with
  | [] => List.length (rq_verb_ws r) =? 0
  | _ => matches_ci (chars "convert") (rq_verb r) && some_spaces (rq_verb_ws r)
  end.

(** A well-formed part that holds no separator, even with the one that
    follows it. *)
Definition request_ok (r : request_text) : bool :=
  spaces (rq_lead r) && spaces (rq_trail r) && verb_ok r
  && strict_phrase (rq_phrase r)
  && no_sep_in (part_text r) (chars " and").

(** Three upper-case letters. *)
Definition upper_code (s : string) : Prop :=
  exists a b c,
    s = to_str [a; b; c]
    /\ in_range 65 90 a = true /\ in_range 65 90 b = true /\ in_range 65 90 c = true.

(** A request [ConversionExtractor] may return: a float amount above 0 and
    at most [1e12], and two codes of three upper-case letters. *)
Definition valid_conversion (c : conversion) : Prop :=
  exists v,
    amount c = PyFloat v /\ (0 < v)%Q /\ (v <= trillion)%Q
    /\ upper_code (from_currency c) /\ upper_code (to_currency c).

(** The order of [sorted] on the items of a dictionary: by key, then by
    value. *)
Definition item_le (a b : string * string) : bool :=
  String.ltb (fst a) (fst b)
  || (String.eqb (fst a) (fst b) && String.leb (snd a) (snd b)).

(** The label of the section of the result number [i]. *)
Definition section_label (i : nat) : string :=
  "**Conversion " ++ str_nat i ++ ":**" ++ nl.

(** A call to the rate service. *)
Definition is_rate_call (c : net_call) : bool :=
  match c with
  | PostChat _ => false
  | _ => true
  end.

(** The computation [m] only adds calls to the rate service to the log. *)
Definition calls_rates_only {A : Type} (m : M A) : Prop :=
  forall log, exists calls,
    snd (m log) = log ++ calls /\ forallb is_rate_call calls = true.

(** The hint that ends the error of [parse_conversion_query]. *)
Definition format_hint : string :=
  "Use format: '100 USD to EUR' or '100 USD to EUR and 50 GBP to JPY'".

Ltac split_andb :=
  repeat match goal with
         | H : _ && _ = true |- _ => apply andb_prop in H; destruct H
         end.

(** Two parts of a query: a verb and a plain phrase, and a padded phrase in
    lower case with a fraction. *)
Definition convert_100_usd : request_text :=
  {| rq_lead := []; rq_verb := chars "Convert"; rq_verb_ws := chars " ";
     rq_phrase := usd_to_eur; rq_trail := [] |}.

Definition gbp_to_jpy_padded : request_text :=
  {| rq_lead := chars " "; rq_verb := []; rq_verb_ws := [];
     rq_phrase := {| p_int := chars "50"; p_frac := chars "5";
                     p_ws1 := chars " "; p_source := chars "gbp";
                     p_ws2 := chars "  "; p_sep := chars "TO";
                     p_ws3 := chars " "; p_target := chars "jpy" |};
     rq_trail := chars " " |}.

(** An upper-case letter. *)
Definition is_upper (c : ascii) : bool := in_range 65 90 c.

(** ** The requests behind the calls to the rate service

    What the three call sites of [currency_service.py] hand to [client.get]:
    the URL built from the base URL of the service object, and the [params]
    dictionary.  How the HTTP client joins the two is its own business. *)

Inductive param : Type :=
| ParamNum (n : num)
| ParamStr (s : string).

Record get_request : Type := GetRequest {
  url : string;
  params : list (string * param)
}.

Definition rate_request (base_url : string) (c : net_call) : option get_request :=
  match c with
  | GetLatest amount from_currency to_currency =>
      Some {| url := base_url ++ "/latest";
              params := [("amount", ParamNum amount);
                         ("from", ParamStr from_currency);
                         ("to", ParamStr to_currency)] |}
  | GetCurrencies =>
      Some {| url := base_url ++ "/currencies"; params := [] |}
  | GetDated date_str from_currency to_currency =>
      Some {| url := base_url ++ "/" ++ date_str;
              params := [("from", ParamStr from_currency);
                         ("to", ParamStr to_currency)] |}
  | PostChat _ => None
  end.

(** The default of [settings.FRANKFURTER_BASE_URL], which [CurrencyService]
    takes as its base URL when it is built without one. *)
Definition FRANKFURTER_BASE_URL : string :=
  "https://api.frankfurter.app/latest?amount=100&from=USD&to=EUR".

(** The lines of the answer of the endpoint, with the printed numbers left
    open: the line of a result, and the line of its rate. *)
Definition is_conversion_line (result : entry) (line : string) : Prop :=
  match result with
  | Success r =>
      exists printed_amount printed_value,
        line = (printed_amount ++ " " ++ res_from_currency r ++ " = "
                ++ printed_value ++ " " ++ res_to_currency r)%string
  | GatherError error _ | BatchError error _ _ _ | ToolError error _ =>
      line = ("❌ " ++ error)%string
  end.

Definition is_rate_line (result : entry) (line : string) : Prop :=
  match result with
  | Success r =>
      exists printed_rate,
        line = ("1 " ++ res_from_currency r ++ " = "
                ++ printed_rate ++ " " ++ res_to_currency r)%string
  | _ => False
  end.

(** ** The texts a pattern matches

    The texts [r] can consume, whatever the order in which the matcher
    tries them. *)
Fixpoint lang (r : regex) (xs : text) : Prop :=
  match r with
  | REmpty => xs = []
  | RClass c => exists x, xs = [x] /\ c x = true
  | RSeq r1 r2 => exists a b, xs = a ++ b /\ lang r1 a /\ lang r2 b
  | RAlt r1 r2 => lang r1 xs \/ lang r2 xs
  | RStar c => forallb c xs = true
  | ROpt r1 => lang r1 xs \/ xs = []
  | RGroup _ r1 => lang r1 xs
  end.

(** No part of the text is a phrase [<number> <code> <sep> <code>] with
    [sep] one of [to] and [in]. *)
Definition no_phrase (s : text) : Prop :=
  forall before p after,
    well_formed p = true -> s <> before ++ render p ++ after.

(** * Properties *)

(** ** The orchestrator's fast path *)

(** [currency_service.py] does not bind [asyncio]: whatever the batch,
    [convert_multiple_currencies] raises before any task runs and issues no
    network call. *)
Lemma convert_multiple_currencies_name_error :
  forall (w : world) (conversions : list conversion) (log : list net_call),
    convert_multiple_currencies w conversions log
    = (Raise (PlainException asyncio_error), log).
Proof.
  intros w conversions log. reflexivity.
Qed.

(** In a module that binds [asyncio], the fast path answers the scenario of
    the specification with the formatted conversion. *)
Example fast_path_with_asyncio_bound :
  process_query_in ("asyncio" :: currency_service_globals) market_world
    "Convert 100 USD to EUR" None []
  = (Ok (PyStr ("**Conversion 1:**" ++ nl
                ++ "💰 100.0 USD = **85.0 EUR**" ++ nl
                ++ "📊 Exchange Rate: 1 USD = 0.85 EUR" ++ nl
                ++ "📅 Rate Date: 2024-01-15" ++ nl)),
     [GetLatest (PyFloat 100) "USD" "EUR"]).
Proof. vm_compute. reflexivity. Qed.

(** C1 (the code at the failing input).  For the query
    "Convert 100 USD to EUR" and a rate service that answers 85.0 EUR for
    100 USD, [process_query] returns the apology text that wraps the
    [NameError] of [convert_multiple_currencies], and the rate service is
    never called: the text holds neither "85.00 EUR" nor a rate line. *)
Theorem process_query_convert_100_usd_to_eur :
  latest (rate_api market_world) (PyFloat 100) "USD" "EUR"
  = ok200 (RatesData (Some [("EUR", PyFloat 85)]) (Some "2024-01-15"))
  /\ process_query market_world "Convert 100 USD to EUR" None []
     = (Ok (PyStr ("I apologize, but I encountered an error processing your request: "
                   ++ asyncio_error)),
        []).
Proof. split; vm_compute; reflexivity. Qed.

(** ** The rate client *)

(** A division raises [ZeroDivisionError] or [OverflowError], neither of
    them a [ValueError]. *)
Lemma division_error_not_value_error :
  forall a b e, division_error a b = Some e -> is_ValueError e = false.
Proof.
  intros a b e. unfold division_error.
  destruct a, b;
    repeat match goal with
           | |- context [if ?c then _ else _] => destruct c
           end;
    intro H; try discriminate; now injection H as <-.
Qed.

(** [convert_currency] returns [conversion_outcome], and its network calls
    are one [GET /latest] when both codes are in the allow-list and none
    otherwise: the amount plays no part in whether the service is called. *)
Lemma convert_currency_run :
  forall w amount from_currency to_currency log,
    convert_currency w amount from_currency to_currency log
    = (conversion_outcome w amount from_currency to_currency,
       if supported_pair from_currency to_currency
       then log ++ [GetLatest amount from_currency to_currency]
       else log).
Proof.
  intros w amount f t0 log.
  unfold convert_currency, conversion_outcome, supported_pair. unfold_monad.
  step (mem f supported_currencies).
  step (mem t0 supported_currencies).
  step (latest (rate_api w) amount f t0).
  step ((200 <=? status_code r) && (status_code r <? 300)).
  step (json r).
  - step (rates a). step (lookup t0 l). step (division_error n amount).
    now rewrite (division_error_not_value_error n amount e).
  - step (is_ValueError e).
Qed.

(** ** The batch conversion engine *)

(** The sequential batch never raises; its result is the list of the
    entries of the requests, in their order, and every request whose codes
    are in the allow-list has reached the rate service. *)
Lemma batch_convert_currencies_run :
  forall w conversions log,
    batch_convert_currencies w conversions log
    = (Ok (map (entry_of w) conversions), log ++ flat_map calls_of conversions).
Proof.
  intros w conversions.
  induction conversions as [| c rest IH]; intro log.
  - simpl. unfold ret. now rewrite app_nil_r.
  - cbn [batch_convert_currencies map flat_map].
    unfold bind at 1. unfold try_clauses, bind at 1.
    rewrite convert_currency_run.
    unfold entry_of at 1, calls_of at 1.
    destruct (conversion_outcome w (amount c) (from_currency c) (to_currency c));
      cbn [select_handler any_exception ret];
      unfold bind; rewrite IH; unfold ret;
      destruct (supported_pair (from_currency c) (to_currency c));
      now rewrite <- ?app_assoc.
Qed.

(** The batch engine, sequential strategy: in a batch where one request
    fails and the others succeed, the result has one entry per request in
    the order of the requests, the entry of the failing request is the only
    one with an error, and the requests after it still reach the rate
    service. *)
Theorem batch_convert_currencies_isolation :
  forall w before failing after log,
    (forall c, In c (before ++ after) ->
               exists r, conversion_outcome w (amount c) (from_currency c) (to_currency c)
                         = Ok r) ->
    (exists e, conversion_outcome w (amount failing) (from_currency failing)
                 (to_currency failing) = Raise e) ->
    exists entries log',
      batch_convert_currencies w (before ++ failing :: after) log = (Ok entries, log')
      /\ List.length entries = List.length (before ++ failing :: after)
      /\ (forall i c, nth_error (before ++ failing :: after) i = Some c ->
                      nth_error entries i = Some (entry_of w c))
      /\ (forall i e, nth_error entries i = Some e ->
                      (has_error e = true <-> i = List.length before))
      /\ (forall c, In c after ->
                    In (GetLatest (amount c) (from_currency c) (to_currency c)) log').
Proof.
  intros w before failing after log Hok [e He].
  exists (map (entry_of w) (before ++ failing :: after)).
  exists (log ++ flat_map calls_of (before ++ failing :: after)).
  split; [apply batch_convert_currencies_run |].
  split; [apply length_map |].
  split; [intros i c Hc; now apply map_nth_error |].
  assert (Hgood : forall c, In c (before ++ after) -> has_error (entry_of w c) = false).
  { intros c Hin. destruct (Hok c Hin) as [r Hr]. unfold entry_of. now rewrite Hr. }
  assert (Hbad : has_error (entry_of w failing) = true).
  { unfold entry_of. now rewrite He. }
  split.
  - intros i x Hx. rewrite map_app in Hx. cbn [map] in Hx.
    destruct (Nat.lt_trichotomy i (List.length before)) as [Hlt | [Heq | Hgt]].
    + rewrite nth_error_app1 in Hx by now rewrite length_map.
      apply nth_error_In, in_map_iff in Hx. destruct Hx as [c [<- Hin]].
      rewrite Hgood by (apply in_or_app; now left).
      split; [discriminate | lia].
    + subst i. rewrite nth_error_app2 in Hx by (rewrite length_map; lia).
      rewrite length_map, Nat.sub_diag in Hx. cbn in Hx. injection Hx as <-.
      now split.
    + rewrite nth_error_app2 in Hx by (rewrite length_map; lia).
      rewrite length_map in Hx.
      destruct (i - List.length before) as [| j] eqn:Hj; [lia |].
      cbn in Hx. apply nth_error_In, in_map_iff in Hx. destruct Hx as [c [<- Hin]].
      rewrite Hgood by (apply in_or_app; now right).
      split; [discriminate | lia].
  - intros c Hin. apply in_or_app. right.
    apply in_flat_map. exists c. split; [apply in_or_app; right; now right |].
    destruct (Hok c (in_or_app _ _ _ (or_intror Hin))) as [r Hr].
    unfold calls_of, supported_pair.
    unfold conversion_outcome in Hr.
    destruct (mem (from_currency c) supported_currencies); [| discriminate].
    destruct (mem (to_currency c) supported_currencies); [| discriminate].
    now left.
Qed.

Example batch_convert_currencies_mixed_batch :
  exists r1 r3,
    batch_convert_currencies market_world mixed_batch []
    = (Ok [Success r1;
           BatchError "Unsupported source currency: XXX" (PyFloat 1) "XXX" "EUR";
           Success r3],
       [GetLatest (PyFloat 100) "USD" "EUR"; GetLatest (PyFloat 2) "GBP" "EUR"]).
Proof. do 2 eexists. vm_compute. reflexivity. Qed.

Lemma gather_conversions :
  forall w conversions log,
    gather (map (fun c => convert_currency w (amount c) (from_currency c) (to_currency c))
              conversions) log
    = (Ok (map (fun c => conversion_outcome w (amount c) (from_currency c) (to_currency c))
             conversions),
       log ++ flat_map calls_of conversions).
Proof.
  intros w conversions.
  induction conversions as [| c rest IH]; intro log.
  - simpl. unfold ret. now rewrite app_nil_r.
  - cbn [map gather flat_map]. rewrite convert_currency_run.
    unfold bind. rewrite IH. unfold ret, calls_of.
    destruct (supported_pair (from_currency c) (to_currency c));
      now rewrite <- ?app_assoc.
Qed.

(** In a module that binds [asyncio], the concurrent batch behaves as the
    sequential one: one entry per request, in the order of the requests. *)
Lemma convert_multiple_currencies_in_run :
  forall globals w conversions log,
    mem "asyncio" globals = true ->
    convert_multiple_currencies_in globals w conversions log
    = (Ok (map (gathered_entry_of w) conversions),
       log ++ flat_map calls_of conversions).
Proof.
  intros globals w conversions log Hbound.
  unfold convert_multiple_currencies_in, try_clauses, global_name.
  rewrite Hbound. unfold bind at 1. unfold ret at 1. unfold bind at 1.
  rewrite gather_conversions. unfold ret. f_equal. f_equal.
  clear. induction conversions as [| c rest IH]; [reflexivity |].
  cbn [map combine]. rewrite IH. reflexivity.
Qed.

(** C2 (the code at the failing input).  On the batch [mixed_batch], whose
    second request names an unsupported currency, the concurrent engine
    [convert_multiple_currencies] returns no sequence of results: it raises,
    because [asyncio] is not bound in its module, and no request reaches
    the rate service. *)
Theorem convert_multiple_currencies_mixed_batch :
  convert_multiple_currencies market_world mixed_batch []
  = (Raise (PlainException asyncio_error), []).
Proof. reflexivity. Qed.

(** ** The rate client and the amount *)

(** Whatever the amount, a conversion between two supported codes calls the
    rate service. *)
Corollary convert_currency_calls_service :
  forall w amount from_currency to_currency log,
    supported_pair from_currency to_currency = true ->
    snd (convert_currency w amount from_currency to_currency log)
    = log ++ [GetLatest amount from_currency to_currency].
Proof.
  intros w amount f t0 log H. rewrite convert_currency_run. cbn [snd]. now rewrite H.
Qed.

(** [validate_amount], which [convert_currency] does not call, rejects the
    amounts that are not positive. *)
Lemma validate_amount_rejects_nonpositive :
  forall amount,
    (num_value amount <= 0)%Q ->
    validate_amount amount
    = Raise (ValidationError ("Amount must be positive: " ++ str_num amount)).
Proof.
  intros amount H. unfold validate_amount, q_le.
  apply Qle_bool_iff in H. now rewrite H.
Qed.

(** C3 (the code at the failing inputs).  With the amount -5 the rate client
    calls the rate service and returns a Success built from its reply; with
    the amount 0 it calls the rate service too, and fails only afterwards,
    on the division, with the generic message. *)
Theorem convert_currency_nonpositive_amount :
  convert_currency market_world (PyInt (-5)) "USD" "EUR" []
  = (Ok {| res_amount := PyInt (-5);
           res_from_currency := "USD";
           res_to_currency := "EUR";
           converted_amount := PyFloat (-17 # 4);
           exchange_rate := PyFloat (17 # 20);
           res_date := "2024-01-15" |},
     [GetLatest (PyInt (-5)) "USD" "EUR"])
  /\ convert_currency market_world (PyInt 0) "USD" "EUR" []
     = (Raise (ValueError "Error converting USD to EUR"),
        [GetLatest (PyInt 0) "USD" "EUR"]).
Proof. split; vm_compute; reflexivity. Qed.

(** The amount 0 reaches the rate client through the chat endpoint: the
    query "0 USD to EUR" is parsed, the request is sent, and the failure
    comes from the division. *)
Example zero_amount_through_the_parser :
  parse_conversion_query "0 USD to EUR" = Ok [Conversion (PyFloat 0) "USD" "EUR"]
  /\ batch_convert_currencies market_world [Conversion (PyFloat 0) "USD" "EUR"] []
     = (Ok [BatchError "Error converting USD to EUR" (PyFloat 0) "USD" "EUR"],
        [GetLatest (PyFloat 0) "USD" "EUR"]).
Proof. split; vm_compute; reflexivity. Qed.

(** ** Identity conversions *)

(** A conversion of a supported currency into itself is sent to the rate
    service like any other. *)
Lemma identity_conversion_calls_service :
  forall w amount code log,
    mem code supported_currencies = true ->
    snd (convert_currency w amount code code log)
    = log ++ [GetLatest amount code code].
Proof.
  intros w amount code log H. apply convert_currency_calls_service.
  unfold supported_pair. now rewrite H.
Qed.

(** With no reply from the rate service an identity conversion fails. *)
Lemma identity_conversion_needs_reply :
  forall w amount code log msg,
    mem code supported_currencies = true ->
    latest (rate_api w) amount code code = Unreachable msg ->
    fst (convert_currency w amount code code log)
    = Raise (generic_failure code code).
Proof.
  intros w amount code log msg H Hreply. rewrite convert_currency_run. cbn [fst].
  unfold conversion_outcome. now rewrite H, Hreply.
Qed.

(** C6 (the code at the failing input).  [convert_currency(100, "USD",
    "USD")] with the rate service out of reach: the request is sent, and the
    result is a Failure, not the identity result. *)
Theorem convert_currency_same_currency_offline :
  convert_currency offline_world (PyInt 100) "USD" "USD" []
  = (Raise (ValueError "Error converting USD to USD"),
     [GetLatest (PyInt 100) "USD" "USD"]).
Proof. vm_compute. reflexivity. Qed.

(** ** Historical rates *)

(** A date in the future is rejected before any network call. *)
Lemma get_historical_rate_future :
  forall w date_str from_currency to_currency d log,
    strptime date_str = Ok d ->
    date_gt d (today w) = true ->
    get_historical_rate w date_str from_currency to_currency log
    = (Raise (PlainException
                "Failed to fetch historical rate: Cannot get exchange rates for future dates"),
       log).
Proof.
  intros w s f t0 d log Hparse Hgt.
  unfold get_historical_rate. unfold_monad.
  rewrite Hparse. reduce. rewrite Hgt. reduce.
  reflexivity.
Qed.

(** A string that [strptime] refuses is rejected before any network call. *)
Lemma get_historical_rate_malformed :
  forall w date_str from_currency to_currency msg log,
    strptime date_str = Raise (ValueError msg) ->
    exists reason,
      get_historical_rate w date_str from_currency to_currency log
      = (Raise (PlainException ("Failed to fetch historical rate: " ++ reason)), log).
Proof.
  intros w s f t0 msg log Hparse.
  unfold get_historical_rate. unfold_monad.
  rewrite Hparse. reduce. cbn [is_ValueError str_exn].
  destruct (contains "time data" msg); reduce; cbn [str_exn]; eexists; reflexivity.
Qed.

(** Every date that is not in the future, however old, is sent to the rate
    service: [get_historical_rate] knows no earliest date. *)
Lemma get_historical_rate_past_calls_service :
  forall w date_str from_currency to_currency d log,
    strptime date_str = Ok d ->
    date_gt d (today w) = false ->
    snd (get_historical_rate w date_str from_currency to_currency log)
    = log ++ [GetDated date_str (upper_str from_currency) (upper_str to_currency)].
Proof.
  intros w s f t0 d log Hparse Hgt.
  unfold get_historical_rate, upper_str. unfold_monad.
  rewrite Hparse. reduce. rewrite Hgt. reduce.
  step (dated (rate_api w) s (to_str (upper (chars f))) (to_str (upper (chars t0)))).
  step ((200 <=? status_code r) && (status_code r <? 300)).
  - step (json r).
    + step (rates a). step (lookup (to_str (upper (chars t0))) l).
      step (date a).
    + step (is_HTTPStatusError e). destruct e; try discriminate.
      step (status =? 400).
  - step (status_code r =? 400).
Qed.

(** [validate_date_string], which [get_historical_rate] does not call,
    rejects a date before the first day of the rate service. *)
Example validate_date_string_before_floor :
  validate_date_string (2024, 1, 15) "1990-01-01"
  = Raise (ValidationError "Date cannot be earlier than 1999-01-04: 1990-01-01").
Proof. vm_compute. reflexivity. Qed.

Example get_historical_rate_tomorrow :
  get_historical_rate market_world "2024-01-16" "USD" "EUR" []
  = (Raise (PlainException
              "Failed to fetch historical rate: Cannot get exchange rates for future dates"),
     []).
Proof. vm_compute. reflexivity. Qed.

(** [strptime] accepts months and days without their leading zero, so
    [get_historical_rate] sends such a date to the rate service. *)
Example get_historical_rate_unpadded :
  snd (get_historical_rate market_world "2024-1-5" "USD" "EUR" [])
  = [GetDated "2024-1-5" "USD" "EUR"].
Proof. vm_compute. reflexivity. Qed.

(** C9 (the code at the failing input).  For the date 1990-01-01, nine
    years before the first day of the rate service, [get_historical_rate]
    calls the rate service and returns the rate it replies with. *)
Theorem get_historical_rate_before_floor :
  date_lt (1990, 1, 1) min_date = true
  /\ get_historical_rate market_world "1990-01-01" "USD" "EUR" []
     = (Ok {| hist_date := "1990-01-01";
              hist_from_currency := "USD";
              hist_to_currency := "EUR";
              hist_exchange_rate := PyFloat (17 # 20) |},
        [GetDated "1990-01-01" "USD" "EUR"]).
Proof. split; vm_compute; reflexivity. Qed.

(** ** Tool calls *)

(** A call with malformed arguments gives one error entry and sends
    nothing. *)
Lemma dispatch_malformed :
  forall w name tc log,
    malformed name (arguments tc) = true ->
    exists msg, dispatch w name tc log = (Ok (Append (ToolError msg name)), log).
Proof.
  intros w name [fn args] log H.
  unfold malformed, required_numbers, required_strings in H. cbn [arguments] in H.
  unfold dispatch, json_loads, arg_number, arg_string.
  cbn [arguments]. unfold_monad.
  destruct args as [msg | msg | numbers strings]; reduce_turn.
  - eexists; reflexivity.
  - destruct (String.eqb name "convert_currency"); reduce_turn;
      [eexists; reflexivity |].
    destruct (String.eqb name "get_supported_currencies"); cbn in H; [discriminate |].
    destruct (String.eqb name "get_historical_rate"); cbn in H; reduce_turn;
      [eexists; reflexivity | discriminate].
  - unfold has_key in H.
    destruct (String.eqb name "convert_currency"); cbn [forallb] in H; reduce_turn.
    + destruct (lookup "amount" numbers); reduce_turn; [| eexists; reflexivity].
      destruct (lookup "from_currency" strings); reduce_turn; [| eexists; reflexivity].
      destruct (lookup "to_currency" strings); reduce_turn; [| eexists; reflexivity].
      discriminate.
    + destruct (String.eqb name "get_supported_currencies"); cbn [forallb] in H;
        [discriminate |].
      destruct (String.eqb name "get_historical_rate"); cbn [forallb] in H; reduce_turn;
        [| discriminate].
      destruct (lookup "date" strings); reduce_turn; [| eexists; reflexivity].
      destruct (lookup "from_currency" strings); reduce_turn; [| eexists; reflexivity].
      destruct (lookup "to_currency" strings); reduce_turn; [| eexists; reflexivity].
      discriminate.
Qed.

(** A call that names none of the three functions, with arguments that
    decode, adds nothing and sends nothing. *)
Lemma dispatch_unrecognized :
  forall w name tc log,
    recognized name = false ->
    malformed name (arguments tc) = false ->
    dispatch w name tc log = (Ok Pass, log).
Proof.
  intros w name [fn args] log Hname Hargs.
  unfold recognized, mem in Hname. cbn [existsb] in Hname.
  unfold malformed in Hargs. cbn [arguments] in Hargs.
  unfold dispatch, json_loads. cbn [arguments]. unfold_monad.
  destruct (String.eqb name "convert_currency"); cbn [orb] in Hname; [discriminate |].
  destruct (String.eqb name "get_supported_currencies"); cbn [orb] in Hname; [discriminate |].
  destruct (String.eqb name "get_historical_rate"); cbn [orb] in Hname; [discriminate |].
  destruct args; [discriminate | reflexivity | reflexivity].
Qed.

(** A call of [convert_currency] whose arguments hold the three members
    gives the entry of its conversion and sends the requests of that
    conversion. *)
Lemma dispatch_conversion :
  forall w tc log,
    malformed "convert_currency" (arguments tc) = false ->
    exists c,
      call_conversion (arguments tc) = Some c
      /\ dispatch w "convert_currency" tc log
         = (Ok (Append (tool_entry_of w "convert_currency" c)), log ++ calls_of c).
Proof.
  intros w [fn args] log H.
  unfold malformed, required_numbers, required_strings, has_key in H.
  cbn [arguments String.eqb Ascii.eqb Bool.eqb forallb app List.length Nat.eqb negb] in H.
  destruct args as [msg | msg | numbers strings]; try discriminate.
  cbn [arguments call_conversion].
  destruct (lookup "amount" numbers) as [x |] eqn:Hx; [| discriminate].
  destruct (lookup "from_currency" strings) as [f |] eqn:Hf; [| discriminate].
  destruct (lookup "to_currency" strings) as [t0 |] eqn:Ht; [| discriminate].
  exists (Conversion x f t0). split; [reflexivity |].
  unfold dispatch, json_loads, arg_number, arg_string, try_clauses.
  cbn [arguments String.eqb Ascii.eqb Bool.eqb]. unfold bind at 1, ret.
  rewrite Hx, Hf, Ht. unfold bind, ret.
  rewrite convert_currency_run. unfold tool_entry_of, calls_of.
  cbn [amount from_currency to_currency].
  destruct (conversion_outcome w x f t0), (supported_pair f t0);
    rewrite ?app_nil_r; reflexivity.
Qed.

Lemma malformed_conversion_sends_nothing :
  forall a, malformed "convert_currency" a = true ->
            match call_conversion a with
            | Some c => calls_of c
            | None => []
            end = [].
Proof.
  intros a H. unfold malformed, required_numbers, required_strings, has_key in H.
  cbn [String.eqb Ascii.eqb Bool.eqb forallb] in H.
  destruct a as [msg | msg | numbers strings]; try reflexivity.
  cbn [call_conversion].
  destruct (lookup "amount" numbers); [| reflexivity].
  destruct (lookup "from_currency" strings); [| reflexivity].
  destruct (lookup "to_currency" strings); [discriminate | reflexivity].
Qed.

(** One turn of a call that stays in the loop. *)
Lemma stays_in_loop_turn :
  forall w bound tc log,
    stays_in_loop tc = true ->
    exists name entries,
      function_name tc = Ok name
      /\ contributes w tc entries
      /\ (tool_call_turn w bound tc log
          = (Ok (Pass, Some name), log ++ tool_requests tc) /\ entries = []
          \/ exists e,
               tool_call_turn w bound tc log
               = (Ok (Append e, Some name), log ++ tool_requests tc)
               /\ entries = [e]).
Proof.
  intros w bound tc log H. unfold stays_in_loop in H.
  unfold contributes, tool_requests, tool_call_turn.
  destruct (function_name tc) as [name | e]; [| discriminate].
  exists name.
  destruct (malformed name (arguments tc)) eqn:Hm.
  - destruct (dispatch_malformed w name tc log Hm) as [msg Hd].
    exists [ToolError msg name]. split; [reflexivity |]. split; [now exists msg |].
    right. exists (ToolError msg name). split; [| reflexivity].
    unfold bind, ret. rewrite Hd.
    destruct (String.eqb name "convert_currency") eqn:Hn.
    + apply String.eqb_eq in Hn. subst name.
      now rewrite malformed_conversion_sends_nothing, app_nil_r.
    + now rewrite app_nil_r.
  - rewrite orb_false_r in H. apply negb_true_iff in H.
    destruct (String.eqb name "convert_currency") eqn:Hn.
    + apply String.eqb_eq in Hn. subst name.
      destruct (dispatch_conversion w tc log Hm) as [c [Hc Hd]].
      exists [tool_entry_of w "convert_currency" c].
      split; [reflexivity |]. split; [now exists c |].
      right. eexists. split; [| reflexivity].
      unfold bind, ret. now rewrite Hd, Hc.
    + exists []. split; [reflexivity |]. split; [reflexivity |].
      left. split; [| reflexivity].
      unfold bind, ret. rewrite dispatch_unrecognized; [now rewrite app_nil_r | | exact Hm].
      unfold recognized, mem. cbn [existsb]. rewrite Hn.
      unfold ends_loop in H. apply orb_false_iff in H. destruct H as [H1 H2].
      now rewrite H1, H2.
Qed.

Lemma tool_calls_loop_stays :
  forall w calls bound results log,
    forallb stays_in_loop calls = true ->
    exists contributions,
      Forall2 (contributes w) calls contributions
      /\ tool_calls_loop w bound calls results log
         = (Ok (aggregate (results ++ List.concat contributions)),
            log ++ flat_map tool_requests calls).
Proof.
  intros w calls. induction calls as [| tc calls IH]; intros bound results log H.
  - exists []. split; [constructor |].
    cbn [tool_calls_loop List.concat flat_map]. rewrite !app_nil_r.
    destruct results; reflexivity.
  - cbn [forallb] in H. apply andb_prop in H. destruct H as [Htc Hcalls].
    destruct (stays_in_loop_turn w bound tc log Htc)
      as [name [entries [Hname [Hentries [[Hturn ->] | [e [Hturn ->]]]]]]];
      cbn [tool_calls_loop]; unfold bind at 1; rewrite Hturn; cbn [fst snd].
    + destruct (IH (Some name) results (log ++ tool_requests tc) Hcalls)
        as [contributions [Hall Hloop]].
      exists ([] :: contributions). split; [now constructor |].
      rewrite Hloop. cbn [List.concat flat_map app]. now rewrite <- app_assoc.
    + destruct (IH (Some name) (results ++ [e]) (log ++ tool_requests tc) Hcalls)
        as [contributions [Hall Hloop]].
      exists ([e] :: contributions). split; [now constructor |].
      rewrite Hloop. cbn [List.concat flat_map app]. now rewrite <- !app_assoc.
Qed.




(** The aggregate of an undecodable call followed by a conversion: two
    sections, the error first. *)
Example handle_tool_calls_error_then_conversion :
  _handle_tool_calls market_world [undecodable_call; usd_eur_call] []
  = (Ok ("**Conversion 1:**" ++ nl
         ++ "❌ Error: Expecting value: line 1 column 1 (char 0)" ++ nl ++ nl
         ++ "**Conversion 2:**" ++ nl
         ++ "💰 100 USD = **85.0 EUR**" ++ nl
         ++ "📊 Exchange Rate: 1 USD = 0.85 EUR" ++ nl
         ++ "📅 Rate Date: 2024-01-15" ++ nl)%string,
     [GetLatest (PyInt 100) "USD" "EUR"]).
Proof. vm_compute. reflexivity. Qed.

(** A call of [get_supported_currencies] returns from the function at
    once: the error entry collected before it is dropped, and the calls
    after it are not dispatched. *)
Example handle_tool_calls_returns_early :
  _handle_tool_calls market_world
    [undecodable_call; listing_call; usd_eur_call] []
  = (Ok (_format_supported_currencies
           [("USD", "United States Dollar"); ("EUR", "Euro")]),
     [GetCurrencies]).
Proof. vm_compute. reflexivity. Qed.

(** A first call without a function name: the [except] clause reads a
    variable no turn has bound, and the error leaves the function before
    any request. *)
Example handle_tool_calls_unbound_name :
  _handle_tool_calls market_world [nameless_call; usd_eur_call] []
  = (Raise (UnboundLocalError unbound_function_name), []).
Proof. reflexivity. Qed.

(** A later call without a function name is reported under the name of the
    call before it. *)
Example handle_tool_calls_stale_name :
  _handle_tool_calls market_world [weather_call; nameless_call] []
  = (Ok ("**Conversion 1:**" ++ nl ++ "❌ Error: 'function'" ++ nl)%string, []).
Proof. vm_compute. reflexivity. Qed.

(** ** The orchestrator *)

(** [_process_with_llm] never raises. *)
Lemma process_with_llm_returns :
  forall w query history log,
    exists v log', _process_with_llm w query history log = (Ok v, log').
Proof.
  intros w query history log.
  unfold _process_with_llm, try_clauses.
  match goal with
  | |- context [match ?m log with _ => _ end] => destruct (m log) as [[v | e] log']
  end.
  - now exists v, log'.
  - cbn [select_handler]. destruct (is_HTTPStatusError e); do 2 eexists; reflexivity.
Qed.

(** When the LLM call fails, [_process_with_llm] returns one of the two
    fixed texts. *)
Lemma process_with_llm_failure :
  forall w query history log,
    llm_call_fails w (chat_messages query history) = true ->
    fst (_process_with_llm w query history log) = Ok (PyStr connectivity_text)
    \/ fst (_process_with_llm w query history log) = Ok (PyStr generic_text).
Proof.
  intros w query history log H.
  unfold llm_call_fails in H.
  unfold _process_with_llm. unfold_monad.
  destruct (chat_api w (chat_messages query history)) as [msg | r]; reduce.
  - now right.
  - destruct ((200 <=? status_code r) && (status_code r <? 300)); reduce.
    + cbn [negb orb] in H. destruct (json r) as [[m | e] | e]; reduce.
      * discriminate.
      * destruct (is_HTTPStatusError e); reduce; [now left | now right].
      * destruct (is_HTTPStatusError e); reduce; [now left | now right].
    + now left.
Qed.

(** Every path of [process_query] ends in a returned value: no exception
    reaches the caller. *)
Lemma process_query_never_raises :
  forall globals w query history log,
    exists v log', process_query_in globals w query history log = (Ok v, log').
Proof.
  intros globals w query history log.
  unfold process_query_in, try_clauses.
  match goal with
  | |- context [match ?m log with _ => _ end] => destruct (m log) as [[v | e] log']
  end.
  - now exists v, log'.
  - do 2 eexists; reflexivity.
Qed.

(** With no conversion extracted, [process_query] is [_process_with_llm]. *)
Lemma process_query_escalates :
  forall globals w query history log,
    _extract_conversions query = Ok [] ->
    process_query_in globals w query history log
    = _process_with_llm w query history log.
Proof.
  intros globals w query history log H.
  unfold process_query_in, try_clauses, bind at 1, lift. rewrite H.
  cbn [List.length Nat.leb].
  destruct (process_with_llm_returns w query history log) as [v [log' Hllm]].
  now rewrite Hllm.
Qed.

(** When the extractor finds nothing and the LLM call fails, the answer is
    one of the two fixed texts. *)
Lemma process_query_llm_failure :
  forall w query history log,
    _extract_conversions query = Ok [] ->
    llm_call_fails w (chat_messages query history) = true ->
    fst (process_query w query history log) = Ok (PyStr connectivity_text)
    \/ fst (process_query w query history log) = Ok (PyStr generic_text).
Proof.
  intros w query history log Hnone Hfail.
  unfold process_query. rewrite process_query_escalates by assumption.
  now apply process_with_llm_failure.
Qed.

Example weather_query_llm_unreachable :
  process_query market_world "What's the weather today?" None []
  = (Ok (PyStr generic_text),
     [PostChat [Message "system" SYSTEM_PROMPT;
                Message "user" "What's the weather today?"]]).
Proof. vm_compute. reflexivity. Qed.

Example weather_query_llm_status_503 :
  fst (process_query llm_down_world "What's the weather today?" None [])
  = Ok (PyStr connectivity_text).
Proof. vm_compute. reflexivity. Qed.

(** [process_query] returns [None] only on the escalated path, when the LLM
    replies with a message whose content is [null] and that asks for no tool
    call; on every other path it returns a text. *)
Lemma process_query_none_only_on_null_content :
  forall globals w query history log,
    fst (process_query_in globals w query history log) = Ok PyNone ->
    _extract_conversions query = Ok []
    /\ exists r m,
         chat_api w (chat_messages query history) = Replied r
         /\ json r = Ok (Ok m)
         /\ msg_content m = Null.
Proof.
  intros globals w query history log.
  unfold process_query_in, try_clauses, bind at 1, lift.
  destruct (_extract_conversions query) as [[| c rest] | e].
  - cbn [List.length Nat.leb]. intro H. split; [reflexivity |].
    destruct (process_with_llm_returns w query history log) as [v [log' Hllm]].
    rewrite Hllm in H. cbn in H. injection H as ->.
    revert Hllm. unfold _process_with_llm. unfold_monad.
    destruct (chat_api w (chat_messages query history)) as [msg | r]; reduce;
      [discriminate |].
    destruct ((200 <=? status_code r) && (status_code r <? 300)); reduce;
      [| discriminate].
    destruct (json r) as [[m | e] | e] eqn:Hj; reduce.
    + destruct (tool_calls m) as [[| tc calls] |].
      * destruct (msg_content m) eqn:Hc; try discriminate. intros _. now exists r, m.
      * match goal with
        | |- context [_handle_tool_calls w (tc :: calls) ?l0] =>
            destruct (_handle_tool_calls w (tc :: calls) l0) as [[s | e] l]; reduce;
              [discriminate |]
        end.
        destruct (is_HTTPStatusError e); discriminate.
      * destruct (msg_content m) eqn:Hc; try discriminate. intros _. now exists r, m.
    + destruct (is_HTTPStatusError e); discriminate.
    + destruct (is_HTTPStatusError e); discriminate.
  - cbn [List.length Nat.leb]. unfold bind.
    destruct (convert_multiple_currencies_in globals w (c :: rest) log) as [[l | e] log'];
      cbn; discriminate.
  - cbn. discriminate.
Qed.

(** C5 (the code at the failing input).  For the query
    "What's the weather today?", when the LLM replies with a message whose
    content is [null] and that asks for no tool call, [process_query]
    returns [None], not a text. *)
Theorem process_query_null_content :
  fst (process_query null_content_world "What's the weather today?" None [])
  = Ok PyNone.
Proof. vm_compute. reflexivity. Qed.

(** C10.  When the extractor finds at least one conversion, the outcome of
    [process_query] (the returned text and the network calls) is the same
    for any two conversation histories, whatever names the module of the
    batch engine binds. *)
Theorem process_query_ignores_history :
  forall globals w query history1 history2 log c rest,
    _extract_conversions query = Ok (c :: rest) ->
    process_query_in globals w query history1 log
    = process_query_in globals w query history2 log.
Proof.
  intros globals w query history1 history2 log c rest H.
  unfold process_query_in, try_clauses, bind, lift. rewrite H.
  reflexivity.
Qed.

Lemma process_query_ignores_history_witness :
  process_query market_world "Convert 100 USD to EUR" None []
  = process_query market_world "Convert 100 USD to EUR"
      (Some [Message "user" "What's the weather today?";
             Message "assistant" "I can only help with currencies."]) [].
Proof.
  apply (process_query_ignores_history currency_service_globals market_world
           "Convert 100 USD to EUR" None _ [] (Conversion (PyFloat 100) "USD" "EUR") []).
  vm_compute. reflexivity.
Defined.

(** ** The regular-expression matcher: first matches *)

Lemma accepts_empty : forall rest caps, accepts REmpty [] rest caps caps.
Proof. intros rest caps A k a H. exact H. Qed.

Lemma accepts_class :
  forall c x rest caps, c x = true -> accepts (RClass c) [x] rest caps caps.
Proof. intros c x rest caps Hc A k a H. cbn. now rewrite Hc. Qed.

Lemma accepts_seq :
  forall r1 r2 xs ys rest caps caps1 caps2,
    accepts r1 xs (ys ++ rest) caps caps1 ->
    accepts r2 ys rest caps1 caps2 ->
    accepts (RSeq r1 r2) (xs ++ ys) rest caps caps2.
Proof.
  intros r1 r2 xs ys rest caps caps1 caps2 H1 H2 A k a H.
  cbn [rmatch]. rewrite <- app_assoc. apply H1. now apply H2.
Qed.

Lemma star_greedy_all :
  forall (A : Type) c (k : text -> option A) xs rest a,
    forallb c xs = true ->
    k rest = Some a ->
    head_not c rest = true ->
    star_greedy c k (xs ++ rest) = Some a.
Proof.
  intros A c k xs rest a Hxs Hk Hrest.
  induction xs as [| x xs IH].
  - destruct rest as [| y rest']; cbn; [exact Hk |].
    cbn in Hrest. destruct (c y); [discriminate | exact Hk].
  - cbn in Hxs. apply andb_prop in Hxs. destruct Hxs as [Hx Hxs].
    cbn. rewrite Hx, (IH Hxs). reflexivity.
Qed.

Lemma accepts_star :
  forall c xs rest caps,
    forallb c xs = true -> head_not c rest = true ->
    accepts (RStar c) xs rest caps caps.
Proof.
  intros c xs rest caps Hxs Hrest A k a H. cbn [rmatch].
  now apply star_greedy_all.
Qed.

Lemma accepts_plus :
  forall c x xs rest caps,
    c x = true -> forallb c xs = true -> head_not c rest = true ->
    accepts (plus c) (x :: xs) rest caps caps.
Proof.
  intros c x xs rest caps Hx Hxs Hrest.
  apply (accepts_seq (RClass c) (RStar c) [x] xs rest caps caps caps).
  - now apply accepts_class.
  - now apply accepts_star.
Qed.

Lemma accepts_alt_left :
  forall r1 r2 xs rest caps caps',
    accepts r1 xs rest caps caps' -> accepts (RAlt r1 r2) xs rest caps caps'.
Proof.
  intros r1 r2 xs rest caps caps' H1 A k a H. cbn [rmatch].
  now rewrite (H1 A k a H).
Qed.

Lemma accepts_alt_right :
  forall r1 r2 xs rest caps caps',
    rejects r1 (xs ++ rest) ->
    accepts r2 xs rest caps caps' -> accepts (RAlt r1 r2) xs rest caps caps'.
Proof.
  intros r1 r2 xs rest caps caps' H1 H2 A k a H. cbn [rmatch].
  rewrite H1. now apply H2.
Qed.

Lemma accepts_opt_taken :
  forall r xs rest caps caps',
    accepts r xs rest caps caps' -> accepts (ROpt r) xs rest caps caps'.
Proof.
  intros r xs rest caps caps' H1 A k a H. cbn [rmatch].
  now rewrite (H1 A k a H).
Qed.

Lemma accepts_opt_skipped :
  forall r rest caps, rejects r rest -> accepts (ROpt r) [] rest caps caps.
Proof.
  intros r rest caps H1 A k a H. cbn [rmatch app]. now rewrite H1.
Qed.

Lemma firstn_consumed :
  forall (xs rest : text),
    firstn (List.length (xs ++ rest) - List.length rest) (xs ++ rest) = xs.
Proof.
  intros xs rest. rewrite length_app, Nat.add_sub.
  rewrite firstn_app, Nat.sub_diag, firstn_all. cbn. apply app_nil_r.
Qed.

Lemma accepts_group :
  forall i r xs rest caps caps',
    accepts r xs rest caps caps' ->
    accepts (RGroup i r) xs rest caps (set_capture i xs caps').
Proof.
  intros i r xs rest caps caps' H1 A k a H. cbn [rmatch].
  apply H1. now rewrite firstn_consumed.
Qed.

Lemma rejects_class :
  forall c s, head_not c s = true -> rejects (RClass c) s.
Proof.
  intros c s Hs A caps k. destruct s as [| x s']; [reflexivity |].
  cbn in *. now destruct (c x).
Qed.

Lemma rejects_seq :
  forall r1 r2 s, rejects r1 s -> rejects (RSeq r1 r2) s.
Proof. intros r1 r2 s H A caps k. cbn [rmatch]. apply H. Qed.

(** [re.match] on a text that begins with a first match. *)
Lemma match_at_accepts :
  forall r xs rest caps',
    accepts r xs rest no_captures caps' ->
    match_at r (xs ++ rest) = Some (List.length xs, caps').
Proof.
  intros r xs rest caps' H. unfold match_at. apply H.
  now rewrite length_app, Nat.add_sub.
Qed.

(** ** The scan of [re.findall] *)

Lemma scan_skip :
  forall r xs rest, scan r (List.length xs) (xs ++ rest) = scan r 0 rest.
Proof.
  intros r xs rest. induction xs as [| x xs IH]; [reflexivity | exact IH].
Qed.

(** A first match at the head of the text is the first item of the scan,
    and the scan goes on after it. *)
Lemma scan_accepts :
  forall r x xs rest caps',
    accepts r (x :: xs) rest no_captures caps' ->
    scan r 0 ((x :: xs) ++ rest) = caps' :: scan r 0 rest.
Proof.
  intros r x xs rest caps' H.
  pose proof (match_at_accepts r (x :: xs) rest caps' H) as Hm.
  cbn [app] in *. cbn [scan]. rewrite Hm. cbn [List.length pred].
  now rewrite scan_skip.
Qed.

Lemma scan_step :
  forall r x s, match_at r (x :: s) = None -> scan r 0 (x :: s) = scan r 0 s.
Proof. intros r x s H. cbn [scan]. now rewrite H. Qed.

(** A match of the orchestrator's pattern starts with a digit. *)
Lemma conversion_pattern_needs_digit :
  forall x s, is_digit x = false -> match_at conversion_pattern (x :: s) = None.
Proof. intros x s H. unfold match_at. cbn. now rewrite H. Qed.

Lemma scan_no_digit_prefix :
  forall pre s,
    no_digit pre = true ->
    scan conversion_pattern 0 (pre ++ s) = scan conversion_pattern 0 s.
Proof.
  intros pre s H. induction pre as [| x pre IH]; [reflexivity |].
  cbn in H. apply andb_prop in H. destruct H as [Hx Hpre].
  cbn [app]. rewrite scan_step; [now apply IH |].
  apply conversion_pattern_needs_digit. now destruct (is_digit x).
Qed.

(** A text without a digit holds no match of the orchestrator's pattern. *)
Lemma scan_no_digit :
  forall s, no_digit s = true -> scan conversion_pattern 0 s = [].
Proof.
  intros s H. rewrite <- (app_nil_r s). rewrite scan_no_digit_prefix by exact H.
  reflexivity.
Qed.

(** ** Characters of a phrase *)

Lemma alpha_not_digit : forall x, is_alpha x = true -> is_digit x = false.
Proof. intro x. ascii_cases x. Qed.

Lemma alpha_not_space : forall x, is_alpha x = true -> is_space x = false.
Proof. intro x. ascii_cases x. Qed.

Lemma alpha_not_point : forall x, is_alpha x = true -> is_char_ci "." x = false.
Proof. intro x. ascii_cases x. Qed.

Lemma space_not_digit : forall x, is_space x = true -> is_digit x = false.
Proof. intro x. ascii_cases x. Qed.

Lemma space_not_point : forall x, is_space x = true -> is_char_ci "." x = false.
Proof. intro x. ascii_cases x. Qed.

Lemma letter_t_not_space : forall x, is_char_ci "t" x = true -> is_space x = false.
Proof. intro x. ascii_cases x. Qed.

Lemma letter_i_not_space : forall x, is_char_ci "i" x = true -> is_space x = false.
Proof. intro x. ascii_cases x. Qed.

Lemma letter_i_not_t : forall x, is_char_ci "i" x = true -> is_char_ci "t" x = false.
Proof. intro x. ascii_cases x. Qed.

(** The head of whitespace followed by a character [a]. *)
Lemma head_not_after_spaces :
  forall (c : ascii -> bool) ws a s,
    forallb is_space ws = true ->
    (forall x, is_space x = true -> c x = false) ->
    c a = false ->
    head_not c (ws ++ a :: s) = true.
Proof.
  intros c ws a s Hws Hsp Ha. destruct ws as [| x ws]; cbn.
  - now rewrite Ha.
  - cbn in Hws. apply andb_prop in Hws. destruct Hws as [Hx _].
    now rewrite (Hsp x Hx).
Qed.

Lemma accepts_rep3 :
  forall c x y z rest caps,
    c x = true -> c y = true -> c z = true ->
    accepts (rep3 c) [x; y; z] rest caps caps.
Proof.
  intros c x y z rest caps Hx Hy Hz.
  apply (accepts_seq _ _ [x] [y; z] rest caps caps caps);
    [now apply accepts_class |].
  apply (accepts_seq _ _ [y] [z] rest caps caps caps); now apply accepts_class.
Qed.

Lemma accepts_lit1 :
  forall a x rest caps,
    is_char_ci a x = true ->
    accepts (lit_ci [a]) [x] rest caps caps.
Proof.
  intros a x rest caps Hx.
  apply (accepts_seq _ _ [x] [] rest caps caps caps);
    [now apply accepts_class | apply accepts_empty].
Qed.

Lemma accepts_lit2 :
  forall a b x y rest caps,
    is_char_ci a x = true -> is_char_ci b y = true ->
    accepts (lit_ci [a; b]) [x; y] rest caps caps.
Proof.
  intros a b x y rest caps Hx Hy.
  apply (accepts_seq _ _ [x] [y] rest caps caps caps);
    [now apply accepts_class | now apply accepts_lit1].
Qed.

(** The number of a phrase is the first match of [number_re] when a space
    or a letter follows. *)
Lemma accepts_number :
  forall i0 int' frac rest caps,
    is_digit i0 = true -> forallb is_digit int' = true ->
    forallb is_digit frac = true ->
    head_not is_digit rest = true ->
    head_not (is_char_ci ".") rest = true ->
    accepts number_re
      ((i0 :: int') ++ match frac with
                       | [] => []
                       | _ => "."%char :: frac
                       end)
      rest caps caps.
Proof.
  intros i0 int' frac rest caps Hi0 Hint Hfrac Hd Hp.
  unfold number_re.
  destruct frac as [| f0 frac'].
  - apply (accepts_seq _ _ (i0 :: int') [] rest caps caps caps).
    + now apply accepts_plus.
    + apply accepts_opt_skipped. apply rejects_seq.
      change (lit ".") with (RSeq (RClass (is_char_ci ".")) REmpty).
      apply rejects_seq. now apply rejects_class.
  - cbn in Hfrac. apply andb_prop in Hfrac. destruct Hfrac as [Hf0 Hfrac].
    apply (accepts_seq _ _ (i0 :: int') ("."%char :: f0 :: frac') rest caps caps caps).
    + now apply accepts_plus.
    + apply accepts_opt_taken.
      apply (accepts_seq _ _ ["."%char] (f0 :: frac') rest caps caps caps).
      * now apply (accepts_lit1 "."%char).
      * now apply accepts_plus.
Qed.

(** A well-formed phrase, whatever follows it, is the first match of the
    orchestrator's pattern: the match consumes the phrase and captures its
    number and its two codes. *)
Lemma phrase_accepts :
  forall p rest,
    well_formed p = true ->
    accepts conversion_pattern (render p) rest no_captures (captures_of p).
Proof.
  intros [int frac ws1 src ws2 sep ws3 tgt] rest Hwf.
  unfold well_formed, is_code in Hwf. cbn [p_int p_frac p_ws1 p_source p_ws2 p_sep p_ws3 p_target] in Hwf.
  repeat match type of Hwf with
         | _ && _ = true => apply andb_prop in Hwf; destruct Hwf as [Hwf ?]
         end.
  destruct int as [| i0 int']; [discriminate |].
  destruct src as [| a [| b [| c0 [| ? ?]]]]; try discriminate.
  destruct tgt as [| d [| e [| f [| ? ?]]]]; try discriminate.
  repeat match goal with
         | H : _ && _ = true |- _ => apply andb_prop in H; destruct H
         | H : forallb _ (_ :: _) = true |- _ => cbn [forallb] in H
         end.
  assert (Hx : exists x y, sep = [x; y] /\ is_space x = false
                           /\ (is_to [x; y] = true \/ is_in [x; y] = true)).
  { destruct sep as [| x [| y [| ? ?]]]; try discriminate.
    exists x, y. split; [reflexivity |].
    match goal with H : _ || _ = true |- _ => apply orb_prop in H; destruct H as [H | H] end.
    - split; [| now left]. cbn in H. apply andb_prop in H. destruct H as [H _].
      now apply letter_t_not_space.
    - split; [| now right]. cbn in H. apply andb_prop in H. destruct H as [H _].
      now apply letter_i_not_space. }
  destruct Hx as [x [y [-> [Hxs Hxy]]]].
  unfold conversion_pattern, render, captures_of, number_text.
  cbn [p_int p_frac p_ws1 p_source p_ws2 p_sep p_ws3 p_target].
  eapply accepts_seq.
  { apply accepts_group. apply accepts_number; try assumption;
      rewrite <- ?app_assoc; cbn [app].
    - apply head_not_after_spaces; [assumption | apply space_not_digit |].
      now apply alpha_not_digit.
    - apply head_not_after_spaces; [assumption | apply space_not_point |].
      now apply alpha_not_point. }
  eapply accepts_seq.
  { apply accepts_star; [assumption |]. cbn. now rewrite alpha_not_space. }
  eapply accepts_seq.
  { apply accepts_group. now apply accepts_rep3. }
  eapply accepts_seq.
  { apply accepts_star; [assumption |]. cbn. now rewrite Hxs. }
  eapply accepts_seq.
  { destruct Hxy as [Hto | Hin]; cbn in Hto || cbn in Hin.
    - apply andb_prop in Hto. destruct Hto.
      apply accepts_alt_left. now apply (accepts_lit2 "t"%char "o"%char).
    - apply andb_prop in Hin. destruct Hin.
      apply accepts_alt_right.
      + change (lit "to")
          with (RSeq (RClass (is_char_ci "t")) (RSeq (RClass (is_char_ci "o")) REmpty)).
        apply rejects_seq, rejects_class. cbn. now rewrite letter_i_not_t.
      + now apply (accepts_lit2 "i"%char "n"%char). }
  eapply accepts_seq.
  { apply accepts_star; [assumption |]. cbn. now rewrite alpha_not_space. }
  apply accepts_group.
  rewrite <- (app_nil_r [d; e; f]) at 1.
  now apply accepts_rep3.
Qed.

(** ** [float] on the number of a phrase *)

Lemma take_while_all :
  forall p xs rest,
    forallb p xs = true -> head_not p rest = true ->
    take_while p (xs ++ rest) = xs.
Proof.
  intros p xs rest Hxs Hrest. induction xs as [| x xs IH].
  - destruct rest as [| y rest']; [reflexivity |].
    cbn in *. now destruct (p y).
  - cbn in *. apply andb_prop in Hxs. destruct Hxs as [Hx Hxs].
    now rewrite Hx, IH.
Qed.

Lemma drop_while_all :
  forall p xs rest,
    forallb p xs = true -> head_not p rest = true ->
    drop_while p (xs ++ rest) = rest.
Proof.
  intros p xs rest Hxs Hrest. induction xs as [| x xs IH].
  - destruct rest as [| y rest']; [reflexivity |].
    cbn in *. now destruct (p y).
  - cbn in *. apply andb_prop in Hxs. destruct Hxs as [Hx Hxs].
    now rewrite Hx, IH.
Qed.

Lemma py_float_number :
  forall int frac,
    negb (List.length int =? 0) = true ->
    forallb is_digit int = true ->
    forallb is_digit frac = true ->
    py_float (int ++ match frac with
                     | [] => []
                     | _ => "."%char :: frac
                     end)
    = Some (decimal_value int frac).
Proof.
  intros int frac Hne Hint Hfrac. unfold py_float.
  destruct frac as [| f0 frac'].
  - rewrite take_while_all, drop_while_all by (assumption || reflexivity).
    destruct int; [discriminate | reflexivity].
  - rewrite take_while_all, drop_while_all by (assumption || reflexivity).
    destruct int as [| i0 int']; [discriminate |].
    cbn [List.length Nat.eqb negb andb]. rewrite Hfrac.
    reflexivity.
Qed.

Lemma conversion_of_phrase :
  forall p,
    well_formed p = true ->
    conversion_of_match (captures_of p 1, captures_of p 2, captures_of p 3)
    = Ok (request_of p).
Proof.
  intros p Hwf. unfold captures_of, set_capture. cbn [Nat.eqb].
  unfold conversion_of_match, number_text, request_of.
  unfold well_formed in Hwf.
  repeat match type of Hwf with
         | _ && _ = true => apply andb_prop in Hwf; destruct Hwf as [Hwf ?]
         end.
  now rewrite py_float_number.
Qed.

Lemma render_not_empty :
  forall p, well_formed p = true -> exists x xs, render p = x :: xs.
Proof.
  intros p Hwf. unfold well_formed in Hwf.
  repeat match type of Hwf with
         | _ && _ = true => apply andb_prop in Hwf; destruct Hwf as [Hwf ?]
         end.
  unfold render, number_text. destruct (p_int p) as [| i0 int']; [discriminate |].
  cbn [app]. eauto.
Qed.

(** The scan of a text of phrases finds the phrases, in their order. *)
Lemma scan_text_of :
  forall items tail,
    forallb item_ok items = true ->
    no_digit tail = true ->
    scan conversion_pattern 0 (text_of items tail)
    = map (fun item => captures_of (snd item)) items.
Proof.
  intros items tail Hitems Htail.
  induction items as [| [filler p] items IH].
  - cbn. now apply scan_no_digit.
  - cbn [forallb] in Hitems. apply andb_prop in Hitems.
    destruct Hitems as [Hitem Hitems].
    unfold item_ok in Hitem. cbn [fst snd] in Hitem.
    apply andb_prop in Hitem. destruct Hitem as [Hfiller Hp].
    apply andb_prop in Hfiller. destruct Hfiller as [_ Hfiller].
    cbn [text_of map snd]. rewrite scan_no_digit_prefix by assumption.
    pose proof (phrase_accepts p (text_of items tail) Hp) as Hacc.
    destruct (render_not_empty p Hp) as [x [xs Hr]]. rewrite Hr in *.
    rewrite (scan_accepts _ _ _ _ _ Hacc). now rewrite IH.
Qed.

(** ** The orchestrator's extractor *)

Lemma chars_to_str : forall s, chars (to_str s) = s.
Proof. intro s. apply list_ascii_of_string_of_list_ascii. Qed.

Lemma collect_phrases :
  forall items,
    forallb item_ok items = true ->
    collect conversion_of_match
      (map (fun caps : captures => (caps 1, caps 2, caps 3))
         (map (fun item : text * phrase => captures_of (snd item)) items))
    = Ok (map (fun item => request_of (snd item)) items).
Proof.
  intros items Hitems. induction items as [| [filler p] items IH]; [reflexivity |].
  cbn [forallb] in Hitems. apply andb_prop in Hitems. destruct Hitems as [Hitem Hitems].
  unfold item_ok in Hitem. apply andb_prop in Hitem. destruct Hitem as [_ Hp].
  cbn [map collect snd] in *. rewrite (conversion_of_phrase p Hp).
  cbn [obind]. now rewrite (IH Hitems).
Qed.

(** C7 (the code at the failing input).  The text "100 USD into EUR" has
    the shape of the claim, with the separator [into]; the orchestrator's
    extractor returns no request for it, where the claim asks for the
    request of 100 USD into EUR. *)
Theorem extract_conversions_into :
  is_into (p_sep usd_into_eur) = true
  /\ to_str (render usd_into_eur) = "100 USD into EUR"
  /\ _extract_conversions "100 USD into EUR" = Ok []
  /\ _extract_conversions "100 USD into EUR"
     <> Ok [Conversion (PyFloat 100) "USD" "EUR"].
Proof. repeat split; try (vm_compute; reflexivity). vm_compute. discriminate. Qed.

(** The sibling extractor of [validators.py], which nothing calls, does
    know the separator [into] and returns that request; it also maps a
    currency name to its code, and it drops the amounts that are not
    positive and the repeated requests. *)
Example ConversionExtractor_into :
  extract_conversions "100 USD into EUR" = [Conversion (PyFloat 100) "USD" "EUR"].
Proof. vm_compute. reflexivity. Qed.

Example ConversionExtractor_name_zero_repeat :
  extract_conversions "7 yen to usd and 0 usd to eur and 7.0 YEN in USD"
  = [Conversion (PyFloat 7) "JPY" "USD"].
Proof. vm_compute. reflexivity. Qed.

(** X29.  The separators the orchestrator's pattern does know.  For every
    ASCII text made of phrases [<number> <3-letter-code> <sep> <3-letter-code>]
    with [sep] one of [to] and [in], in any letter case, each after a filler
    without digits and followed by a tail without digits, the orchestrator's
    extractor returns one request per phrase, in the left-to-right order of
    the phrases, with the amount the value of its decimal literal and both
    codes in upper case. *)
Theorem extract_conversions_phrases :
  forall items tail,
    forallb item_ok items = true ->
    forallb is_ascii tail = true ->
    no_digit tail = true ->
    _extract_conversions (to_str (text_of items tail))
    = Ok (map (fun item => request_of (snd item)) items).
Proof.
  intros items tail Hitems _ Htail.
  unfold _extract_conversions, findall3.
  rewrite chars_to_str, scan_text_of by assumption.
  now apply collect_phrases.
Qed.

Lemma extract_conversions_phrases_witness :
  to_str (text_of [(chars "Convert ", usd_to_eur); (chars " and ", gbp_in_jpy)]
            (chars ", please"))
  = "Convert 100 USD to EUR and 50.5 gbp IN jpy, please"
  /\ _extract_conversions
       (to_str (text_of [(chars "Convert ", usd_to_eur); (chars " and ", gbp_in_jpy)]
                  (chars ", please")))
     = Ok [Conversion (PyFloat 100) "USD" "EUR"; Conversion (PyFloat (101 # 2)) "GBP" "JPY"].
Proof.
  split; [vm_compute; reflexivity |].
  apply (extract_conversions_phrases
           [(chars "Convert ", usd_to_eur); (chars " and ", gbp_in_jpy)]
           (chars ", please")); vm_compute; reflexivity.
Defined.

(** A text without a digit yields no request. *)
Lemma extract_conversions_no_digit :
  forall query, no_digit (chars query) = true -> _extract_conversions query = Ok [].
Proof.
  intros query H. unfold _extract_conversions, findall3.
  now rewrite scan_no_digit.
Qed.

(** The parser of the chat endpoint, [parse_conversion_query], is not the
    extractor of the orchestrator: it rejects a text without a conversion
    with a [ValueError] that tells the format to use. *)
Example parse_conversion_query_rejects :
  parse_conversion_query "What is the weather?"
  = Raise (ValueError
             ("Invalid conversion format: 'What is the weather?'. "
              ++ "Use format: '100 USD to EUR' or '100 USD to EUR and 50 GBP to JPY'")).
Proof. vm_compute. reflexivity. Qed.

(** *** What the matcher consumes *)

Lemma star_greedy_sound :
  forall (A : Type) c (k : text -> option A) s a,
    star_greedy c k s = Some a ->
    exists xs s', s = xs ++ s' /\ forallb c xs = true /\ k s' = Some a.
Proof.
  intros A c k s a. induction s as [| x s IH]; intro H.
  - exists [], []. auto.
  - cbn in H. destruct (c x) eqn:Hx.
    + destruct (star_greedy c k s) as [a' |] eqn:Hs.
      * injection H as ->. destruct (IH eq_refl) as [xs [s' [-> [Hxs Hk]]]].
        exists (x :: xs), s'. cbn. now rewrite Hx.
      * exists [], (x :: s). auto.
    + exists [], (x :: s). auto.
Qed.


Lemma rmatch_sound :
  forall r (A : Type) s caps (k : text -> captures -> option A) a,
    rmatch r s caps k = Some a ->
    exists xs s' caps', s = xs ++ s' /\ lang r xs /\ k s' caps' = Some a.
Proof.
  induction r as [| c | r1 IH1 r2 IH2 | r1 IH1 r2 IH2 | c | r1 IH1 | j r1 IH1];
    intros A s caps k a H; cbn [rmatch lang] in *.
  - exists [], s, caps. auto.
  - destruct s as [| x s]; [discriminate |].
    destruct (c x) eqn:Hx; [| discriminate].
    exists [x], s, caps. split; [reflexivity |]. split; [| exact H]. now exists x.
  - destruct (IH1 _ _ _ _ _ H) as [xs1 [s1 [caps1 [-> [H1 Hk1]]]]].
    destruct (IH2 _ _ _ _ _ Hk1) as [xs2 [s2 [caps2 [-> [H2 Hk2]]]]].
    exists (xs1 ++ xs2), s2, caps2. split; [now rewrite app_assoc |].
    split; [| exact Hk2]. now exists xs1, xs2.
  - destruct (rmatch r1 s caps k) as [a' |] eqn:Hr1.
    + injection H as ->.
      destruct (IH1 _ _ _ _ _ Hr1) as [xs [s' [caps' [-> [H1 Hk]]]]].
      exists xs, s', caps'. auto.
    + destruct (IH2 _ _ _ _ _ H) as [xs [s' [caps' [-> [H2 Hk]]]]].
      exists xs, s', caps'. auto.
  - destruct (star_greedy_sound _ _ _ _ _ H) as [xs [s' [-> [Hxs Hk]]]].
    exists xs, s', caps. auto.
  - destruct (rmatch r1 s caps k) as [a' |] eqn:Hr1.
    + injection H as ->.
      destruct (IH1 _ _ _ _ _ Hr1) as [xs [s' [caps' [-> [H1 Hk]]]]].
      exists xs, s', caps'. auto.
    + exists [], s, caps. auto.
  - destruct (IH1 _ _ _ _ _ H) as [xs [s' [caps' [Hs [H1 Hk]]]]].
    eexists xs, s', _. split; [exact Hs |]. split; [exact H1 | exact Hk].
Qed.

Lemma lang_plus :
  forall c xs,
    lang (plus c) xs ->
    exists x rest, xs = x :: rest /\ c x = true /\ forallb c rest = true.
Proof.
  intros c xs H. unfold plus in H. cbn [lang] in H.
  destruct H as [a [b [-> [[x [-> Hx]] Hb]]]]. now exists x, b.
Qed.

Lemma lang_rep3 :
  forall c xs, lang (rep3 c) xs -> (List.length xs =? 3) && forallb c xs = true.
Proof.
  intros c xs H. unfold rep3 in H. cbn [lang] in H.
  destruct H as [a [b [-> [[x [-> Hx]] [a' [b' [-> [[y [-> Hy]] [z [-> Hz]]]]]]]]]].
  cbn. now rewrite Hx, Hy, Hz.
Qed.

Lemma lang_lit2 :
  forall a b xs,
    lang (lit_ci [a; b]) xs ->
    exists x y, xs = [x; y] /\ is_char_ci a x = true /\ is_char_ci b y = true.
Proof.
  intros a b xs H. cbn [lit_ci lang] in H.
  destruct H as [u [v [-> [[x [-> Hx]] [u' [v' [-> [[y [-> Hy]] ->]]]]]]]].
  now exists x, y.
Qed.

Lemma point_is_point : forall x, is_char_ci "." x = true -> x = "."%char.
Proof. intro x. ascii_cases x. Qed.

(** What [number_re] matches: digits, then possibly a point and digits. *)
Lemma lang_number :
  forall xs,
    lang number_re xs ->
    exists ip fp,
      xs = ip ++ match fp with
                 | [] => []
                 | _ => "."%char :: fp
                 end
      /\ negb (List.length ip =? 0) && forallb is_digit ip = true
      /\ forallb is_digit fp = true.
Proof.
  intros xs H. unfold number_re in H. cbn [lang] in H.
  destruct H as [a [b [-> [Ha Hb]]]].
  apply lang_plus in Ha. destruct Ha as [x [ds [-> [Hx Hds]]]].
  destruct Hb as [Hb | ->].
  - destruct Hb as [u [v [-> [Hu Hv]]]].
    change (lit ".") with (lit_ci ["."%char]) in Hu. cbn [lit_ci lang] in Hu.
    destruct Hu as [u1 [u2 [-> [[p [-> Hp]] ->]]]].
    apply point_is_point in Hp. subst p.
    apply lang_plus in Hv. destruct Hv as [f0 [fs [-> [Hf0 Hfs]]]].
    exists (x :: ds), (f0 :: fs). cbn. now rewrite Hx, Hds, Hf0, Hfs.
  - exists (x :: ds), []. cbn. now rewrite Hx, Hds.
Qed.

(** A text the orchestrator's pattern matches is a well-formed phrase. *)
Lemma conversion_pattern_lang :
  forall xs,
    lang conversion_pattern xs -> exists p, well_formed p = true /\ xs = render p.
Proof.
  intros xs H. unfold conversion_pattern in H. cbn [lang] in H.
  destruct H as [n [r1 [-> [Hn H]]]].
  destruct H as [ws1 [r2 [-> [Hws1 H]]]].
  destruct H as [source [r3 [-> [Hsource H]]]].
  destruct H as [ws2 [r4 [-> [Hws2 H]]]].
  destruct H as [sep [r5 [-> [Hsep H]]]].
  destruct H as [ws3 [target [-> [Hws3 Htarget]]]].
  apply lang_number in Hn. destruct Hn as [ip [fp [-> [Hip Hfp]]]].
  apply lang_rep3 in Hsource. apply lang_rep3 in Htarget.
  assert (Hto : is_to sep || is_in sep = true).
  { destruct Hsep as [Hsep | Hsep];
      [change (lit "to") with (lit_ci ["t"%char; "o"%char]) in Hsep
      | change (lit "in") with (lit_ci ["i"%char; "n"%char]) in Hsep];
      apply lang_lit2 in Hsep; destruct Hsep as [x [y [-> [Hx Hy]]]];
      cbn [is_to is_in]; rewrite Hx, Hy; cbn; auto using orb_true_r. }
  exists {| p_int := ip; p_frac := fp; p_ws1 := ws1; p_source := source;
            p_ws2 := ws2; p_sep := sep; p_ws3 := ws3; p_target := target |}.
  split.
  - unfold well_formed, is_code.
    cbn [p_int p_frac p_ws1 p_source p_ws2 p_sep p_ws3 p_target].
    now rewrite Hip, Hfp, Hws1, Hws2, Hws3, Hsource, Htarget, Hto.
  - unfold render, number_text.
    cbn [p_int p_frac p_ws1 p_source p_ws2 p_sep p_ws3 p_target].
    reflexivity.
Qed.

(** Where the pattern matches, a phrase begins. *)
Lemma match_at_phrase :
  forall s n caps,
    match_at conversion_pattern s = Some (n, caps) ->
    exists p after, well_formed p = true /\ s = render p ++ after.
Proof.
  intros s n caps H. unfold match_at in H.
  apply rmatch_sound in H. destruct H as [xs [s' [caps' [-> [Hlang _]]]]].
  destruct (conversion_pattern_lang xs Hlang) as [p [Hp ->]].
  now exists p, s'.
Qed.

Lemma scan_no_phrase :
  forall s before skip,
    no_phrase (before ++ s) -> scan conversion_pattern skip s = [].
Proof.
  intros s. induction s as [| x s IH]; intros before skip H.
  - destruct skip; [| reflexivity]. cbn [scan].
    destruct (match_at conversion_pattern []) as [[n caps] |] eqn:Hm; [| reflexivity].
    exfalso. destruct (match_at_phrase _ _ _ Hm) as [p [after [Hp Hs]]].
    apply (H before p after Hp). now rewrite Hs.
  - assert (Hrest : forall skip', scan conversion_pattern skip' s = []).
    { intro skip'. apply (IH (before ++ [x])). now rewrite <- app_assoc. }
    destruct skip; cbn [scan]; [| apply Hrest].
    destruct (match_at conversion_pattern (x :: s)) as [[n caps] |] eqn:Hm;
      [| apply Hrest].
    exfalso. destruct (match_at_phrase _ _ _ Hm) as [p [after [Hp Hs]]].
    apply (H before p after Hp). now rewrite Hs.
Qed.

(** A phrase holds a digit. *)
Lemma no_digit_no_phrase : forall s, no_digit s = true -> no_phrase s.
Proof.
  intros s H before p after Hp ->.
  unfold no_digit in H. rewrite !forallb_app in H.
  apply andb_prop in H. destruct H as [_ H].
  apply andb_prop in H. destruct H as [H _].
  unfold well_formed in Hp. split_andb.
  unfold render, number_text in H. rewrite !forallb_app in H.
  destruct (p_int p) as [| d ds]; [discriminate |].
  assert (Hd : is_digit d = true).
  { match goal with
    | Hds : forallb is_digit (d :: ds) = true |- _ =>
        cbn in Hds; now apply andb_prop in Hds
    end. }
  cbn in H. rewrite Hd in H. discriminate.
Qed.




(** ** The extractor never raises

    Whatever the text, the first group of a match of the orchestrator's
    pattern is a decimal literal, so [float] accepts it. *)

(** A pattern without the group [i] leaves the capture [i] as it is. *)
Lemma rmatch_preserves :
  forall r i,
    group_free i r = true ->
    forall (A : Type) s caps (k : text -> captures -> option A) a,
      rmatch r s caps k = Some a ->
      exists s' caps', k s' caps' = Some a /\ caps' i = caps i.
Proof.
  induction r as [| c | r1 IH1 r2 IH2 | r1 IH1 r2 IH2 | c | r1 IH1 | j r1 IH1];
    intros i Hfree A s caps k a H; cbn [rmatch group_free] in *.
  - eauto.
  - destruct s as [| x s]; [discriminate |]. destruct (c x); [eauto | discriminate].
  - apply andb_prop in Hfree. destruct Hfree as [H1 H2].
    destruct (IH1 i H1 _ _ _ _ _ H) as [s1 [caps1 [Hk1 Hc1]]].
    destruct (IH2 i H2 _ _ _ _ _ Hk1) as [s2 [caps2 [Hk2 Hc2]]].
    exists s2, caps2. split; [assumption | congruence].
  - apply andb_prop in Hfree. destruct Hfree as [H1 H2].
    destruct (rmatch r1 s caps k) as [a' |] eqn:Hr1.
    + injection H as ->. eauto.
    + eauto.
  - destruct (star_greedy_sound _ _ _ _ _ H) as [xs [s' [_ [_ Hk]]]]. eauto.
  - destruct (rmatch r1 s caps k) as [a' |] eqn:Hr1.
    + injection H as ->. eauto.
    + eauto.
  - apply andb_prop in Hfree. destruct Hfree as [Hj H1].
    destruct (IH1 i H1 _ _ _ _ _ H) as [s1 [caps1 [Hk1 Hc1]]].
    eexists. eexists. split; [exact Hk1 |].
    unfold set_capture. rewrite Nat.eqb_sym.
    destruct (j =? i); [discriminate | assumption].
Qed.

Lemma point_char : forall x, is_char_ci "." x = true -> (code_of x =? 46) = true.
Proof. intro x. ascii_cases x. Qed.

Lemma point_not_digit : forall x, is_char_ci "." x = true -> is_digit x = false.
Proof. intro x. ascii_cases x. Qed.

(** What [number_re] consumes is a literal [float] accepts. *)
Lemma number_re_sound :
  forall (A : Type) s caps (k : text -> captures -> option A) a,
    rmatch number_re s caps k = Some a ->
    exists num s' q,
      s = num ++ s' /\ py_float num = Some q /\ k s' caps = Some a.
Proof.
  intros A s caps k a H. unfold number_re, plus in H. cbn [rmatch] in H.
  destruct s as [| i0 s1]; [discriminate |].
  destruct (is_digit i0) eqn:Hi0; [| discriminate].
  apply star_greedy_sound in H. destruct H as [ds [s2 [-> [Hds H]]]].
  assert (Hplain : forall rest, k rest caps = Some a -> s2 = rest ->
            exists num s' q, i0 :: ds ++ s2 = num ++ s' /\ py_float num = Some q
                             /\ k s' caps = Some a).
  { intros rest Hk ->. exists (i0 :: ds), rest.
    exists (decimal_value (i0 :: ds) []). split; [reflexivity |]. split; [| exact Hk].
    pose proof (py_float_number (i0 :: ds) []) as Hf. cbn [app] in Hf.
    rewrite app_nil_r in Hf. apply Hf; cbn; try reflexivity. now rewrite Hi0. }
  match type of H with
  | match ?m with _ => _ end = _ => destruct m as [a' |] eqn:Hfrac
  end; [injection H as -> | now apply (Hplain s2)].
  change (lit ".") with (RSeq (RClass (is_char_ci ".")) REmpty) in Hfrac.
  cbn [rmatch] in Hfrac.
  destruct s2 as [| p s3]; [discriminate |].
  destruct (is_char_ci "." p) eqn:Hp; [| discriminate].
  destruct s3 as [| f0 s4]; [discriminate |].
  destruct (is_digit f0) eqn:Hf0; [| discriminate].
  apply star_greedy_sound in Hfrac. destruct Hfrac as [fs [s5 [-> [Hfs Hk]]]].
  exists ((i0 :: ds) ++ p :: f0 :: fs), s5.
  exists (decimal_value (i0 :: ds) (f0 :: fs)).
  split; [cbn; now rewrite <- app_assoc |]. split; [| exact Hk].
  unfold py_float.
  rewrite take_while_all, drop_while_all;
    try (cbn; now rewrite ?Hi0, ?Hds, ?(point_not_digit p Hp)).
  rewrite (point_char p Hp). cbn [List.length Nat.eqb negb andb forallb].
  now rewrite Hf0, Hfs.
Qed.

Lemma conversion_pattern_first_group :
  forall s n caps,
    match_at conversion_pattern s = Some (n, caps) ->
    exists q, py_float (caps 1) = Some q.
Proof.
  intros s n caps H. unfold match_at, conversion_pattern in H.
  match type of H with
  | rmatch (RSeq _ ?r) _ _ _ = _ =>
      set (after_number := r) in H;
      assert (Hfree : group_free 1 after_number = true) by reflexivity;
      clearbody after_number
  end.
  cbn [rmatch] in H.
  apply number_re_sound in H. destruct H as [num [s' [q [-> [Hq H]]]]].
  rewrite firstn_consumed in H.
  apply (rmatch_preserves after_number 1 Hfree) in H.
  destruct H as [s2 [caps2 [Hk Hc]]]. injection Hk as _ <-.
  exists q. now rewrite Hc.
Qed.

Lemma scan_matches :
  forall r s skip caps,
    In caps (scan r skip s) -> exists s' n, match_at r s' = Some (n, caps).
Proof.
  intros r s. induction s as [| x s IH]; intros skip caps H.
  - destruct skip; cbn [scan] in H; [| contradiction].
    destruct (match_at r []) as [[n caps'] |] eqn:Hm; [| contradiction].
    destruct H as [<- | []]. eauto.
  - destruct skip; cbn [scan] in H; [| eauto].
    destruct (match_at r (x :: s)) as [[n caps'] |] eqn:Hm; [| eauto].
    destruct H as [<- | H]; eauto.
Qed.

Lemma collect_total :
  forall (A B : Type) (f : A -> outcome B) l,
    (forall x, In x l -> exists y, f x = Ok y) ->
    exists ys, collect f l = Ok ys.
Proof.
  intros A B f l H. induction l as [| x l IH]; [now exists [] |].
  destruct (H x (or_introl eq_refl)) as [y Hy].
  destruct IH as [ys Hys]; [intros z Hz; apply H; now right |].
  exists (y :: ys). cbn [collect]. now rewrite Hy, Hys.
Qed.

(** [_extract_conversions] returns a list for every text: it never
    raises. *)
Lemma extract_conversions_total :
  forall query, exists conversions, _extract_conversions query = Ok conversions.
Proof.
  intro query. unfold _extract_conversions, findall3.
  apply collect_total. intros m Hm.
  apply in_map_iff in Hm. destruct Hm as [caps [<- Hin]].
  apply scan_matches in Hin. destruct Hin as [s' [n Hmatch]].
  apply conversion_pattern_first_group in Hmatch. destruct Hmatch as [q Hq].
  unfold conversion_of_match. rewrite Hq. eauto.
Qed.



(** * Further properties *)

(** ** The rate client *)

(** X1.  A conversion that names a currency outside the allow-list fails
    before any network call, with a [ValueError] that names the source code
    when it is the one not supported, and the target code otherwise. *)
Theorem convert_currency_unsupported :
  forall w amount from_currency to_currency log,
    supported_pair from_currency to_currency = false ->
    convert_currency w amount from_currency to_currency log
    = (Raise (ValueError
                (if mem from_currency supported_currencies
                 then "Unsupported target currency: " ++ to_currency
                 else "Unsupported source currency: " ++ from_currency)),
       log).
Proof.
  intros w amount f t0 log H. rewrite convert_currency_run.
  unfold conversion_outcome. rewrite H. unfold supported_pair in H.
  destruct (mem f supported_currencies); cbn [negb andb] in *.
  - now rewrite H.
  - reflexivity.
Qed.

Lemma convert_currency_unsupported_witness :
  convert_currency market_world (PyFloat 1) "USD" "XXX" []
  = (Raise (ValueError "Unsupported target currency: XXX"), []).
Proof.
  apply (convert_currency_unsupported market_world (PyFloat 1) "USD" "XXX" []).
  reflexivity.
Defined.

(** X2.  Whatever the rate service does, [convert_currency] returns a result
    or raises a [ValueError] (the decoder's [JSONDecodeError] is one): no
    other exception reaches its caller. *)
Theorem convert_currency_raises_value_errors :
  forall w amount from_currency to_currency log,
    (exists r, fst (convert_currency w amount from_currency to_currency log) = Ok r)
    \/ (exists e, fst (convert_currency w amount from_currency to_currency log) = Raise e
                  /\ is_ValueError e = true).
Proof.
  intros w amount f t0 log. rewrite convert_currency_run. cbn [fst].
  unfold conversion_outcome, generic_failure.
  repeat match goal with
         | |- context [if ?b then _ else _] => destruct b eqn:?
         | |- context [match ?x with _ => _ end] => destruct x eqn:?
         end; eauto.
Qed.

(** A division succeeds when the divisor is not zero and no [int] operand
    is too large for a [float]. *)
Lemma division_succeeds :
  forall a b,
    q_is_zero (num_value b) = false ->
    int_overflows a = false ->
    int_overflows b = false ->
    division_error a b = None.
Proof.
  intros a b Hz Ha Hb. unfold division_error.
  destruct a as [x | x], b as [y | y];
    try (rewrite Ha, Hb, Hz; reflexivity).
  assert (Hy : (y =? 0)%Z = false).
  { apply Z.eqb_neq. intros ->. discriminate. }
  rewrite Hy. cbn [int_overflows] in Ha.
  assert (Hpos : (0 < float_limit)%Z) by reflexivity.
  apply Z.leb_gt in Ha. apply Z.eqb_neq in Hy.
  assert (Hlt : (Z.abs x < float_limit * Z.abs y)%Z) by nia.
  apply Z.leb_gt in Hlt. now rewrite Hlt.
Qed.



(** ** The sequential batch *)

Lemma batch_convert_currencies_isolation_witness :
  exists entries log',
    batch_convert_currencies market_world
      ([Conversion (PyFloat 100) "USD" "EUR"]
       ++ Conversion (PyFloat 1) "XXX" "EUR" :: [Conversion (PyFloat 2) "GBP" "EUR"]) []
    = (Ok entries, log')
    /\ List.length entries
       = List.length ([Conversion (PyFloat 100) "USD" "EUR"]
                      ++ Conversion (PyFloat 1) "XXX" "EUR"
                         :: [Conversion (PyFloat 2) "GBP" "EUR"])
    /\ (forall i c,
          nth_error ([Conversion (PyFloat 100) "USD" "EUR"]
                     ++ Conversion (PyFloat 1) "XXX" "EUR"
                        :: [Conversion (PyFloat 2) "GBP" "EUR"]) i = Some c ->
          nth_error entries i = Some (entry_of market_world c))
    /\ (forall i e, nth_error entries i = Some e ->
                    (has_error e = true
                     <-> i = List.length [Conversion (PyFloat 100) "USD" "EUR"]))
    /\ (forall c, In c [Conversion (PyFloat 2) "GBP" "EUR"] ->
                  In (GetLatest (amount c) (from_currency c) (to_currency c)) log').
Proof.
  apply (batch_convert_currencies_isolation market_world
           [Conversion (PyFloat 100) "USD" "EUR"]
           (Conversion (PyFloat 1) "XXX" "EUR")
           [Conversion (PyFloat 2) "GBP" "EUR"] []).
  - intros c [<- | [<- | []]]; eexists; vm_compute; reflexivity.
  - eexists. vm_compute. reflexivity.
Defined.

(** X4.  The sequential batch never raises and returns one entry per
    request, in the order of the requests; the entry of a request is what
    [convert_currency] gives for that request alone, whatever the other
    requests of the batch are. *)
Theorem batch_convert_currencies_independent :
  forall w conversions log,
    exists entries log',
      batch_convert_currencies w conversions log = (Ok entries, log')
      /\ List.length entries = List.length conversions
      /\ forall i c,
           nth_error conversions i = Some c ->
           nth_error entries i
           = Some match fst (convert_currency w (amount c) (from_currency c)
                               (to_currency c) []) with
                  | Ok r => Success r
                  | Raise e =>
                      BatchError (str_exn e) (amount c) (from_currency c) (to_currency c)
                  end.
Proof.
  intros w conversions log.
  exists (map (entry_of w) conversions), (log ++ flat_map calls_of conversions).
  split; [apply batch_convert_currencies_run |].
  split; [apply length_map |].
  intros i c Hc. rewrite convert_currency_run. cbn [fst].
  now apply (map_nth_error (entry_of w)).
Qed.

(** ** The currency list and the historical rates *)

(** X5.  [get_supported_currencies] sends exactly one request.  It returns
    a mapping exactly when the service answers 2xx with a body that decodes,
    and the mapping is that body; in every other case it raises an exception
    whose message begins with "Failed to fetch supported currencies: ". *)
Theorem get_supported_currencies_outcome :
  forall w log,
    snd (get_supported_currencies w log) = log ++ [GetCurrencies]
    /\ (forall mapping,
          fst (get_supported_currencies w log) = Ok mapping
          <-> exists r,
                currencies (rate_api w) = Replied r /\ status_ok r = true
                /\ json r = Ok mapping)
    /\ (forall e,
          fst (get_supported_currencies w log) = Raise e ->
          exists reason,
            e = PlainException ("Failed to fetch supported currencies: " ++ reason)).
Proof.
  intros w log. unfold get_supported_currencies, status_ok. unfold_monad.
  destruct (currencies (rate_api w)) as [msg | r] eqn:Hreply; reduce.
  - split; [reflexivity |]. split.
    + intro mapping. split; [discriminate | intros [r [Hr _]]; discriminate].
    + intros e He. injection He as <-. eexists. reflexivity.
  - destruct ((200 <=? status_code r) && (status_code r <? 300)) eqn:Hok; reduce.
    + destruct (json r) as [mapping | e] eqn:Hjson; reduce.
      * split; [reflexivity |]. split.
        -- intro mapping'. split.
           ++ intro H. injection H as <-. exists r. auto.
           ++ intros [r' [Hr' [_ Hj]]]. injection Hr' as <-.
              rewrite Hjson in Hj. now injection Hj as <-.
        -- discriminate.
      * split; [reflexivity |]. split.
        -- intro mapping. split; [discriminate |].
           intros [r' [Hr' [_ Hj]]]. injection Hr' as <-.
           rewrite Hjson in Hj. discriminate.
        -- intros e' He. injection He as <-. eexists. reflexivity.
    + split; [reflexivity |]. split.
      * intro mapping. split; [discriminate |].
        intros [r' [Hr' [Hs _]]]. injection Hr' as <-.
        rewrite Hok in Hs. discriminate.
      * intros e He. injection He as <-. eexists. reflexivity.
Qed.

(** X6.  A date that [strptime] refuses, or that lies in the future, makes
    [get_historical_rate] fail before any network call, with an exception
    whose message begins with "Failed to fetch historical rate: ". *)
Theorem get_historical_rate_rejects_locally :
  forall w date_str from_currency to_currency log,
    (exists msg, strptime date_str = Raise (ValueError msg))
    \/ (exists d, strptime date_str = Ok d /\ date_gt d (today w) = true) ->
    exists reason,
      get_historical_rate w date_str from_currency to_currency log
      = (Raise (PlainException ("Failed to fetch historical rate: " ++ reason)), log).
Proof.
  intros w s f t0 log [[msg H] | [d [H Hgt]]].
  - now apply (get_historical_rate_malformed w s f t0 msg log).
  - eexists. now apply (get_historical_rate_future w s f t0 d log).
Qed.

Lemma get_historical_rate_rejects_locally_witness :
  exists reason,
    get_historical_rate market_world "15/01/2024" "USD" "EUR" []
    = (Raise (PlainException ("Failed to fetch historical rate: " ++ reason)), []).
Proof.
  apply (get_historical_rate_rejects_locally market_world "15/01/2024" "USD" "EUR" []).
  left. eexists. vm_compute. reflexivity.
Defined.



(** With the default base URL of [settings.py], which ends in a query
    string, the date is appended to that query string, not to the path. *)
Example default_base_url_dated_request :
  rate_request FRANKFURTER_BASE_URL (GetDated "2024-01-10" "USD" "EUR")
  = Some {| url := "https://api.frankfurter.app/latest?amount=100&from=USD&to=EUR/2024-01-10";
            params := [("from", ParamStr "USD"); ("to", ParamStr "EUR")] |}.
Proof. reflexivity. Qed.

(** [strptime] raises nothing but [ValueError]. *)
Lemma strptime_raises_value_error :
  forall s e, strptime s = Raise e -> exists msg, e = ValueError msg.
Proof.
  intros s e. unfold strptime.
  destruct (match_at date_format_re (chars s)) as [[n caps] |].
  - repeat match goal with
           | |- context [if ?b then _ else _] => destruct b
           end; intro H; try discriminate; injection H as <-; eauto.
  - intro H. injection H as <-. eauto.
Qed.

(** X8.  The only [ValueError] [get_historical_rate] raises is "Invalid
    request: ..."; every other failure (a date it refuses itself, a rate the
    reply lacks, a transport or decoding failure) is a plain exception.  When
    the date is accepted and the rate service answers 400, the failure is
    that [ValueError], with the text of the response. *)
Theorem get_historical_rate_errors :
  forall w date_str from_currency to_currency log,
    ((exists result,
        fst (get_historical_rate w date_str from_currency to_currency log) = Ok result)
     \/ (exists body,
           fst (get_historical_rate w date_str from_currency to_currency log)
           = Raise (ValueError ("Invalid request: " ++ body)))
     \/ (exists msg,
           fst (get_historical_rate w date_str from_currency to_currency log)
           = Raise (PlainException msg)))
    /\ (forall d r,
          strptime date_str = Ok d ->
          date_gt d (today w) = false ->
          dated (rate_api w) date_str (upper_str from_currency) (upper_str to_currency)
          = Replied r ->
          status_code r = 400 ->
          fst (get_historical_rate w date_str from_currency to_currency log)
          = Raise (ValueError ("Invalid request: " ++ resp_text r))).
Proof.
  intros w s f t0 log. unfold get_historical_rate, upper_str. unfold_monad. split.
  - destruct (strptime s) as [d | e] eqn:Hparse; reduce.
    + destruct (date_gt d (today w)); reduce;
        [right; right; eexists; reflexivity |].
      destruct (dated (rate_api w) s (to_str (upper (chars f))) (to_str (upper (chars t0))))
        as [msg | r] eqn:Hreply; reduce;
        [right; right; eexists; reflexivity |].
      destruct ((200 <=? status_code r) && (status_code r <? 300)); reduce.
      * destruct (json r) as [data | e]; reduce.
        -- destruct (rates data) as [table |]; reduce;
             [| right; right; eexists; reflexivity].
           destruct (lookup (to_str (upper (chars t0))) table); reduce;
             [| right; right; eexists; reflexivity].
           destruct (date data); reduce;
             [left; eexists; reflexivity | right; right; eexists; reflexivity].
        -- destruct (is_HTTPStatusError e) eqn:He; reduce.
           ++ destruct e; try discriminate.
              destruct (status =? 400); reduce; right;
                [left | right]; eexists; reflexivity.
           ++ right; right; eexists; reflexivity.
      * destruct (status_code r =? 400) eqn:H400; reduce; right;
          [left | right]; eexists; reflexivity.
    + destruct (strptime_raises_value_error s e Hparse) as [msg ->].
      cbn [is_ValueError str_exn].
      destruct (contains "time data" msg); reduce;
        right; right; eexists; reflexivity.
  - intros d r Hparse Hgt Hreply H400. rewrite Hparse. reduce. rewrite Hgt. reduce.
    rewrite Hreply. reduce. rewrite H400.
    change ((200 <=? 400) && (400 <? 300)) with false. reduce.
    unfold status_error. rewrite H400. reflexivity.
Qed.

Lemma get_historical_rate_errors_witness :
  fst (get_historical_rate bad_request_world "2024-01-10" "USD" "EUR" [])
  = Raise (ValueError ("Invalid request: " ++ "invalid date")).
Proof.
  apply (proj2 (get_historical_rate_errors bad_request_world "2024-01-10" "USD" "EUR" [])
           (2024, 1, 10)
           (Response 400 "invalid date" (Raise (JSONDecodeError "Expecting value"))));
    vm_compute; reflexivity.
Defined.

(** ** The parser of the chat endpoint *)

Lemma split_go_not_empty :
  forall sep s skip cur, split_go sep skip cur s <> [].
Proof.
  intros sep s. induction s as [| c s IH]; intros skip cur; cbn [split_go].
  - discriminate.
  - destruct skip; [| apply IH].
    destruct (is_prefix sep (c :: s)); [discriminate | apply IH].
Qed.

Lemma collect_length :
  forall (A B : Type) (f : A -> outcome B) l ys,
    collect f l = Ok ys -> List.length ys = List.length l.
Proof.
  intros A B f l. induction l as [| x l IH]; intros ys H; cbn [collect] in H.
  - now injection H as <-.
  - destruct (f x) as [y | e]; [| discriminate]. cbn [obind] in H.
    destruct (collect f l) as [ys' | e]; [| discriminate]. cbn [obind] in H.
    injection H as <-. cbn. now rewrite (IH ys' eq_refl).
Qed.

Lemma collect_raises :
  forall (A B : Type) (f : A -> outcome B) l e,
    collect f l = Raise e -> exists x, In x l /\ f x = Raise e.
Proof.
  intros A B f l e. induction l as [| x l IH]; intro H; cbn [collect] in H.
  - discriminate.
  - destruct (f x) as [y | e'] eqn:Hx; cbn [obind] in H.
    + destruct (collect f l) as [ys' | e'] eqn:Hl; cbn [obind] in H; [discriminate |].
      injection H as ->. destruct (IH eq_refl) as [z [Hin Hz]].
      exists z. split; [now right | assumption].
    + injection H as ->. exists x. split; [now left | assumption].
Qed.

(** The first group of a match of the parser's pattern is a literal [float]
    accepts. *)
Lemma parse_pattern_first_group :
  forall s n caps,
    match_at parse_pattern s = Some (n, caps) ->
    exists q, py_float (caps 1) = Some q.
Proof.
  intros s n caps H. unfold match_at, parse_pattern in H.
  match type of H with
  | rmatch (RSeq ?v (RSeq _ ?r)) _ _ _ = _ =>
      set (verb := v) in H; set (after_number := r) in H;
      assert (Hverb : group_free 1 verb = true) by reflexivity;
      assert (Hfree : group_free 1 after_number = true) by reflexivity;
      clearbody verb after_number
  end.
  cbn [rmatch] in H.
  apply (rmatch_preserves verb 1 Hverb) in H. destruct H as [s1 [caps1 [H _]]].
  apply number_re_sound in H. destruct H as [num [s' [q [-> [Hq H]]]]].
  rewrite firstn_consumed in H.
  apply (rmatch_preserves after_number 1 Hfree) in H.
  destruct H as [s2 [caps2 [Hk Hc]]]. injection Hk as _ <-.
  exists q. now rewrite Hc.
Qed.

(** What [parse_request] raises is the error that quotes the part. *)
Lemma parse_request_raises :
  forall part e,
    parse_request part = Raise e ->
    e = ValueError ("Invalid conversion format: '" ++ to_str part ++ "'. " ++ format_hint).
Proof.
  intros part e. unfold parse_request.
  destruct (match_at parse_pattern (strip part)) as [[n caps] |] eqn:Hm.
  - destruct (parse_pattern_first_group _ _ _ Hm) as [q Hq].
    unfold conversion_of_match. rewrite Hq. discriminate.
  - intro H. now injection H as <-.
Qed.

Lemma parse_conversion_query_returns :
  forall query conversions,
    parse_conversion_query query = Ok conversions ->
    conversions <> []
    /\ List.length conversions = List.length (split (chars " and ") (chars query)).
Proof.
  intros query conversions. unfold parse_conversion_query.
  destruct (collect parse_request (map strip (split (chars " and ") (chars query))))
    as [cs | e] eqn:Hc; cbn [obind]; [| discriminate].
  pose proof (collect_length _ _ _ _ _ Hc) as Hlen. rewrite length_map in Hlen.
  destruct cs as [| c rest]; [discriminate |].
  intro H. injection H as <-. split; [discriminate | exact Hlen].
Qed.

Lemma parse_conversion_query_raises :
  forall query e,
    parse_conversion_query query = Raise e ->
    exists part,
      In part (map strip (split (chars " and ") (chars query)))
      /\ e = ValueError ("Invalid conversion format: '" ++ to_str part
                           ++ "'. " ++ format_hint).
Proof.
  intros query e. unfold parse_conversion_query.
  destruct (collect parse_request (map strip (split (chars " and ") (chars query))))
    as [cs | e'] eqn:Hc; cbn [obind].
  - destruct cs; [| discriminate].
    exfalso. pose proof (collect_length _ _ _ _ _ Hc) as Hlen.
    rewrite length_map in Hlen. unfold split in Hlen.
    destruct (split_go (chars " and ") 0 [] (chars query)) eqn:Hs;
      [now apply split_go_not_empty in Hs | discriminate].
  - intro H. injection H as ->. apply collect_raises in Hc.
    destruct Hc as [part [Hin Hpart]]. exists part. split; [exact Hin |].
    now apply parse_request_raises.
Qed.

Lemma collect_forall2 :
  forall (A B : Type) (f : A -> outcome B) l ys,
    collect f l = Ok ys -> Forall2 (fun x y => f x = Ok y) l ys.
Proof.
  intros A B f l. induction l as [| x l IH]; intros ys H; cbn [collect] in H.
  - injection H as <-. constructor.
  - destruct (f x) as [y | e] eqn:Hx; [| discriminate]. cbn [obind] in H.
    destruct (collect f l) as [ys' | e]; [| discriminate]. cbn [obind] in H.
    injection H as <-. constructor; [exact Hx | now apply IH].
Qed.

Lemma collect_first_raise :
  forall (A B : Type) (f : A -> outcome B) l e,
    collect f l = Raise e ->
    exists before x after,
      l = before ++ x :: after
      /\ Forall (fun p => exists y, f p = Ok y) before
      /\ f x = Raise e.
Proof.
  intros A B f l e. induction l as [| x l IH]; intro H; cbn [collect] in H.
  - discriminate.
  - destruct (f x) as [y | e'] eqn:Hx; cbn [obind] in H.
    + destruct (collect f l) as [ys' | e'] eqn:Hl; cbn [obind] in H; [discriminate |].
      injection H as ->. destruct (IH eq_refl) as [before [z [after [-> [Hb Hz]]]]].
      exists (x :: before), z, after. split; [reflexivity |].
      split; [| exact Hz]. constructor; [now exists y | exact Hb].
    + injection H as ->. exists [], x, l. repeat split; [constructor | exact Hx].
Qed.

(** X9.  [parse_conversion_query] cuts the query, an ASCII text, at the
    separators " and " and strips the parts.  Either every part is a conversion: then it
    returns, in the order of the parts, the request read from each part, and
    the list is not empty.  Or some part does not match the pattern: then it
    raises the [ValueError] that quotes the first such part and tells the
    format to use, every part before it being a conversion.  Its last
    error, "No valid currency conversions found in query", is never
    raised. *)
Theorem parse_conversion_query_outcome :
  forall query,
    ascii_only query = true ->
    (exists conversions,
       parse_conversion_query query = Ok conversions
       /\ conversions <> []
       /\ Forall2 (fun part c => parse_request part = Ok c)
            (map strip (split (chars " and ") (chars query))) conversions)
    \/ (exists before part after,
          map strip (split (chars " and ") (chars query)) = before ++ part :: after
          /\ Forall (fun p => exists c, parse_request p = Ok c) before
          /\ match_at parse_pattern (strip part) = None
          /\ parse_conversion_query query
             = Raise (ValueError ("Invalid conversion format: '" ++ to_str part
                                    ++ "'. " ++ format_hint))).
Proof.
  intros query _. unfold parse_conversion_query.
  destruct (collect parse_request (map strip (split (chars " and ") (chars query))))
    as [cs | e] eqn:Hc; cbn [obind].
  - left. exists cs.
    pose proof (collect_length _ _ _ _ _ Hc) as Hlen. rewrite length_map in Hlen.
    destruct cs as [| c rest].
    + exfalso. unfold split in Hlen.
      destruct (split_go (chars " and ") 0 [] (chars query)) eqn:Hs;
        [now apply split_go_not_empty in Hs | discriminate].
    + split; [reflexivity |]. split; [discriminate |].
      now apply collect_forall2.
  - right. apply collect_first_raise in Hc.
    destruct Hc as [before [part [after [Hparts [Hbefore Hpart]]]]].
    exists before, part, after. split; [exact Hparts |]. split; [exact Hbefore |].
    pose proof (parse_request_raises part e Hpart) as ->. split; [| reflexivity].
    unfold parse_request in Hpart.
    destruct (match_at parse_pattern (strip part)) as [[n caps] |] eqn:Hm;
      [| reflexivity].
    destruct (parse_pattern_first_group _ _ _ Hm) as [q Hq].
    unfold conversion_of_match in Hpart. rewrite Hq in Hpart. discriminate.
Qed.

Lemma parse_conversion_query_outcome_witness :
  (exists conversions,
     parse_conversion_query "100 USD to EUR and 50 GBP to JPY" = Ok conversions
     /\ conversions <> []
     /\ Forall2 (fun part c => parse_request part = Ok c)
          (map strip (split (chars " and ") (chars "100 USD to EUR and 50 GBP to JPY")))
          conversions)
  \/ (exists before part after,
        map strip (split (chars " and ") (chars "100 USD to EUR and 50 GBP to JPY"))
        = before ++ part :: after
        /\ Forall (fun p => exists c, parse_request p = Ok c) before
        /\ match_at parse_pattern (strip part) = None
        /\ parse_conversion_query "100 USD to EUR and 50 GBP to JPY"
           = Raise (ValueError ("Invalid conversion format: '" ++ to_str part
                                  ++ "'. " ++ format_hint))).
Proof.
  apply (parse_conversion_query_outcome "100 USD to EUR and 50 GBP to JPY").
  reflexivity.
Defined.

(** *** [split] on a joined text *)

Lemma is_prefix_longer :
  forall p a b, List.length p <= List.length a -> is_prefix p (a ++ b) = is_prefix p a.
Proof.
  induction p as [| x p IH]; intros a b H; [reflexivity |].
  destruct a as [| y a]; cbn in H; [lia |].
  cbn. rewrite IH by lia. reflexivity.
Qed.

Lemma is_prefix_extends :
  forall p a b, is_prefix p a = true -> is_prefix p (a ++ b) = true.
Proof.
  induction p as [| x p IH]; intros a b H; [reflexivity |].
  destruct a as [| y a]; [discriminate |]. cbn in *.
  apply andb_prop in H. destruct H as [H1 H2]. now rewrite H1, IH.
Qed.

Lemma split_go_skip :
  forall sep xs tail cur,
    split_go sep (List.length xs) cur (xs ++ tail) = split_go sep 0 cur tail.
Proof.
  intros sep xs tail cur. induction xs as [| x xs IH]; [reflexivity | exact IH].
Qed.

(** A part without separator, followed by the separator. *)
Lemma split_go_part :
  forall p tail cur,
    no_sep_in p (chars " and") = true ->
    split_go and_sep 0 cur (p ++ and_sep ++ tail)
    = (rev cur ++ p) :: split_go and_sep 0 [] tail.
Proof.
  induction p as [| c p IH]; intros tail cur H.
  - rewrite app_nil_r. cbn [app].
    change (and_sep ++ tail) with (" "%char :: chars "and " ++ tail).
    cbn [split_go]. change (is_prefix and_sep (" "%char :: chars "and " ++ tail)) with true.
    cbv iota. f_equal; try exact (split_go_skip and_sep (chars "and ") tail []).
  - cbn [no_sep_in] in H. apply andb_prop in H. destruct H as [Hc Hp].
    cbn [app split_go].
    assert (Hno : is_prefix and_sep (c :: p ++ and_sep ++ tail) = false).
    { change (and_sep ++ tail) with (chars " and" ++ " "%char :: tail).
      rewrite app_assoc. change (c :: (p ++ chars " and") ++ " "%char :: tail)
        with ((c :: p ++ chars " and") ++ " "%char :: tail).
      rewrite is_prefix_longer.
      - now destruct (is_prefix and_sep (c :: p ++ chars " and")).
      - cbn. rewrite length_app. cbn. lia. }
    rewrite Hno. rewrite IH by assumption.
    cbn [rev]. now rewrite <- app_assoc.
Qed.

(** The last part. *)
Lemma split_go_last :
  forall p cur,
    no_sep_in p (chars " and") = true ->
    split_go and_sep 0 cur p = [rev cur ++ p].
Proof.
  induction p as [| c p IH]; intros cur H.
  - cbn. now rewrite app_nil_r.
  - cbn [no_sep_in] in H. apply andb_prop in H. destruct H as [Hc Hp].
    cbn [split_go].
    destruct (is_prefix and_sep (c :: p)) eqn:Hpre.
    + apply (is_prefix_extends _ _ (chars " and")) in Hpre.
      cbn [app] in Hpre. rewrite Hpre in Hc. discriminate.
    + rewrite IH by assumption. cbn [rev]. now rewrite <- app_assoc.
Qed.

(** [split] undoes [join] on parts that hold no separator. *)
Lemma split_join :
  forall parts,
    parts <> [] ->
    forallb (fun p => no_sep_in p (chars " and")) parts = true ->
    split and_sep (join_text and_sep parts) = parts.
Proof.
  intros parts Hne H. unfold split.
  induction parts as [| p rest IH]; [congruence |].
  cbn [forallb] in H. apply andb_prop in H. destruct H as [Hp Hrest].
  destruct rest as [| p' rest'].
  - cbn [join_text]. now rewrite split_go_last.
  - change (join_text and_sep (p :: p' :: rest'))
      with (p ++ and_sep ++ join_text and_sep (p' :: rest')).
    rewrite split_go_part by assumption. cbn [rev app].
    f_equal. apply IH; [discriminate | assumption].
Qed.

(** *** [strip] and the parser's pattern on a well-formed part *)

Lemma forallb_rev :
  forall (p : ascii -> bool) l, forallb p l = true -> forallb p (rev l) = true.
Proof.
  intros p l H. apply forallb_forall. intros x Hx.
  apply in_rev in Hx. revert x Hx. now apply forallb_forall.
Qed.

Lemma head_not_app :
  forall c a b, a <> [] -> head_not c (a ++ b) = head_not c a.
Proof. intros c [| x a] b H; [congruence | reflexivity]. Qed.

(** [strip] removes the whitespace around a text that neither begins nor
    ends with whitespace. *)
Lemma strip_padded :
  forall lead core trail,
    spaces lead = true -> spaces trail = true ->
    core <> [] ->
    head_not is_space core = true ->
    head_not is_space (rev core) = true ->
    strip (lead ++ core ++ trail) = core.
Proof.
  intros lead core trail Hl Ht Hne Hhead Hlast. unfold strip, spaces in *.
  rewrite drop_while_all; [| assumption | now rewrite head_not_app].
  rewrite rev_app_distr.
  rewrite drop_while_all; [apply rev_involutive | now apply forallb_rev | assumption].
Qed.

Lemma word_not_space : forall x, is_word x = true -> is_space x = false.
Proof. intro x. ascii_cases x. Qed.

Lemma digit_not_space : forall x, is_digit x = true -> is_space x = false.
Proof. intro x. ascii_cases x. Qed.

Lemma digit_not_c : forall x, is_digit x = true -> is_char_ci "c" x = false.
Proof. intro x. ascii_cases x. Qed.

Lemma letter_c_not_space : forall x, is_char_ci "c" x = true -> is_space x = false.
Proof. intro x. ascii_cases x. Qed.

Lemma accepts_lit_ci :
  forall a x rest caps,
    matches_ci a x = true -> accepts (lit_ci a) x rest caps caps.
Proof.
  induction a as [| c a IH]; intros x rest caps H; destruct x as [| y x];
    try discriminate.
  - apply accepts_empty.
  - cbn in H. apply andb_prop in H. destruct H as [Hy Hx].
    apply (accepts_seq _ _ [y] x rest caps caps caps);
      [now apply accepts_class | now apply IH].
Qed.

(** A strict phrase is the first match of the part of the parser's pattern
    after the verb. *)
Lemma strict_phrase_accepts :
  forall p rest caps,
    strict_phrase p = true ->
    accepts
      (RSeq (RGroup 1 number_re)
       (RSeq (plus is_space)
       (RSeq (RGroup 2 (rep3 is_word))
       (RSeq (plus is_space)
       (RSeq (lit "to")
       (RSeq (plus is_space)
             (RGroup 3 (rep3 is_word))))))))
      (render p) rest caps
      (set_capture 3 (p_target p)
         (set_capture 2 (p_source p) (set_capture 1 (number_text p) caps))).
Proof.
  intros [int frac ws1 src ws2 sep ws3 tgt] rest caps Hwf.
  unfold strict_phrase, some_spaces, is_word_code, is_to in Hwf.
  cbn [p_int p_frac p_ws1 p_source p_ws2 p_sep p_ws3 p_target] in Hwf.
  split_andb.
  destruct int as [| i0 int']; [discriminate |].
  destruct ws1 as [| s1 ws1]; [discriminate |].
  destruct ws2 as [| s2 ws2]; [discriminate |].
  destruct ws3 as [| s3 ws3]; [discriminate |].
  destruct src as [| a [| b [| c0 [| ? ?]]]]; try discriminate.
  destruct tgt as [| d [| e [| f [| ? ?]]]]; try discriminate.
  destruct sep as [| x [| y [| ? ?]]]; try discriminate.
  repeat match goal with
         | H : forallb _ (_ :: _) = true |- _ => cbn [forallb] in H
         | H : _ && _ = true |- _ => apply andb_prop in H; destruct H
         end.
  unfold render, number_text.
  cbn [p_int p_frac p_ws1 p_source p_ws2 p_sep p_ws3 p_target].
  eapply accepts_seq.
  { apply accepts_group. apply accepts_number; try assumption; cbn.
    - now rewrite space_not_digit.
    - now rewrite space_not_point. }
  eapply accepts_seq.
  { apply accepts_plus; try assumption. cbn. now rewrite word_not_space. }
  eapply accepts_seq.
  { apply accepts_group. now apply accepts_rep3. }
  eapply accepts_seq.
  { apply accepts_plus; try assumption. cbn. now rewrite letter_t_not_space. }
  eapply accepts_seq.
  { now apply (accepts_lit2 "t"%char "o"%char). }
  eapply accepts_seq.
  { apply accepts_plus; try assumption. cbn. now rewrite word_not_space. }
  apply accepts_group.
  rewrite <- (app_nil_r [d; e; f]) at 1.
  now apply accepts_rep3.
Qed.

Lemma request_core_accepts :
  forall r,
    verb_ok r = true -> strict_phrase (rq_phrase r) = true ->
    match_at parse_pattern (request_core r)
    = Some (List.length (request_core r),
            set_capture 3 (p_target (rq_phrase r))
              (set_capture 2 (p_source (rq_phrase r))
                 (set_capture 1 (number_text (rq_phrase r)) no_captures))).
Proof.
  intros [lead verb vws p trail] Hverb Hp.
  unfold verb_ok, request_core in *. cbn [rq_verb rq_verb_ws rq_phrase] in *.
  rewrite <- (app_nil_r (verb ++ vws ++ render p)) at 1.
  apply match_at_accepts. unfold parse_pattern.
  rewrite app_assoc.
  eapply accepts_seq; [| now apply strict_phrase_accepts].
  destruct verb as [| v verb'].
  - destruct vws; [| discriminate]. cbn [app].
    apply accepts_opt_skipped.
    change (lit "convert") with (RSeq (RClass (is_char_ci "c")) (lit_ci (chars "onvert"))).
    apply rejects_seq, rejects_seq, rejects_class.
    unfold strict_phrase in Hp. split_andb.
    unfold render, number_text. destruct (p_int p) as [| i0 int']; [discriminate |].
    cbn in *. split_andb. now rewrite digit_not_c.
  - apply andb_prop in Hverb. destruct Hverb as [Hv Hws].
    unfold some_spaces in Hws. apply andb_prop in Hws. destruct Hws as [Hne Hws].
    destruct vws as [| s vws']; [discriminate |].
    cbn [forallb] in Hws. apply andb_prop in Hws. destruct Hws as [Hs Hws].
    apply accepts_opt_taken.
    apply (accepts_seq _ _ (v :: verb') (s :: vws') _ no_captures no_captures no_captures).
    + now apply accepts_lit_ci.
    + apply accepts_plus; try assumption.
      unfold strict_phrase in Hp. split_andb.
      unfold render, number_text. destruct (p_int p) as [| i0 int']; [discriminate |].
      cbn in *. split_andb. now rewrite digit_not_space.
Qed.

Lemma request_core_edges :
  forall r,
    verb_ok r = true -> strict_phrase (rq_phrase r) = true ->
    request_core r <> []
    /\ head_not is_space (request_core r) = true
    /\ head_not is_space (rev (request_core r)) = true.
Proof.
  intros [lead verb vws p trail] Hverb Hp.
  unfold verb_ok, request_core in *. cbn [rq_verb rq_verb_ws rq_phrase] in *.
  unfold strict_phrase, is_word_code in Hp. split_andb.
  destruct p as [int frac ws1 src ws2 sep ws3 tgt].
  cbn [p_int p_frac p_ws1 p_source p_ws2 p_sep p_ws3 p_target] in *.
  destruct tgt as [| d [| e [| f [| ? ?]]]]; try discriminate.
  destruct int as [| i0 int']; [discriminate |].
  unfold render, number_text.
  cbn [p_int p_frac p_ws1 p_source p_ws2 p_sep p_ws3 p_target].
  repeat match goal with
         | H : forallb _ (_ :: _) = true |- _ => cbn [forallb] in H
         | H : _ && _ = true |- _ => apply andb_prop in H; destruct H
         end.
  split; [| split].
  - destruct verb; [destruct vws |]; discriminate.
  - destruct verb as [| v verb'].
    + destruct vws; [| discriminate]. cbn. now rewrite digit_not_space.
    + cbn in Hverb. destruct (chars "convert") eqn:Hc; [discriminate |].
      injection Hc as <- _. cbn in Hverb. split_andb.
      cbn. now rewrite letter_c_not_space.
  - rewrite !rev_app_distr. cbn. now rewrite word_not_space.
Qed.

(** A well-formed part is parsed into the request of its phrase. *)
Lemma parse_request_part :
  forall r,
    request_ok r = true ->
    parse_request (strip (part_text r)) = Ok (request_of (rq_phrase r)).
Proof.
  intros r H. unfold request_ok in H. split_andb.
  destruct (request_core_edges r) as [Hne [Hhead Hlast]]; try assumption.
  unfold part_text. rewrite strip_padded by assumption.
  unfold parse_request.
  rewrite <- (app_nil_r (request_core r)) at 1.
  change (strip (request_core r ++ [])) with (strip ([] ++ request_core r ++ [])).
  rewrite strip_padded by (assumption || reflexivity).
  rewrite request_core_accepts by assumption.
  unfold set_capture. cbn [Nat.eqb].
  unfold conversion_of_match, number_text, request_of.
  match goal with H : strict_phrase _ = true |- _ => unfold strict_phrase in H end.
  split_andb. now rewrite py_float_number.
Qed.

(** X10.  For a query made of well-formed parts joined by " and " (each
    part: optional whitespace, an optional [convert], a number, a code, [to]
    and a code separated by whitespace; no part holding the separator
    itself), [parse_conversion_query] returns the requests of the parts, in
    the order of the parts, with the codes in upper case. *)
Theorem parse_conversion_query_phrases :
  forall requests,
    requests <> [] ->
    forallb request_ok requests = true ->
    parse_conversion_query (to_str (join_text and_sep (map part_text requests)))
    = Ok (map (fun r => request_of (rq_phrase r)) requests).
Proof.
  intros requests Hne Hok. unfold parse_conversion_query.
  rewrite chars_to_str. fold and_sep.
  rewrite split_join.
  - assert (Hc : collect parse_request (map strip (map part_text requests))
                 = Ok (map (fun r => request_of (rq_phrase r)) requests)).
    { clear Hne. induction requests as [| r rest IH]; [reflexivity |].
      cbn [forallb] in Hok. apply andb_prop in Hok. destruct Hok as [Hr Hrest].
      cbn [map collect]. rewrite (parse_request_part r Hr). cbn [obind].
      now rewrite (IH Hrest). }
    rewrite Hc. cbn [obind]. destruct requests; [congruence | reflexivity].
  - destruct requests; [congruence | discriminate].
  - apply forallb_forall. intros x Hin.
    apply in_map_iff in Hin. destruct Hin as [r [<- Hin]].
    assert (Hr : request_ok r = true)
      by (revert r Hin; now apply forallb_forall).
    unfold request_ok in Hr. now split_andb.
Qed.

Lemma parse_conversion_query_phrases_witness :
  to_str (join_text and_sep (map part_text [convert_100_usd; gbp_to_jpy_padded]))
  = "Convert 100 USD to EUR and  50.5 gbp  TO jpy "
  /\ parse_conversion_query
       (to_str (join_text and_sep (map part_text [convert_100_usd; gbp_to_jpy_padded])))
     = Ok [Conversion (PyFloat 100) "USD" "EUR"; Conversion (PyFloat (101 # 2)) "GBP" "JPY"].
Proof.
  split; [vm_compute; reflexivity |].
  apply (parse_conversion_query_phrases [convert_100_usd; gbp_to_jpy_padded]);
    [discriminate | vm_compute; reflexivity].
Defined.

(** ** The conversation store *)

Lemma lookup_assign :
  forall (V : Type) (d : list (string * V)) k v k',
    lookup k' (assign k v d) = if String.eqb k' k then Some v else lookup k' d.
Proof.
  intros V d k v k'. induction d as [| [k0 v0] d IH]; cbn [assign lookup].
  - reflexivity.
  - destruct (String.eqb k k0) eqn:E1; cbn [lookup].
    + apply String.eqb_eq in E1. subst k0. now destruct (String.eqb k' k).
    + rewrite IH. destruct (String.eqb k' k0) eqn:E2; [| reflexivity].
      apply String.eqb_eq in E2. subst k0.
      rewrite String.eqb_sym in E1. now rewrite E1.
Qed.

Lemma get_conversation_lookup :
  forall store k,
    fst (get_conversation store k)
    = match lookup k store with
      | Some l => l
      | None => []
      end.
Proof. intros store k. unfold get_conversation. now destruct (lookup k store). Qed.

Lemma lookup_add_message :
  forall store k m k',
    lookup k' (add_message store k m)
    = if String.eqb k' k
      then Some (match lookup k store with
                 | Some l => l
                 | None => []
                 end ++ [m])
      else lookup k' store.
Proof.
  intros store k m k'. unfold add_message.
  destruct (lookup k store) as [l |] eqn:Hk; rewrite ?lookup_assign;
    destruct (String.eqb k' k); reflexivity.
Qed.

(** X11.  After [add_message] the conversation of that session is the old
    one followed by the new message, and the conversation of every other
    session is what it was; a session that did not exist starts from the
    empty conversation. *)
Theorem add_message_get_conversation :
  forall store session_id m other,
    fst (get_conversation (add_message store session_id m) other)
    = if String.eqb other session_id
      then fst (get_conversation store session_id) ++ [m]
      else fst (get_conversation store other).
Proof.
  intros store k m k'. rewrite !get_conversation_lookup, lookup_add_message.
  now destruct (String.eqb k' k).
Qed.

(** X12.  [clear_conversation] empties the conversation of its session and
    leaves the others; [get_conversation], which records an unseen session,
    never changes what a later [get_conversation] returns. *)
Theorem clear_and_get_conversation :
  forall store session_id other,
    fst (get_conversation (clear_conversation store session_id) other)
    = (if String.eqb other session_id then []
       else fst (get_conversation store other))
    /\ fst (get_conversation (snd (get_conversation store session_id)) other)
       = fst (get_conversation store other).
Proof.
  intros store k k'. rewrite !get_conversation_lookup. split.
  - unfold clear_conversation. rewrite lookup_assign.
    now destruct (String.eqb k' k).
  - unfold get_conversation. destruct (lookup k store) as [l |] eqn:Hk; cbn [snd].
    + reflexivity.
    + rewrite lookup_assign. destruct (String.eqb k' k) eqn:E; [| reflexivity].
      apply String.eqb_eq in E. subst k'. now rewrite Hk.
Qed.

(** X13.  Messages added one after the other to a session are returned in
    the order they were added, after the messages the session already
    had. *)
Theorem add_messages_in_order :
  forall messages store session_id,
    fst (get_conversation
           (fold_left (fun s m => add_message s session_id m) messages store)
           session_id)
    = fst (get_conversation store session_id) ++ messages.
Proof.
  induction messages as [| m messages IH]; intros store k; cbn [fold_left].
  - now rewrite app_nil_r.
  - rewrite IH, !get_conversation_lookup, lookup_add_message, String.eqb_refl.
    now rewrite <- app_assoc.
Qed.

(** ** The chat endpoint *)

(** The text of the response: the formatted results of the batch when the
    message parses, and the parser's message after a cross otherwise. *)
Lemma response_text_for_run :
  forall w timestamp message_text log,
    response_text_for w timestamp message_text log
    = match parse_conversion_query message_text with
      | Ok conversions =>
          (Ok (endpoint_text timestamp (map (entry_of w) conversions)),
           log ++ flat_map calls_of conversions)
      | Raise e => (Ok ("❌ " ++ str_exn e)%string, log)
      end.
Proof.
  intros w ts m log. unfold response_text_for, try_clauses, bind at 1, lift.
  destruct (parse_conversion_query m) as [conversions | e] eqn:Hp.
  - unfold bind. rewrite batch_convert_currencies_run. reflexivity.
  - destruct (parse_conversion_query_raises m e Hp) as [part [_ ->]]. reflexivity.
Qed.

Lemma conversion_lines_shape :
  forall results, Forall2 is_conversion_line results (map conversion_line results).
Proof.
  induction results as [| result results IH]; constructor; [| exact IH].
  destruct result; cbn; eauto.
Qed.

Lemma rate_lines_shape :
  forall results,
    Forall2 is_rate_line (filter (fun e => negb (has_error e)) results)
      (rate_lines results).
Proof.
  induction results as [| result results IH]; [constructor |].
  destruct result; cbn; try exact IH.
  constructor; [| exact IH]. cbn. eauto.
Qed.



(** X15.  With a session id, [chat_completion] answers with that id and
    adds to the conversation of that session the message of the user and
    then the text of the response, leaving the conversations of the other
    sessions as they were.  With a request whose session id is null, it
    raises [HTTPException] with status 500 and a detail that begins with
    "Internal server error: ", after the conversions have been attempted,
    and the store is left as it was. *)
Theorem chat_completion_records_exchange :
  forall w timestamp store message_text session_id log,
    match session_id with
    | Some id =>
        exists text store' log',
          chat_completion w timestamp store message_text (Some id) log
          = (Ok (ChatResponse text id), store', log')
          /\ fst (response_text_for w timestamp message_text log) = Ok text
          /\ forall other,
               fst (get_conversation store' other)
               = if String.eqb other id
                 then fst (get_conversation store id)
                      ++ [Message "user" message_text; Message "assistant" text]
                 else fst (get_conversation store other)
    | None =>
        exists reason,
          chat_completion w timestamp store message_text None log
          = (Raise (HTTPException 500 ("Internal server error: " ++ reason)),
             store,
             snd (response_text_for w timestamp message_text log))
    end.
Proof.
  intros w ts store m session_id log.
  unfold chat_completion, try_clauses, bind, lift, ret, raise.
  rewrite response_text_for_run.
  destruct session_id as [k |]; cbn [new_ChatResponse];
    destruct (parse_conversion_query m) as [conversions | e];
    cbn [select_handler any_exception fst snd].
  1, 2: do 3 eexists; (split; [reflexivity |]); (split; [reflexivity |]);
    intro other; cbn [response_session_id response_text];
    rewrite !get_conversation_lookup, !lookup_add_message;
    rewrite String.eqb_refl;
    destruct (String.eqb other k); rewrite <- ?app_assoc; reflexivity.
  1, 2: eexists; reflexivity.
Qed.

(** ** The validators *)

Lemma upper_alpha_is_upper :
  forall x, is_alpha (upper_char x) = true -> is_upper (upper_char x) = true.
Proof. intro x. ascii_cases x. Qed.

Lemma upper_char_fixed : forall x, is_upper x = true -> upper_char x = x.
Proof. intro x. ascii_cases x. Qed.

Lemma upper_not_space : forall x, is_upper x = true -> is_space x = false.
Proof. intro x. ascii_cases x. Qed.

Lemma upper_is_alpha : forall x, is_upper x = true -> is_alpha x = true.
Proof. intro x. ascii_cases x. Qed.

Lemma to_str_not_empty :
  forall x s, String.eqb (to_str (x :: s)) "" = false.
Proof. reflexivity. Qed.

(** What [validate_currency_code] accepts: three upper-case letters, which
    it accepts again unchanged. *)
Lemma validate_currency_code_accepts :
  forall currency_code code,
    validate_currency_code currency_code = Ok code ->
    exists a b c,
      code = to_str [a; b; c]
      /\ is_upper a = true /\ is_upper b = true /\ is_upper c = true.
Proof.
  intros s code. unfold validate_currency_code, isalpha.
  destruct (String.eqb s ""); [discriminate |].
  destruct (strip (chars s)) as [| a [| b [| c [| ? ?]]]]; cbn; try discriminate.
  destruct (is_alpha (upper_char a)) eqn:Ha; [| discriminate].
  destruct (is_alpha (upper_char b)) eqn:Hb; [| discriminate].
  destruct (is_alpha (upper_char c)) eqn:Hc; [| discriminate].
  cbn. intro H. injection H as <-.
  exists (upper_char a), (upper_char b), (upper_char c).
  repeat split; now apply upper_alpha_is_upper.
Qed.

Lemma validate_upper_code :
  forall a b c,
    is_upper a = true -> is_upper b = true -> is_upper c = true ->
    validate_currency_code (to_str [a; b; c]) = Ok (to_str [a; b; c]).
Proof.
  intros a b c Ha Hb Hc. unfold validate_currency_code.
  rewrite to_str_not_empty, chars_to_str.
  assert (Hstrip : strip [a; b; c] = [a; b; c]).
  { apply (strip_padded [] [a; b; c] []); try reflexivity; [discriminate | |];
      cbn; now rewrite upper_not_space. }
  rewrite Hstrip. unfold isalpha. cbn.
  rewrite !upper_char_fixed, !upper_is_alpha by assumption. reflexivity.
Qed.

(** X16.  On ASCII text, a code [validate_currency_code] accepts is
    returned as three upper-case letters, and validating the result again
    returns it unchanged. *)
Theorem validate_currency_code_normal_form :
  forall currency_code code,
    ascii_only currency_code = true ->
    validate_currency_code currency_code = Ok code ->
    (exists a b c,
       code = to_str [a; b; c]
       /\ is_upper a = true /\ is_upper b = true /\ is_upper c = true)
    /\ validate_currency_code code = Ok code.
Proof.
  intros s code _ H.
  destruct (validate_currency_code_accepts s code H) as [a [b [c [-> [Ha [Hb Hc]]]]]].
  split; [now exists a, b, c | now apply validate_upper_code].
Qed.

Lemma validate_currency_code_normal_form_witness :
  (exists a b c,
     "EUR" = to_str [a; b; c]
     /\ is_upper a = true /\ is_upper b = true /\ is_upper c = true)
  /\ validate_currency_code "EUR" = Ok "EUR".
Proof.
  apply (validate_currency_code_normal_form "  eur "); vm_compute; reflexivity.
Defined.

(** X17.  [validate_date_string] either returns its argument, and then the
    argument is a date [strptime] reads that is neither after today nor
    before 1999-01-04, or raises a [ValidationError]; no other exception
    leaves it. *)
Theorem validate_date_string_outcome :
  forall today_is date_str,
    (exists d,
       validate_date_string today_is date_str = Ok date_str
       /\ strptime date_str = Ok d
       /\ date_gt d today_is = false
       /\ date_lt d min_date = false)
    \/ (exists msg, validate_date_string today_is date_str = Raise (ValidationError msg)).
Proof.
  intros today_is s. unfold validate_date_string.
  destruct (String.eqb s ""); [right; eexists; reflexivity |].
  destruct (matches_date_pattern (chars s)); cbn [negb];
    [| right; eexists; reflexivity].
  destruct (strptime s) as [d | e] eqn:Hparse.
  - destruct (date_gt d today_is) eqn:Hgt; [right; eexists; reflexivity |].
    destruct (date_lt d min_date) eqn:Hlt; [right; eexists; reflexivity |].
    left. now exists d.
  - destruct (strptime_raises_value_error s e Hparse) as [msg ->].
    cbn [is_ValueError str_exn].
    destruct (contains "time data" msg); right; eexists; reflexivity.
Qed.

Lemma take_drop_while :
  forall p s, take_while p s ++ drop_while p s = s.
Proof.
  intros p s. induction s as [| x s IH]; [reflexivity |].
  cbn. destruct (p x); [cbn; now rewrite IH | reflexivity].
Qed.

Lemma take_while_forallb :
  forall p s, forallb p (take_while p s) = true.
Proof.
  intros p s. induction s as [| x s IH]; [reflexivity |].
  cbn. destruct (p x) eqn:Hx; [cbn; now rewrite Hx | reflexivity].
Qed.

Lemma head_not_drop_while :
  forall p s, head_not p (drop_while p s) = true.
Proof.
  intros p s. induction s as [| x s IH]; [reflexivity |].
  cbn. destruct (p x) eqn:Hx; [exact IH | cbn; now rewrite Hx].
Qed.

(** A stripped text does not end with whitespace. *)
Lemma strip_last :
  forall s, head_not is_space (rev (strip s)) = true.
Proof.
  intro s. unfold strip. rewrite rev_involutive. apply head_not_drop_while.
Qed.

Lemma newline_is_space : forall c, (code_of c =? 10) = true -> is_space c = true.
Proof. intro c. ascii_cases c. Qed.

(** X18.  A session id [validate_session_id] accepts is the argument
    without the whitespace around it, has between 10 and 100 characters, and
    holds only letters, digits, hyphens and underscores: the final newline
    that the [$] of its pattern would let pass cannot be there.  Every
    rejection is a [ValidationError]. *)
Theorem validate_session_id_outcome :
  forall session_id,
    (validate_session_id session_id = Ok (to_str (strip (chars session_id)))
     /\ 10 <= List.length (strip (chars session_id)) <= 100
     /\ forallb is_session_char (strip (chars session_id)) = true)
    \/ (exists msg, validate_session_id session_id = Raise (ValidationError msg)).
Proof.
  intro sid. unfold validate_session_id.
  destruct (String.eqb sid ""); [right; eexists; reflexivity |].
  pose proof (strip_last (chars sid)) as Hlast.
  set (s := strip (chars sid)) in *.
  destruct (List.length s <? 10) eqn:Hlo; cbn [orb]; [right; eexists; reflexivity |].
  destruct (100 <? List.length s) eqn:Hhi; [right; eexists; reflexivity |].
  destruct (matches_session_pattern s) eqn:Hm; cbn [negb];
    [| right; eexists; reflexivity].
  left. split; [reflexivity |].
  apply Nat.ltb_ge in Hlo. apply Nat.ltb_ge in Hhi. split; [lia |].
  unfold matches_session_pattern in Hm. apply andb_prop in Hm. destruct Hm as [_ Hend].
  pose proof (take_drop_while is_session_char s) as Hs.
  pose proof (take_while_forallb is_session_char s) as Hall.
  destruct (drop_while is_session_char s) as [| c [| ? ?]] eqn:Hd; try discriminate.
  - rewrite app_nil_r in Hs. now rewrite <- Hs.
  - exfalso. cbn in Hend. rewrite <- Hs in Hlast.
    rewrite rev_app_distr in Hlast. cbn in Hlast.
    now rewrite (newline_is_space c Hend) in Hlast.
Qed.

(** *** [sub in s] *)

Lemma substring_prefix :
  forall sub post, substring 0 (String.length sub) (sub ++ post) = sub.
Proof.
  induction sub as [| c sub IH]; intro post; cbn.
  - now destruct post.
  - now rewrite IH.
Qed.

Lemma substring_middle :
  forall pre sub post,
    substring (String.length pre) (String.length sub) (pre ++ sub ++ post) = sub.
Proof.
  induction pre as [| c pre IH]; intros sub post; cbn.
  - apply substring_prefix.
  - apply IH.
Qed.

(** A text that occurs in [s] is found. *)
Lemma contains_middle :
  forall pre sub post,
    sub <> ""%string ->
    contains sub (pre ++ sub ++ post)%string = true.
Proof.
  intros pre sub post Hne. unfold contains.
  destruct (index 0 sub (pre ++ sub ++ post)%string) eqn:Hi; [reflexivity |].
  exfalso.
  apply (index_correct3 0 (String.length pre) sub _ Hi Hne (Nat.le_0_l _)).
  apply substring_middle.
Qed.

Lemma to_str_app :
  forall a b, to_str (a ++ b) = (to_str a ++ to_str b)%string.
Proof.
  induction a as [| x a IH]; intro b; cbn; [reflexivity | now rewrite IH].
Qed.

(** X19.  A message whose text, once the whitespace around it is removed,
    holds one of "<script", "javascript:", "data:text/html" and
    "vbscript:" in any letter case is rejected by [validate_user_message]
    with a [ValidationError]. *)
Theorem validate_user_message_rejects_patterns :
  forall message_text pre v post,
    strip (chars message_text) = pre ++ v ++ post ->
    In (to_str (lower v)) suspicious_patterns ->
    exists msg, validate_user_message message_text = Raise (ValidationError msg).
Proof.
  intros m pre v post Hs Hin. unfold validate_user_message.
  destruct (String.eqb m ""); [eexists; reflexivity |].
  rewrite Hs.
  destruct (List.length (pre ++ v ++ post) =? 0); [eexists; reflexivity |].
  destruct (1000 <? List.length (pre ++ v ++ post)); [eexists; reflexivity |].
  assert (Hfound : existsb
                     (fun pattern => contains pattern (to_str (lower (pre ++ v ++ post))))
                     suspicious_patterns = true).
  { apply existsb_exists. exists (to_str (lower v)). split; [exact Hin |].
    assert (Hne : to_str (lower v) <> ""%string)
      by (destruct Hin as [<- | [<- | [<- | [<- | []]]]]; discriminate).
    unfold lower in *. rewrite !map_app, !to_str_app.
    now apply contains_middle. }
  rewrite Hfound. eexists; reflexivity.
Qed.

Lemma validate_user_message_rejects_patterns_witness :
  exists msg,
    validate_user_message "  please run <ScRiPt>alert(1)</script> " = Raise (ValidationError msg).
Proof.
  apply (validate_user_message_rejects_patterns
           "  please run <ScRiPt>alert(1)</script> "
           (chars "please run ") (chars "<ScRiPt") (chars ">alert(1)</script>")).
  - vm_compute. reflexivity.
  - vm_compute. left. reflexivity.
Defined.

(** ** [has_currency_context] *)

Lemma lower_upper_char : forall x, lower_char (upper_char x) = lower_char x.
Proof. intro x. ascii_cases x. Qed.

Lemma lower_lower_char : forall x, lower_char (lower_char x) = lower_char x.
Proof. intro x. ascii_cases x. Qed.

(** X20.  On ASCII text, [has_currency_context] does not depend on the
    letter case of the text: it gives the same answer for the text, for the
    text in upper case and for the text in lower case. *)
Theorem has_currency_context_ignores_case :
  forall txt,
    ascii_only txt = true ->
    has_currency_context (upper_str txt) = has_currency_context txt
    /\ has_currency_context (lower_str txt) = has_currency_context txt.
Proof.
  intros txt _. unfold has_currency_context, lower_str, upper_str.
  rewrite !chars_to_str. unfold lower, upper. rewrite !map_map.
  split.
  - now rewrite (map_ext _ _ lower_upper_char).
  - now rewrite (map_ext _ _ lower_lower_char).
Qed.

Lemma has_currency_context_ignores_case_witness :
  has_currency_context (upper_str "What is the Euro rate?")
  = has_currency_context "What is the Euro rate?"
  /\ has_currency_context (lower_str "What is the Euro rate?")
     = has_currency_context "What is the Euro rate?".
Proof.
  apply (has_currency_context_ignores_case "What is the Euro rate?").
  vm_compute. reflexivity.
Defined.

(** ** [ConversionExtractor.extract_conversions] *)

Lemma validate_amount_accepts :
  forall a x,
    validate_amount (PyFloat a) = Ok x ->
    x = PyFloat a /\ (0 < a)%Q /\ (a <= trillion)%Q.
Proof.
  intros a x. unfold validate_amount, q_le, q_lt. cbn [num_value].
  destruct (Qle_bool a 0) eqn:Hlo; [discriminate |].
  destruct (Qle_bool a trillion) eqn:Hhi; cbn [negb]; [| discriminate].
  intro H. injection H as <-. split; [reflexivity |]. split.
  - apply Qnot_le_lt. intro Hle. apply Qle_bool_iff in Hle. congruence.
  - now apply Qle_bool_iff.
Qed.

Lemma validated_match_valid :
  forall m c, validated_match m = Some c -> valid_conversion c.
Proof.
  intros [[amount_str from_curr] to_curr] c. unfold validated_match.
  destruct (py_float amount_str) as [a |]; [| discriminate].
  unfold validate_conversion_request.
  destruct (validate_amount (PyFloat a)) as [x |] eqn:Ha; cbn [obind]; [| discriminate].
  destruct (validate_currency_code (name_or_code from_curr)) as [f |] eqn:Hf;
    cbn [obind]; [| discriminate].
  destruct (validate_currency_code (name_or_code to_curr)) as [t0 |] eqn:Ht;
    cbn [obind]; [| discriminate].
  intro H. injection H as <-.
  destruct (validate_amount_accepts a x Ha) as [-> [Hlo Hhi]].
  exists a. cbn [amount from_currency to_currency].
  repeat split; try assumption.
  - exact (validate_currency_code_accepts _ _ Hf).
  - exact (validate_currency_code_accepts _ _ Ht).
Qed.

Lemma filter_map_in :
  forall (A B : Type) (f : A -> option B) l y,
    In y (filter_map f l) -> exists x, In x l /\ f x = Some y.
Proof.
  intros A B f l y. induction l as [| x l IH]; cbn; [contradiction |].
  destruct (f x) as [y' |] eqn:Hx.
  - intros [<- | H]; [eauto | destruct (IH H) as [z [Hz Hfz]]; eauto].
  - intro H. destruct (IH H) as [z [Hz Hfz]]. eauto.
Qed.

Lemma unique_in :
  forall l seen c, In c (unique seen l) -> In c l /\ existsb (conversion_eqb c) seen = false.
Proof.
  induction l as [| x l IH]; intros seen c; cbn [unique]; [contradiction |].
  destruct (existsb (conversion_eqb x) seen) eqn:Hx.
  - intro H. destruct (IH _ _ H). split; [now right | assumption].
  - intros [<- | H]; [split; [now left | assumption] |].
    destruct (IH _ _ H) as [Hin Hseen]. split; [now right |].
    cbn [existsb] in Hseen. apply orb_false_elim in Hseen. tauto.
Qed.

Lemma unique_distinct :
  forall l seen,
    ForallOrdPairs (fun earlier later => conversion_eqb later earlier = false)
      (unique seen l).
Proof.
  induction l as [| x l IH]; intro seen; cbn [unique]; [constructor |].
  destruct (existsb (conversion_eqb x) seen); [apply IH |].
  constructor; [| apply IH].
  apply Forall_forall. intros c Hc. apply unique_in in Hc. destruct Hc as [_ Hc].
  cbn [existsb] in Hc. apply orb_false_elim in Hc. tauto.
Qed.

(** X21.  Every request [ConversionExtractor.extract_conversions] returns
    has an amount above 0 and at most [1e12] and two codes of three
    upper-case letters, and no request of the list equals an earlier
    one. *)
Theorem extract_conversions_valid :
  forall txt,
    Forall valid_conversion (extract_conversions txt)
    /\ ForallOrdPairs (fun earlier later => conversion_eqb later earlier = false)
         (extract_conversions txt).
Proof.
  intro txt. unfold extract_conversions. split; [| apply unique_distinct].
  apply Forall_forall. intros c Hc.
  apply unique_in in Hc. destruct Hc as [Hc _].
  apply in_flat_map in Hc. destruct Hc as [pattern [_ Hc]].
  apply filter_map_in in Hc. destruct Hc as [m [_ Hm]].
  exact (validated_match_valid m c Hm).
Qed.

(** ** The formatters *)

Lemma format_from_nth :
  forall results start i r,
    nth_error results i = Some r ->
    nth_error (format_from start results) i = Some (format_entry (start + i) r).
Proof.
  induction results as [| x results IH]; intros start i r H.
  - destruct i; discriminate.
  - destruct i as [| i]; cbn in *.
    + injection H as <-. now rewrite Nat.add_0_r.
    + rewrite (IH (S start) i r H). now rewrite Nat.add_succ_r.
Qed.

Lemma format_from_length :
  forall results start, List.length (format_from start results) = List.length results.
Proof.
  induction results as [| x results IH]; intro start; cbn; [reflexivity |].
  now rewrite IH.
Qed.

Lemma string_app_assoc :
  forall a b c : string, ((a ++ b) ++ c = a ++ (b ++ c))%string.
Proof.
  induction a as [| x a IH]; intros b c; cbn; [reflexivity | now rewrite IH].
Qed.

Lemma format_entry_label :
  forall i r,
    exists body,
      format_entry i r = (section_label i ++ body)%string
      /\ match r with
         | Success _ => True
         | GatherError error _ | BatchError error _ _ _ | ToolError error _ =>
             body = ("❌ Error: " ++ error ++ nl)%string
         end.
Proof.
  intros i r. unfold section_label.
  destruct r; cbn [format_entry]; eexists;
    (split; [rewrite !string_app_assoc; reflexivity | try exact I; reflexivity]).
Qed.

(** X22.  For a list of results that is not empty, the response of
    [_format_multiple_conversions_response] is its sections joined by a
    newline, one section per result and in the order of the results; the
    section of the result at position [i] begins with the label
    "**Conversion i+1:**", and the section of a failed result holds,
    after the label, the error line only. *)
Theorem format_response_sections :
  forall results,
    results <> [] ->
    exists sections,
      _format_multiple_conversions_response results = join nl sections
      /\ List.length sections = List.length results
      /\ forall i r,
           nth_error results i = Some r ->
           exists body,
             nth_error sections i = Some (section_label (S i) ++ body)%string
             /\ match r with
                | Success _ => True
                | GatherError error _ | BatchError error _ _ _ | ToolError error _ =>
                    body = ("❌ Error: " ++ error ++ nl)%string
                end.
Proof.
  intros results Hne. exists (format_from 1 results).
  split; [destruct results; [congruence | reflexivity] |].
  split; [apply format_from_length |].
  intros i r H. destruct (format_entry_label (S i) r) as [body [Hbody Herr]].
  exists body. split; [| exact Herr].
  rewrite (format_from_nth results 1 i r H). cbn [Nat.add]. now rewrite Hbody.
Qed.

Lemma format_response_sections_witness :
  exists sections,
    _format_multiple_conversions_response
      [ToolError "Expecting value" "convert_currency";
       BatchError "Unsupported source currency: XXX" (PyFloat 1) "XXX" "EUR"]
    = join nl sections
    /\ List.length sections
       = List.length [ToolError "Expecting value" "convert_currency";
                      BatchError "Unsupported source currency: XXX" (PyFloat 1) "XXX" "EUR"]
    /\ forall i r,
         nth_error [ToolError "Expecting value" "convert_currency";
                    BatchError "Unsupported source currency: XXX" (PyFloat 1) "XXX" "EUR"] i
         = Some r ->
         exists body,
           nth_error sections i = Some (section_label (S i) ++ body)%string
           /\ match r with
              | Success _ => True
              | GatherError error _ | BatchError error _ _ _ | ToolError error _ =>
                  body = ("❌ Error: " ++ error ++ nl)%string
              end.
Proof.
  apply (format_response_sections
           [ToolError "Expecting value" "convert_currency";
            BatchError "Unsupported source currency: XXX" (PyFloat 1) "XXX" "EUR"]).
  discriminate.
Defined.

Lemma item_le_total :
  forall a b, item_le a b = false -> item_le b a = true.
Proof.
  intros [ka va] [kb vb]. unfold item_le, String.ltb, String.leb. cbn [fst snd].
  rewrite (String.compare_antisym kb ka).
  destruct (String.compare ka kb) eqn:Hk; cbn [CompOpp].
  - apply String.compare_eq_iff in Hk. subst kb.
    rewrite String.eqb_refl. cbn [orb andb].
    rewrite (String.compare_antisym vb va).
    destruct (String.compare va vb); cbn; congruence.
  - discriminate.
  - reflexivity.
Qed.

Lemma insert_sorted_permutation :
  forall x l, Permutation (insert_sorted x l) (x :: l).
Proof.
  intros x l. induction l as [| y l IH]; cbn [insert_sorted]; [apply Permutation_refl |].
  fold (item_le y x). destruct (item_le y x).
  - apply perm_trans with (y :: x :: l); [now apply perm_skip | apply perm_swap].
  - apply Permutation_refl.
Qed.

Lemma insert_sorted_sorted :
  forall x l,
    Sorted (fun a b => item_le a b = true) l ->
    Sorted (fun a b => item_le a b = true) (insert_sorted x l).
Proof.
  intros x l H. induction H as [| y l Hsorted IH Hhd]; cbn [insert_sorted].
  - repeat constructor.
  - fold (item_le y x). destruct (item_le y x) eqn:Hyx.
    + constructor; [exact IH |].
      destruct l as [| z l]; cbn [insert_sorted].
      * now constructor.
      * fold (item_le z x). destruct (item_le z x); constructor; [| assumption].
        now inversion Hhd.
    + constructor; [now constructor |]. constructor. now apply item_le_total.
Qed.

(** X23.  The listing of [_format_supported_currencies] has one line per
    item of the mapping, and the lines are in the order of [sorted]: by
    code, then by name. *)
Theorem format_supported_currencies_sorted :
  forall currencies,
    exists items,
      _format_supported_currencies currencies
      = ("Here are the supported currencies:" ++ nl ++ nl
         ++ join nl (map (fun item : string * string =>
                            "• **" ++ fst item ++ "** - " ++ snd item) items))%string
      /\ Permutation items currencies
      /\ Sorted (fun a b => item_le a b = true) items.
Proof.
  intro currencies. exists (sorted_items currencies).
  split; [reflexivity |]. unfold sorted_items.
  induction currencies as [| x l [Hperm Hsorted]]; cbn [fold_right].
  - split; constructor.
  - split.
    + apply perm_trans with (x :: fold_right insert_sorted [] l);
        [apply insert_sorted_permutation | now apply perm_skip].
    + now apply insert_sorted_sorted.
Qed.

(** ** The escalation client *)

Lemma dispatch_returns :
  forall w name tc log, exists step log', dispatch w name tc log = (Ok step, log').
Proof.
  intros w name tc log. unfold dispatch, try_clauses.
  match goal with
  | |- context [match ?m log with _ => _ end] => destruct (m log) as [[step | e] log']
  end; do 2 eexists; reflexivity.
Qed.

(** Once a turn has bound [function_name], every turn returns. *)
Lemma tool_calls_loop_returns :
  forall w calls name results log,
    exists text log', tool_calls_loop w (Some name) calls results log = (Ok text, log').
Proof.
  intros w calls. induction calls as [| tc calls IH]; intros name results log.
  - cbn [tool_calls_loop]. destruct results; do 2 eexists; reflexivity.
  - cbn [tool_calls_loop]. unfold bind at 1, tool_call_turn.
    destruct (function_name tc) as [name' | e].
    + unfold bind, ret.
      destruct (dispatch_returns w name' tc log) as [step [log' ->]]. cbn [fst snd].
      destruct step; [apply IH | apply IH | do 2 eexists; reflexivity].
    + unfold ret. cbn [fst snd]. apply IH.
Qed.

(** X24.  [_handle_tool_calls] returns a text when the list of calls is
    empty or when its first call carries a function name, whatever the
    calls ask for and whatever the rate service does.  When the first call
    carries no function name, the [except] clause of the loop reads the
    variable [function_name] before any turn has bound it, and
    [UnboundLocalError] leaves the function before any request. *)
Theorem handle_tool_calls_outcome :
  forall w calls log,
    match calls with
    | [] =>
        _handle_tool_calls w calls log
        = (Ok "I couldn't execute the requested function calls.", log)
    | tc :: _ =>
        match function_name tc with
        | Ok _ => exists text log', _handle_tool_calls w calls log = (Ok text, log')
        | Raise _ =>
            _handle_tool_calls w calls log
            = (Raise (UnboundLocalError unbound_function_name), log)
        end
    end.
Proof.
  intros w [| tc calls] log; [reflexivity |].
  unfold _handle_tool_calls. cbn [tool_calls_loop]. unfold bind at 1, tool_call_turn.
  destruct (function_name tc) as [name | e]; [| reflexivity].
  unfold bind, ret.
  destruct (dispatch_returns w name tc log) as [step [log' ->]]. cbn [fst snd].
  destruct step; [apply tool_calls_loop_returns | apply tool_calls_loop_returns |].
  do 2 eexists; reflexivity.
Qed.

(** X25.  A call of [get_supported_currencies] whose arguments decode, when
    the rate service answers with the mapping, ends the loop at once: the
    answer is the listing alone, the results collected so far are dropped
    and the calls after it are not dispatched. *)
Theorem listing_call_ends_the_loop :
  forall w bound args rest results log r mapping,
    (forall msg, args <> ArgsUndecodable msg) ->
    currencies (rate_api w) = Replied r ->
    status_ok r = true ->
    json r = Ok mapping ->
    tool_calls_loop w bound (ToolCall (Ok "get_supported_currencies") args :: rest)
      results log
    = (Ok (_format_supported_currencies mapping), log ++ [GetCurrencies]).
Proof.
  intros w bound args rest results log r mapping Hargs Hreply Hok Hjson.
  cbn [tool_calls_loop]. unfold bind at 1.
  assert (Hturn : tool_call_turn w bound (ToolCall (Ok "get_supported_currencies") args) log
                  = (Ok (Return (_format_supported_currencies mapping),
                         Some "get_supported_currencies"),
                     log ++ [GetCurrencies])).
  { unfold tool_call_turn, dispatch, json_loads, get_supported_currencies.
    cbn [function_name arguments String.eqb Ascii.eqb Bool.eqb].
    unfold status_ok in Hok. unfold_monad.
    destruct args as [msg | |]; [now destruct (Hargs msg) | |];
      reduce; rewrite Hreply; reduce; rewrite Hok; reduce; rewrite Hjson;
      reflexivity. }
  rewrite Hturn. reflexivity.
Qed.

Lemma listing_call_ends_the_loop_witness :
  tool_calls_loop market_world (Some "convert_currency")
    (ToolCall (Ok "get_supported_currencies") (ArgsObject [] []) :: [usd_eur_call])
    [ToolError "Expecting value" "convert_currency"] []
  = (Ok (_format_supported_currencies
           [("USD", "United States Dollar"); ("EUR", "Euro")]),
     [] ++ [GetCurrencies]).
Proof.
  apply (listing_call_ends_the_loop market_world (Some "convert_currency")
           (ArgsObject [] []) [usd_eur_call]
           [ToolError "Expecting value" "convert_currency"] []
           (Response 200 "" (Ok [("USD", "United States Dollar"); ("EUR", "Euro")])));
    try reflexivity.
  intros msg H. discriminate H.
Defined.

(** X26.  The messages sent to the LLM are the system prompt, then the
    last messages of the conversation history (all of them when there are
    at most ten, the last ten otherwise, in their order), then the query of
    the user. *)
Theorem chat_messages_window :
  forall query history,
    exists dropped kept,
      match history with
      | Some l => l
      | None => []
      end = dropped ++ kept
      /\ List.length kept = Nat.min 10 (List.length (dropped ++ kept))
      /\ chat_messages query history
         = Message "system" SYSTEM_PROMPT :: kept ++ [Message "user" query].
Proof.
  intros query history. unfold chat_messages.
  destruct history as [[| m h] |].
  - exists [], []. auto.
  - exists (firstn (List.length (m :: h) - 10) (m :: h)), (last10 (m :: h)).
    unfold last10. rewrite firstn_skipn. repeat split.
    rewrite length_skipn. lia.
  - exists [], []. auto.
Qed.

(** X27.  For every query in which the extractor finds a conversion,
    [process_query] answers with the apology that wraps the [NameError]
    of the batch engine, and calls neither the rate service nor the LLM. *)
Theorem process_query_fast_path :
  forall w query history log c rest,
    _extract_conversions query = Ok (c :: rest) ->
    process_query w query history log
    = (Ok (PyStr ("I apologize, but I encountered an error processing your request: "
                  ++ asyncio_error)),
       log).
Proof.
  intros w query history log c rest H.
  unfold process_query, process_query_in, try_clauses, bind at 1, lift. rewrite H.
  cbn [List.length Nat.leb]. unfold bind.
  change (convert_multiple_currencies_in currency_service_globals)
    with convert_multiple_currencies.
  rewrite convert_multiple_currencies_name_error. reflexivity.
Qed.

Lemma process_query_fast_path_witness :
  process_query market_world "How much is 50.5 gbp in jpy?" None []
  = (Ok (PyStr ("I apologize, but I encountered an error processing your request: "
                ++ asyncio_error)),
     []).
Proof.
  apply (process_query_fast_path market_world "How much is 50.5 gbp in jpy?" None []
           (Conversion (PyFloat (101 # 2)) "GBP" "JPY") []).
  vm_compute. reflexivity.
Defined.

(** *** The network calls of the escalation path *)

Lemma rates_only_ret : forall (A : Type) (a : A), calls_rates_only (ret a).
Proof. intros A a log. exists []. now rewrite app_nil_r. Qed.

Lemma rates_only_raise : forall (A : Type) e, calls_rates_only (@raise A e).
Proof. intros A e log. exists []. now rewrite app_nil_r. Qed.

Lemma rates_only_bind :
  forall (A B : Type) (m : M A) (f : A -> M B),
    calls_rates_only m -> (forall a, calls_rates_only (f a)) ->
    calls_rates_only (bind m f).
Proof.
  intros A B m f Hm Hf log. unfold bind.
  destruct (Hm log) as [calls1 [H1 Hr1]].
  destruct (m log) as [[a | e] log']; cbn [snd] in H1; subst log'.
  - destruct (Hf a (log ++ calls1)) as [calls2 [H2 Hr2]].
    exists (calls1 ++ calls2). rewrite H2, app_assoc. split; [reflexivity |].
    rewrite forallb_app. now rewrite Hr1, Hr2.
  - now exists calls1.
Qed.

Lemma rates_only_select :
  forall (A : Type) (clauses : list ((exn -> bool) * (exn -> M A))) e,
    Forall (fun clause => forall e', calls_rates_only (snd clause e')) clauses ->
    calls_rates_only (select_handler clauses e).
Proof.
  intros A clauses e H. induction H as [| [handled h] clauses Hh _ IH];
    cbn [select_handler].
  - apply rates_only_raise.
  - destruct (handled e); [apply Hh | exact IH].
Qed.

Lemma rates_only_try :
  forall (A : Type) (m : M A) clauses,
    calls_rates_only m ->
    Forall (fun clause => forall e', calls_rates_only (snd clause e')) clauses ->
    calls_rates_only (try_clauses m clauses).
Proof.
  intros A m clauses Hm Hc log. unfold try_clauses.
  destruct (Hm log) as [calls1 [H1 Hr1]].
  destruct (m log) as [[a | e] log']; cbn [snd] in H1; subst log'.
  - now exists calls1.
  - destruct (rates_only_select A clauses e Hc (log ++ calls1)) as [calls2 [H2 Hr2]].
    exists (calls1 ++ calls2). rewrite H2, app_assoc. split; [reflexivity |].
    rewrite forallb_app. now rewrite Hr1, Hr2.
Qed.

Lemma rates_only_lift : forall (A : Type) (o : outcome A), calls_rates_only (lift o).
Proof. intros A o log. exists []. now rewrite app_nil_r. Qed.

Lemma rates_only_get :
  forall (B : Type) c (reply : http_reply B),
    is_rate_call c = true -> calls_rates_only (http_get c reply).
Proof.
  intros B c reply Hc log. unfold http_get. exists [c].
  destruct reply; cbn; now rewrite Hc.
Qed.

Ltac rates_only :=
  repeat first
    [ apply rates_only_ret
    | apply rates_only_raise
    | apply rates_only_lift
    | apply rates_only_get; reflexivity
    | apply rates_only_try
    | apply rates_only_bind
    | apply Forall_cons
    | apply Forall_nil
    | progress cbn [snd]
    | match goal with
      | |- forall _, _ => intro
      | |- calls_rates_only (if ?b then _ else _) => destruct b
      | |- calls_rates_only (match ?x with _ => _ end) => destruct x
      end ].

Lemma rates_only_convert_currency :
  forall w amount f t0, calls_rates_only (convert_currency w amount f t0).
Proof.
  intros w amount f t0. unfold convert_currency, when, raise_for_status, subscript, divide.
  rates_only.
Qed.

Lemma rates_only_get_supported_currencies :
  forall w, calls_rates_only (get_supported_currencies w).
Proof. intro w. unfold get_supported_currencies, raise_for_status. rates_only. Qed.

Lemma rates_only_get_historical_rate :
  forall w s f t0, calls_rates_only (get_historical_rate w s f t0).
Proof.
  intros w s f t0. unfold get_historical_rate, when, raise_for_status. rates_only.
Qed.

Lemma rates_only_dispatch :
  forall w name tc, calls_rates_only (dispatch w name tc).
Proof.
  intros w name tc. unfold dispatch, json_loads, arg_number, arg_string.
  apply rates_only_try; [| rates_only].
  apply rates_only_bind; [rates_only |]. intro arguments.
  repeat match goal with
         | |- calls_rates_only (if ?b then _ else _) => destruct b
         end;
    repeat first
      [ apply rates_only_convert_currency
      | apply rates_only_get_supported_currencies
      | apply rates_only_get_historical_rate
      | apply rates_only_ret
      | apply rates_only_raise
      | apply rates_only_bind
      | match goal with
        | |- forall _, _ => intro
        | |- calls_rates_only (match ?x with _ => _ end) => destruct x
        end ].
Qed.

Lemma rates_only_tool_call_turn :
  forall w bound tc, calls_rates_only (tool_call_turn w bound tc).
Proof.
  intros w bound tc. unfold tool_call_turn.
  destruct (function_name tc) as [name | e].
  - apply rates_only_bind; [apply rates_only_dispatch |].
    intro. apply rates_only_ret.
  - destruct bound; [apply rates_only_ret | apply rates_only_raise].
Qed.

Lemma rates_only_tool_calls_loop :
  forall w calls bound results, calls_rates_only (tool_calls_loop w bound calls results).
Proof.
  intros w calls. induction calls as [| tc calls IH]; intros bound results;
    cbn [tool_calls_loop].
  - destruct results; apply rates_only_ret.
  - apply rates_only_bind; [apply rates_only_tool_call_turn |].
    intros [[e | | text] bound']; cbn [fst snd];
      [apply IH | apply IH | apply rates_only_ret].
Qed.

Lemma rates_only_after_reply :
  forall w (response : response (outcome llm_message)),
    calls_rates_only
      (raise_for_status response ;;;
       data <- lift (json response) ;;
       message <- lift data ;;
       match tool_calls message with
       | Some (tc :: calls) =>
           response_text <- _handle_tool_calls w (tc :: calls) ;;
           ret (PyStr response_text)
       | _ =>
           ret match msg_content message with
               | Absent => PyStr "I couldn't process your request."
               | Null => PyNone
               | Text s => PyStr s
               end
       end).
Proof.
  intros w response. unfold raise_for_status, _handle_tool_calls.
  apply rates_only_bind; [rates_only |]. intros _.
  apply rates_only_bind; [apply rates_only_lift |]. intro data.
  apply rates_only_bind; [apply rates_only_lift |]. intro message.
  destruct (tool_calls message) as [[| tc calls] |]; try apply rates_only_ret.
  apply rates_only_bind; [apply rates_only_tool_calls_loop |].
  intro. apply rates_only_ret.
Qed.

Lemma snd_try_clauses :
  forall (A : Type) (m : M A) clauses log,
    (forall e l, snd (select_handler clauses e l) = l) ->
    snd (try_clauses m clauses log) = snd (m log).
Proof.
  intros A m clauses log H. unfold try_clauses.
  destruct (m log) as [[v | e] log']; [reflexivity | apply H].
Qed.

Lemma process_with_llm_calls :
  forall w query history log,
    exists calls,
      snd (_process_with_llm w query history log)
      = log ++ PostChat (chat_messages query history) :: calls
      /\ forallb is_rate_call calls = true.
Proof.
  intros w query history log.
  unfold _process_with_llm. rewrite snd_try_clauses.
  2: { intros e l. cbn [select_handler]. destruct (is_HTTPStatusError e); reflexivity. }
  unfold bind at 1, http_post, http_get.
  destruct (chat_api w (chat_messages query history)) as [msg | r].
  - exists []. split; reflexivity.
  - destruct (rates_only_after_reply w r (log ++ [PostChat (chat_messages query history)]))
      as [calls [Hlog Hrates]].
    exists calls. split; [| exact Hrates].
    rewrite <- app_assoc in Hlog. exact Hlog.
Qed.

(** X28.  The network traffic of one query.  Whatever the services answer,
    [process_query] only adds calls to the log; it sends at most one request
    to the language model, that request is the first call of the query and
    carries the messages built from the query and the history, and every
    later call goes to the rate service. *)
Theorem process_query_network_calls :
  forall w query history log,
    exists calls,
      snd (process_query w query history log) = log ++ calls
      /\ match calls with
         | [] => True
         | c :: rest =>
             c = PostChat (chat_messages query history)
             /\ forallb is_rate_call rest = true
         end.
Proof.
  intros w query history log.
  destruct (extract_conversions_total query) as [[| c rest] Hq].
  - unfold process_query. rewrite process_query_escalates by exact Hq.
    destruct (process_with_llm_calls w query history log) as [calls [Hlog Hrates]].
    exists (PostChat (chat_messages query history) :: calls). auto.
  - exists []. rewrite app_nil_r.
    unfold process_query, process_query_in, try_clauses, bind at 1, lift.
    rewrite Hq. cbn [List.length Nat.leb]. unfold bind.
    change (convert_multiple_currencies_in currency_service_globals)
      with convert_multiple_currencies.
    rewrite convert_multiple_currencies_name_error. split; [reflexivity | exact I].
Qed.
